(** * Sistema Lista BraSoft: the parsing, classification and aggregation core

    A shallow embedding of [sistema_lista_brasoft.py]: text normalisation,
    the regular expressions of the module and the search they are used
    with, category resolution, per-item quantification and the detail,
    summary and TOTAL tables built by [App.run_process]. *)

From Stdlib Require Import Ascii String.
From Stdlib Require Import List ZArith NArith Bool Lia.
From Stdlib Require Import Decimal DecimalZ.
Import ListNotations.

(** ** Python values *)

(** A [str] is a sequence of Unicode code points. *)
Abbreviation codepoint := N (only parsing).
Abbreviation pystr := (list N) (only parsing).

(** String literals of the source, written in ASCII. *)
Definition lit (s : string) : pystr := map N_of_ascii (list_ascii_of_string s).
Arguments lit s%_string.

Fixpoint pystr_eqb (a b : pystr) : bool :=
  match a, b with
  | [], [] => true
  | x :: a', y :: b' => N.eqb x y && pystr_eqb a' b'
  | _, _ => false
  end.

(** The values that reach the functions below: [None], booleans, integers,
    the floating point NaN pandas stores for a blank cell, and strings. *)
Inductive pyval :=
| VNone
| VBool (b : bool)
| VInt (z : Z)
| VNaN
| VStr (s : pystr).

Definition is_nil {A} (l : list A) : bool :=
  match l with [] => true | _ => false end.

(** Truth value of an object ([if x], [x or y], [not x]). *)
Definition truthy (v : pyval) : bool :=
  match v with
  | VNone => false
  | VBool b => b
  | VInt z => negb (z =? 0)%Z
  | VNaN => true
  | VStr s => negb (is_nil s)
  end.

(** [needle in hay] on strings. *)
Fixpoint starts_with (needle hay : pystr) : bool :=
  match needle, hay with
  | [], _ => true
  | x :: n', y :: h' => N.eqb x y && starts_with n' h'
  | _ :: _, [] => false
  end.

Fixpoint str_in (needle hay : pystr) : bool :=
  starts_with needle hay ||
  match hay with
  | [] => false
  | _ :: h' => str_in needle h'
  end.

(** [x in l] on a list of strings. *)
Definition list_in (x : pystr) (l : list pystr) : bool := existsb (pystr_eqb x) l.

(** ** The Unicode character database

    The module reads the database through [unicodedata], [str.lower] and
    the [re] engine.  Its tables are not part of the repository, so the
    functions that consult them take them as a parameter. *)
Record UnicodeData := {
  (** [unicodedata.normalize('NFKD', s)] *)
  nfkd : pystr -> pystr;
  (** [unicodedata.combining(c)], the canonical combining class *)
  combining : codepoint -> N;
  (** [s.lower()] *)
  lower : pystr -> pystr;
  (** the digit value of a decimal character (category Nd): what [\d]
      matches and what [int] reads *)
  decimal : codepoint -> option N;
  (** alphanumeric characters, which with [_] are what [\w] matches *)
  isalnum : codepoint -> bool;
  (** the simple lower-case mapping [re] compares through under IGNORECASE *)
  tolower : codepoint -> codepoint
}.

Definition in_range (lo hi c : N) : bool := (lo <=? c)%N && (c <=? hi)%N.

(** White space as [str.isspace], [str.split] and [\s] see it. *)
Definition isspace (c : codepoint) : bool :=
  in_range 9 13 c || in_range 28 32 c || N.eqb c 133 || N.eqb c 160 ||
  N.eqb c 5760 || in_range 8192 8202 c || N.eqb c 8232 || N.eqb c 8233 ||
  N.eqb c 8239 || N.eqb c 8287 || N.eqb c 12288.

(** The class [[a-z0-9]]. *)
Definition is_az09 (c : codepoint) : bool := in_range 97 122 c || in_range 48 57 c.

(** ** TextNormalizer *)

Section Normalizer.
Variable U : UnicodeData.

(** [strip_accents]: NFKD, then drop every combining character.  On a
    [str], its only argument here, [unicodedata.normalize] does not
    raise, so the [except] branch is never taken. *)
Definition strip_accents (s : pystr) : pystr :=
  filter (fun c => N.eqb (combining U c) 0) (nfkd U s).

(** [re.sub(r'\s+', '', s)]: every run of white space is deleted. *)
Definition remove_spaces (s : pystr) : pystr := filter (fun c => negb (isspace c)) s.

(** [re.sub(r'[^a-z0-9]', '', s)]: every other character is deleted. *)
Definition keep_az09 (s : pystr) : pystr := filter is_az09 s.

Definition normalize_token (v : pyval) : pystr :=
  match v with
  | VStr s =>
      let s := lower U (strip_accents s) in
      let s := remove_spaces s in
      keep_az09 s
  | _ => []
  end.
End Normalizer.

(** ** The [re] engine on the patterns of the module

    A pattern is a sequence of nodes.  Every repetition in the module's
    patterns is over a one-character class, and there is at most one
    group.  Matching is backtracking: [run] lists the states a pattern
    can end in, the one Python prefers first. *)

Inductive node :=
| Chr (p : codepoint -> bool)      (* one character of a class *)
| Star (p : codepoint -> bool)     (* greedy [c*] *)
| Plus (p : codepoint -> bool)     (* greedy [c+] *)
| Opt (p : codepoint -> bool)      (* greedy [c?] *)
| Bol                              (* [^] without MULTILINE *)
| WordB (w : codepoint -> bool)    (* [\b], for the word characters [w] *)
| Open                             (* start of group 1 *)
| Close.                           (* end of group 1 *)

Definition pattern := list node.

(** The matcher's state: the character before the cursor (none at the
    start of the text), the text from the cursor on, the text from where
    group 1 opened, and the text of group 1. *)
Record mstate := {
  prev : option codepoint;
  rest : pystr;
  mark : option pystr;
  grp : option pystr
}.

Definition move (st : mstate) (pv : option codepoint) (s : pystr) : mstate :=
  {| prev := pv; rest := s; mark := mark st; grp := grp st |}.

(** The cursors after a greedy repetition of [p], longest first. *)
Fixpoint greedy (p : codepoint -> bool) (pv : option codepoint) (s : pystr)
  : list (option codepoint * pystr) :=
  match s with
  | c :: s' => if p c then greedy p (Some c) s' ++ [(pv, s)] else [(pv, s)]
  | [] => [(pv, s)]
  end.

Definition is_some {A} (p : A -> bool) (o : option A) : bool :=
  match o with Some a => p a | None => false end.

Definition run_node (n : node) (st : mstate) : list mstate :=
  match n with
  | Chr p =>
      match rest st with
      | c :: s' => if p c then [move st (Some c) s'] else []
      | [] => []
      end
  | Star p => map (fun q => move st (fst q) (snd q)) (greedy p (prev st) (rest st))
  | Plus p =>
      match rest st with
      | c :: s' =>
          if p c then map (fun q => move st (fst q) (snd q)) (greedy p (Some c) s') else []
      | [] => []
      end
  | Opt p =>
      match rest st with
      | c :: s' => if p c then [move st (Some c) s'; st] else [st]
      | [] => [st]
      end
  | Bol => match prev st with None => [st] | Some _ => [] end
  | WordB w => if xorb (is_some w (prev st)) (is_some w (hd_error (rest st))) then [st] else []
  | Open => [{| prev := prev st; rest := rest st; mark := Some (rest st); grp := grp st |}]
  | Close =>
      [{| prev := prev st; rest := rest st; mark := mark st;
          grp := match mark st with
                 | Some m => Some (firstn (length m - length (rest st)) m)
                 | None => None
                 end |}]
  end.

Fixpoint run (pat : pattern) (st : mstate) : list mstate :=
  match pat with
  | [] => [st]
  | n :: pat' => flat_map (run pat') (run_node n st)
  end.

(** A match object: [m.group(0)], [m.group(1)] and the text after the match. *)
Record rematch := {
  group0 : pystr;
  group1 : option pystr;
  after : pystr
}.

(** The match of [pat] that starts at the cursor, if there is one. *)
Definition match_at (pat : pattern) (pv : option codepoint) (s : pystr) : option rematch :=
  match run pat {| prev := pv; rest := s; mark := None; grp := None |} with
  | st :: _ =>
      Some {| group0 := firstn (length s - length (rest st)) s;
              group1 := grp st;
              after := rest st |}
  | [] => None
  end.

(** [pat.search(s)]: the match at the leftmost position that has one. *)
Fixpoint search_from (pat : pattern) (pv : option codepoint) (s : pystr) : option rematch :=
  match match_at pat pv s with
  | Some m => Some m
  | None =>
      match s with
      | c :: s' => search_from pat (Some c) s'
      | [] => None
      end
  end.

Definition search (pat : pattern) (s : pystr) : option rematch := search_from pat None s.

(** [pat.findall(s)] for a pattern without a group: the texts of the
    matches, left to right, each search starting where the last match
    ended.  [skip] counts the characters still inside the last match.
    The pattern it is used with matches no empty text. *)
Fixpoint findall_from (pat : pattern) (skip : nat) (pv : option codepoint) (s : pystr)
  : list pystr :=
  match skip with
  | S k =>
      match s with
      | c :: s' => findall_from pat k (Some c) s'
      | [] => []
      end
  | O =>
      match match_at pat pv s with
      | Some m =>
          group0 m ::
          match s with
          | c :: s' => findall_from pat (length (group0 m) - 1) (Some c) s'
          | [] => []
          end
      | None =>
          match s with
          | c :: s' => findall_from pat 0 (Some c) s'
          | [] => []
          end
      end
  end.

Definition findall (pat : pattern) (s : pystr) : list pystr := findall_from pat 0 None s.

(** *** Character classes *)

Section Classes.
Variable U : UnicodeData.

(** [\d] *)
Definition isdigit (c : codepoint) : bool :=
  match decimal U c with Some _ => true | None => false end.

(** [\w] *)
Definition isword (c : codepoint) : bool := isalnum U c || N.eqb c 95.

(** The characters [re] adds to a lower-case letter under IGNORECASE
    because they share an upper case with it: dotless i and long s. *)
Definition ignorecase_fixes (lo : codepoint) : list codepoint :=
  if N.eqb lo 105 then [305%N]
  else if N.eqb lo 115 then [383%N]
  else [].

(** A letter of the pattern under IGNORECASE. *)
Definition ichr (c : codepoint) (x : codepoint) : bool :=
  let lo := tolower U c in
  let lx := tolower U x in
  N.eqb lx lo || existsb (N.eqb lx) (ignorecase_fixes lo).

Definition is_ascii_letter (c : codepoint) : bool := in_range 65 90 c || in_range 97 122 c.

(** A literal piece of a pattern compiled with IGNORECASE: letters
    compare through [tolower], other characters exactly. *)
Definition ilits (s : string) : pattern :=
  map (fun c => if is_ascii_letter c then Chr (ichr c) else Chr (N.eqb c)) (lit s).
Arguments ilits s%_string.

(** [[:=]] *)
Definition colon_or_eq (c : codepoint) : bool := N.eqb c 58 || N.eqb c 61.

(** [[A-Za-z0-9_\-\. ]] under IGNORECASE: the class is lowered, with the
    fixes of its letters, and tested on the lowered character. *)
Definition sku_class (x : codepoint) : bool :=
  let lx := tolower U x in
  in_range 97 122 lx || in_range 48 57 lx ||
  N.eqb lx 95 || N.eqb lx 45 || N.eqb lx 46 || N.eqb lx 32 ||
  N.eqb lx 305 || N.eqb lx 383.

(** [[^;\\n]] under IGNORECASE.  In the raw string the class holds a
    semicolon, an escaped backslash and the letter n. *)
Definition var_class (x : codepoint) : bool :=
  let lx := tolower U x in
  negb (N.eqb lx 59 || N.eqb lx 92 || N.eqb lx 110).

(** [[^\[]] *)
Definition not_lbracket (c : codepoint) : bool := negb (N.eqb c 91).

(** *** The patterns *)

(** [QTD_PATTERNS], each compiled with IGNORECASE, in the order of the
    source:
    - [Quantity:\s*(\d+)]
    - ["Quantity"\s*[:=]\s*"?(\d+)"?]
    - [\bqty\s*[:=]\s*(\d+)]
    - [\bquantity\s*[:=]\s*(\d+)]
    - [^\s*\[(\d+)\]\s] *)
Definition QTD_PATTERNS : list pattern :=
  [ ilits "Quantity:" ++ [Star isspace; Open; Plus isdigit; Close];
    Chr (N.eqb 34) :: ilits "Quantity" ++
      [Chr (N.eqb 34); Star isspace; Chr colon_or_eq; Star isspace; Opt (N.eqb 34);
       Open; Plus isdigit; Close; Opt (N.eqb 34)];
    WordB isword :: ilits "qty" ++
      [Star isspace; Chr colon_or_eq; Star isspace; Open; Plus isdigit; Close];
    WordB isword :: ilits "quantity" ++
      [Star isspace; Chr colon_or_eq; Star isspace; Open; Plus isdigit; Close];
    [Bol; Star isspace; Chr (N.eqb 91); Open; Plus isdigit; Close;
     Chr (N.eqb 93); Chr isspace] ].

(** [SKU Reference No\.\s*:\s*([A-Za-z0-9_\-\. ]+)] with IGNORECASE *)
Definition SKU_IN_PRODUCT_INFO : pattern :=
  ilits "SKU Reference No." ++
  [Star isspace; Chr (N.eqb 58); Star isspace; Open; Plus sku_class; Close].

(** [Variation Name\s*:\s*([^;\\n]+)] with IGNORECASE *)
Definition VAR_IN_PRODUCT_INFO : pattern :=
  ilits "Variation Name" ++
  [Star isspace; Chr (N.eqb 58); Star isspace; Open; Plus var_class; Close].

(** [\[\d+\][^\[]+] with IGNORECASE and DOTALL, neither of which bears
    on it: it has no letter and no dot. *)
Definition BLOCK_RE : pattern :=
  [Chr (N.eqb 91); Plus isdigit; Chr (N.eqb 93); Plus not_lbracket].

(** [r'\b(\d+)\b'], searched by [quant_kit_from_variation]. *)
Definition KIT_RE : pattern := [WordB isword; Open; Plus isdigit; Close; WordB isword].
End Classes.

(** ** [str] methods and conversions *)

(** [s.lstrip()], [s.rstrip()], [s.strip()] *)
Fixpoint lstrip (s : pystr) : pystr :=
  match s with
  | c :: s' => if isspace c then lstrip s' else s
  | [] => []
  end.

Definition rstrip (s : pystr) : pystr := List.rev (lstrip (List.rev s)).
Definition strip (s : pystr) : pystr := rstrip (lstrip s).

(** [s.split()]: the maximal runs without white space.  [cur] is the run
    being read, last character first. *)
Fixpoint split_from (cur : pystr) (s : pystr) : list pystr :=
  match s with
  | [] => if is_nil cur then [] else [List.rev cur]
  | c :: s' =>
      if isspace c
      then (if is_nil cur then split_from [] s' else List.rev cur :: split_from [] s')
      else split_from (c :: cur) s'
  end.

Definition str_split (s : pystr) : list pystr := split_from [] s.

(** [sep.join(l)] *)
Fixpoint join (sep : pystr) (l : list pystr) : pystr :=
  match l with
  | [] => []
  | [x] => x
  | x :: l' => x ++ sep ++ join sep l'
  end.

(** [str(n)] for an integer. *)
Fixpoint uint_codes (d : uint) : pystr :=
  match d with
  | Nil => []
  | D0 d' => 48%N :: uint_codes d'
  | D1 d' => 49%N :: uint_codes d'
  | D2 d' => 50%N :: uint_codes d'
  | D3 d' => 51%N :: uint_codes d'
  | D4 d' => 52%N :: uint_codes d'
  | D5 d' => 53%N :: uint_codes d'
  | D6 d' => 54%N :: uint_codes d'
  | D7 d' => 55%N :: uint_codes d'
  | D8 d' => 56%N :: uint_codes d'
  | D9 d' => 57%N :: uint_codes d'
  end.

(** [str(z)].  For an integer of more than [int_max_str_digits] digits
    the interpreter raises here as well; the properties that read a
    numeral back bound the integer. *)
Definition str_of_int (z : Z) : pystr :=
  match Z.to_int z with
  | Pos d => uint_codes d
  | Neg d => 45%N :: uint_codes d
  end.

(** [str(x)] *)
Definition py_str (v : pyval) : pystr :=
  match v with
  | VNone => lit "None"
  | VBool true => lit "True"
  | VBool false => lit "False"
  | VInt z => str_of_int z
  | VNaN => lit "nan"
  | VStr s => s
  end.

(** The interpreter's limit on the length of a numeral that [int] reads,
    [sys.get_int_max_str_digits()], at its default. *)
Definition int_max_str_digits : nat := 4300.

Section Int.
Variable U : UnicodeData.

(** The digits of a numeral after its first one: decimal characters,
    single underscores allowed between two of them. *)
Fixpoint int_digits (acc : N) (s : pystr) : option N :=
  match s with
  | [] => Some acc
  | c :: s' =>
      match decimal U c with
      | Some d => int_digits (10 * acc + d) s'
      | None =>
          if N.eqb c 95
          then match s' with
               | c2 :: s'' =>
                   match decimal U c2 with
                   | Some d => int_digits (10 * acc + d) s''
                   | None => None
                   end
               | [] => None
               end
          else None
      end
  end.

Definition int_unsigned (s : pystr) : option N :=
  match s with
  | c :: s' =>
      match decimal U c with
      | Some d => int_digits d s'
      | None => None
      end
  | [] => None
  end.

(** The decimal characters of a string, which the interpreter counts
    against its limit: signs, white space and underscores do not count,
    leading zeros do. *)
Definition digit_count (s : pystr) : nat := length (filter (isdigit U) s).

(** [int(s)] for a string: surrounding white space, an optional sign,
    decimal digits.  [None] stands for ValueError, which [int] also
    raises for a numeral of more than [int_max_str_digits] digits. *)
Definition py_int (s : pystr) : option Z :=
  if (int_max_str_digits <? digit_count s)%nat then None
  else
    match strip s with
    | c :: s' =>
        if N.eqb c 43 then option_map Z.of_N (int_unsigned s')
        else if N.eqb c 45 then option_map (fun n => Z.opp (Z.of_N n)) (int_unsigned s')
        else option_map Z.of_N (int_unsigned (c :: s'))
    | [] => None
    end.
End Int.

(** ** ItemFieldExtractor *)

Section Extractor.
Variable U : UnicodeData.

(** [int(m.group(1))]; [None] when the conversion raises. *)
Definition int_of_group (m : rematch) : option Z :=
  match group1 m with
  | Some g => py_int U g
  | None => None
  end.

(** The loop of [extract_quantity_from_text] over the patterns: the
    first pattern that matches and whose group converts returns, a
    conversion that raises goes on to the next pattern. *)
Fixpoint first_quantity (pats : list pattern) (text : pystr) : option Z :=
  match pats with
  | [] => None
  | pat :: pats' =>
      match search pat text with
      | Some m =>
          match int_of_group m with
          | Some n => Some n
          | None => first_quantity pats' text
          end
      | None => first_quantity pats' text
      end
  end.

Definition extract_quantity_from_text (text : pyval) (fallback : option Z) : Z :=
  let default := match fallback with None => 1%Z | Some f => f end in
  match text with
  | VStr s =>
      match first_quantity (QTD_PATTERNS U) s with
      | Some n => n
      | None => default
      end
  | _ => default
  end.

Definition extract_sku_and_var_from_text (text : pyval) : pystr * pystr :=
  match text with
  | VStr s =>
      if is_nil (strip s) then ([], [])
      else
        let sku_raw :=
          match search (SKU_IN_PRODUCT_INFO U) s with
          | Some m => match group1 m with Some g => strip g | None => [] end
          | None => []
          end in
        let variation :=
          match search (VAR_IN_PRODUCT_INFO U) s with
          | Some m => match group1 m with Some g => strip g | None => [] end
          | None => []
          end in
        (sku_raw, variation)
  | _ => ([], [])
  end.

Definition quant_kit_from_variation (variation : pyval) : Z :=
  match variation with
  | VStr s =>
      if is_nil (strip s) then 1%Z
      else
        match search (KIT_RE U) s with
        | Some m =>
            match int_of_group m with
            | Some n => n
            | None => 1%Z
            end
        | None => 1%Z
        end
  | _ => 1%Z
  end.
End Extractor.

(** ** Configuration *)

(** One entry of [cfg["categories"]].  [load_map_file] stores the aliases
    normalised, sorted and without duplicates; [meta.get("aliases", [])]
    reads an absent key as the empty list. *)
Record category_meta := {
  aliases : list pystr;
  output_format : pystr
}.

(** The configuration dictionary.  [categories] keeps the insertion order
    of the dict; the two special rules are [None] when the key, or
    [special_rules] itself, is absent. *)
Record config := {
  priorities : list pystr;
  categories : list (pystr * category_meta);
  enc_capa_category : option pystr;
  enc_base_category : option pystr
}.

Definition default_map_dict : config :=
  {| priorities := [lit "PR"; lit "R70"; lit "ENC"; lit "ENC_CAPA";
                    lit "XUXAO"; lit "BB"; lit "RAMPA"];
     categories := [];
     enc_capa_category := Some (lit "ENC_CAPA");
     enc_base_category := Some (lit "ENC") |}.

(** [d.get(key, default)] on an optional entry. *)
Definition get_or {A} (o : option A) (default : A) : A :=
  match o with Some a => a | None => default end.

(** ** CategoryResolver and ItemQuantifier *)

Inductive output_type := numeric | enc_capa.

Record output := {
  o_type : output_type;
  o_value : Z
}.

Record diag_record := {
  sku_raw : pystr;
  sku_norm : pystr;
  category : pystr;
  kit_qty : Z;
  kits_purchased : Z;
  unidades : Z;
  variation_seen : pystr
}.

Section Resolver.
Variable U : UnicodeData.

(** [variation] is a [str] where the function is called, for which
    [variation or ""] is [variation]. *)
Definition compute_category_from_variation
    (initial_category variation enc_capa_cat enc_base_cat : pystr) : pystr :=
  let v := variation in
  let v_norm := normalize_token U (VStr v) in
  let has_encosto := str_in (lit "encosto") v_norm in
  let has_capa_extra := str_in (lit "capaextra") v_norm in
  let has_com_capa := str_in (lit "comcapa") v_norm || str_in (lit "+capa") v_norm in
  if has_encosto && has_capa_extra then enc_capa_cat
  else if has_encosto && has_com_capa && negb (pystr_eqb initial_category enc_capa_cat)
       then enc_base_cat
       else initial_category.

(** The loop over [cfg["categories"].items()]: the first category whose
    aliases hold the normalised SKU, [""] when there is none. *)
Fixpoint initial_category (sku_norm : pystr) (cats : list (pystr * category_meta)) : pystr :=
  match cats with
  | [] => []
  | (cat, meta) :: cats' =>
      if list_in sku_norm (aliases meta) then cat
      else initial_category sku_norm cats'
  end.

(** [sku_raw] and [variation] are the two [str] that
    [extract_sku_and_var_from_text] returns; [outputs] is a dict with
    at most one entry. *)
Definition compute_outputs_single_item
    (sku_raw variation : pystr) (qty_from_block : Z) (cfg : config)
  : list (pystr * output) * diag_record :=
  let kit_qty := quant_kit_from_variation U (VStr variation) in
  let kits_purchased := if truthy (VInt qty_from_block) then qty_from_block else 1%Z in
  let unidades := (kit_qty * kits_purchased)%Z in
  let sku_norm := normalize_token U (VStr sku_raw) in
  let category := initial_category sku_norm (categories cfg) in
  let enc_capa_cat := get_or (enc_capa_category cfg) (lit "ENC_CAPA") in
  let enc_base_cat := get_or (enc_base_category cfg) (lit "ENC") in
  let category := compute_category_from_variation category variation enc_capa_cat enc_base_cat in
  let outputs :=
    if truthy (VStr category) then
      if pystr_eqb category enc_capa_cat
         && str_in (lit "capaextra") (normalize_token U (VStr variation))
      then [(category, {| o_type := enc_capa; o_value := kits_purchased |})]
      else [(category, {| o_type := numeric; o_value := unidades |})]
    else [] in
  let diag :=
    {| sku_raw := sku_raw; sku_norm := sku_norm; category := category;
       kit_qty := kit_qty; kits_purchased := kits_purchased; unidades := unidades;
       variation_seen := variation |} in
  (outputs, diag).
End Resolver.

(** ** An excerpt of the character database

    The tables for the code points U+0000 to U+00FF, with the combining
    marks their decompositions use.  The examples of this file are texts
    in that range and run on this excerpt. *)

Local Open Scope N_scope.

Definition latin1_tolower (c : codepoint) : codepoint :=
  if in_range 65 90 c then c + 32
  else if in_range 192 222 c && negb (N.eqb c 215) then c + 32
  else c.

(** The vowels and consonants of U+00C0 to U+00FF that decompose, as
    (code point, base letter, combining mark); the lower-case letters are
    32 above the capitals. *)
Definition latin1_accented : list (N * N * N) :=
  [ (192, 65, 768); (193, 65, 769); (194, 65, 770); (195, 65, 771);
    (196, 65, 776); (197, 65, 778); (199, 67, 807);
    (200, 69, 768); (201, 69, 769); (202, 69, 770); (203, 69, 776);
    (204, 73, 768); (205, 73, 769); (206, 73, 770); (207, 73, 776);
    (209, 78, 771);
    (210, 79, 768); (211, 79, 769); (212, 79, 770); (213, 79, 771);
    (214, 79, 776);
    (217, 85, 768); (218, 85, 769); (219, 85, 770); (220, 85, 776);
    (221, 89, 769) ].

Fixpoint find_accented (c : N) (l : list (N * N * N)) : option (N * N) :=
  match l with
  | [] => None
  | (k, b, m) :: l' => if N.eqb k c then Some (b, m) else find_accented c l'
  end.

(** The compatibility decomposition of one code point. *)
Definition latin1_decomposition (c : codepoint) : pystr :=
  if c <? 160 then [c]
  else if N.eqb c 160 then [32]
  else if N.eqb c 168 then [32; 776]
  else if N.eqb c 170 then [97]
  else if N.eqb c 175 then [32; 772]
  else if N.eqb c 178 then [50]
  else if N.eqb c 179 then [51]
  else if N.eqb c 180 then [32; 769]
  else if N.eqb c 181 then [956]
  else if N.eqb c 184 then [32; 807]
  else if N.eqb c 185 then [49]
  else if N.eqb c 186 then [111]
  else if N.eqb c 188 then [49; 8260; 52]
  else if N.eqb c 189 then [49; 8260; 50]
  else if N.eqb c 190 then [51; 8260; 52]
  else if N.eqb c 255 then [121; 776]
  else if in_range 192 223 c then
    match find_accented c latin1_accented with
    | Some (b, m) => [b; m]
    | None => [c]
    end
  else if in_range 224 254 c then
    match find_accented (c - 32) latin1_accented with
    | Some (b, m) => [b + 32; m]
    | None => [c]
    end
  else [c].

Definition latin1_combining (c : codepoint) : N :=
  if N.eqb c 807 then 202
  else if in_range 768 772 c || N.eqb c 776 || N.eqb c 778 then 230
  else 0.

Definition latin1_decimal (c : codepoint) : option N :=
  if in_range 48 57 c then Some (c - 48) else None.

Definition latin1_isalnum (c : codepoint) : bool :=
  in_range 48 57 c || in_range 65 90 c || in_range 97 122 c ||
  N.eqb c 170 || in_range 178 179 c || N.eqb c 181 || in_range 185 186 c ||
  in_range 188 190 c || in_range 192 214 c || in_range 216 246 c ||
  in_range 248 255 c.

Definition latin1 : UnicodeData :=
  {| nfkd := flat_map latin1_decomposition;
     combining := latin1_combining;
     lower := map latin1_tolower;
     decimal := latin1_decimal;
     isalnum := latin1_isalnum;
     tolower := latin1_tolower |}.

Local Close Scope N_scope.

(** ** Dictionaries with string keys, in insertion order *)

Definition dict (V : Type) := list (pystr * V).

Fixpoint dict_get {V} (d : dict V) (k : pystr) : option V :=
  match d with
  | [] => None
  | (k', v) :: d' => if pystr_eqb k k' then Some v else dict_get d' k
  end.

(** [d[k] = v] *)
Fixpoint dict_set {V} (d : dict V) (k : pystr) (v : V) : dict V :=
  match d with
  | [] => [(k, v)]
  | (k', v') :: d' => if pystr_eqb k k' then (k', v) :: d' else (k', v') :: dict_set d' k v
  end.

(** ** OrderAggregator: the detail table *)

(** The order of strings, code point by code point. *)
Fixpoint str_ltb (a b : pystr) : bool :=
  match a, b with
  | _, [] => false
  | [], _ :: _ => true
  | x :: a', y :: b' => (x <? y)%N || (N.eqb x y && str_ltb a' b')
  end.

Section Columns.
Variable U : UnicodeData.

(** [sorted(l, key=str.lower)]: a stable sort on the lowered names. *)
Fixpoint insert_by_lower (x : pystr) (l : list pystr) : list pystr :=
  match l with
  | [] => [x]
  | y :: l' =>
      if str_ltb (lower U x) (lower U y) then x :: l else y :: insert_by_lower x l'
  end.

Definition sorted_by_lower (l : list pystr) : list pystr :=
  fold_left (fun acc x => insert_by_lower x acc) l [].

Definition out_cols (cfg : config) : list pystr :=
  let cats := map fst (categories cfg) in
  let prios := filter (fun c => list_in c cats) (priorities cfg) in
  let remaining := filter (fun c => negb (list_in c prios)) (sorted_by_lower cats) in
  prios ++ remaining.
End Columns.

(** One row of the input sheet, as the loop reads it:
    [row.get(order_col, '')] and [row.get(product_info_col, '')].  A blank
    cell reads as NaN; without an [order_sn] column every row reads [''].  *)
Record order_row := {
  order_sn : pyval;
  product_info : pyval
}.

(** The accumulators of one row's loop over its blocks, with the
    diagnostic rows of the whole run. *)
Record accumulators := {
  accum_numeric : dict Z;
  accum_enc_capa : Z;
  per_block_variations : list pystr;
  per_block_sku : list pystr;
  diag_rows : list (pyval * diag_record)
}.

(** [for col, meta in outputs.items(): ...] *)
Definition add_output (a : dict Z * Z) (o : pystr * output) : dict Z * Z :=
  match o_type (snd o) with
  | numeric =>
      (dict_set (fst a) (fst o) (get_or (dict_get (fst a) (fst o)) 0 + o_value (snd o))%Z,
       snd a)
  | enc_capa => (fst a, (snd a + o_value (snd o))%Z)
  end.

Section Detail.
Variable U : UnicodeData.
Variable cfg : config.

Definition split_blocks (product_info : pyval) : list pystr :=
  match product_info with
  | VStr s =>
      let blocks := findall (BLOCK_RE U) s in
      if is_nil blocks then [s] else blocks
  | _ => []
  end.

(** The body of [for blk in blocks]. *)
Definition process_block (order : pyval) (a : accumulators) (blk : pystr) : accumulators :=
  let sv := extract_sku_and_var_from_text U (VStr blk) in
  let qty_blk := extract_quantity_from_text U (VStr blk) (Some 1%Z) in
  let od := compute_outputs_single_item U (fst sv) (snd sv) qty_blk cfg in
  let acc := fold_left add_output (fst od) (accum_numeric a, accum_enc_capa a) in
  {| accum_numeric := fst acc;
     accum_enc_capa := snd acc;
     per_block_variations := per_block_variations a ++ [variation_seen (snd od)];
     per_block_sku := per_block_sku a ++ [sku_raw (snd od)];
     diag_rows := diag_rows a ++ [(order, snd od)] |}.

Definition nonempty (s : pystr) : bool := negb (is_nil s).

(** The dict [base] of one row, once its blocks are read. *)
Definition detail_row (r : order_row) (a : accumulators) : dict pyval :=
  let base :=
    [ (lit "order_sn", order_sn r);
      (lit "SKU Reference No.", VStr (join (lit "; ") (filter nonempty (per_block_sku a))));
      (lit "Variation Name", VStr (join (lit "; ") (filter nonempty (per_block_variations a))));
      (lit "product_info",
       match product_info r with
       | VStr s => VStr s
       | v => VStr (py_str v)
       end) ] in
  let base := fold_left (fun b c => dict_set b c (VStr [])) (out_cols U cfg) base in
  let base := fold_left (fun b cv => dict_set b (fst cv) (VInt (snd cv))) (accum_numeric a) base in
  if (accum_enc_capa a >? 0)%Z
  then dict_set base (lit "ENC_CAPA") (VStr (str_of_int (accum_enc_capa a) ++ lit " + C"))
  else base.

(** The body of [for _, row in df.iterrows()]: the row's detail dict
    and the diagnostic rows so far. *)
Definition process_row (diags : list (pyval * diag_record)) (r : order_row)
  : dict pyval * list (pyval * diag_record) :=
  let a0 := {| accum_numeric := []; accum_enc_capa := 0;
               per_block_variations := []; per_block_sku := [];
               diag_rows := diags |} in
  let a := fold_left (process_block (order_sn r)) (split_blocks (product_info r)) a0 in
  (detail_row r a, diag_rows a).

Fixpoint process_rows (diags : list (pyval * diag_record)) (rows : list order_row)
  : list (dict pyval) * list (pyval * diag_record) :=
  match rows with
  | [] => ([], diags)
  | r :: rows' =>
      let dr := process_row diags r in
      let rest := process_rows (snd dr) rows' in
      (fst dr :: fst rest, snd rest)
  end.

Definition detail_rows (rows : list order_row) : list (dict pyval) :=
  fst (process_rows [] rows).

Definition diagnostics (rows : list order_row) : list (pyval * diag_record) :=
  snd (process_rows [] rows).
End Detail.

(** ** OrderAggregator: the summary and the TOTAL row *)

(** A cell of the frame built from the row dicts; a row without the key
    gives NaN. *)
Definition cell (row : dict pyval) (c : pystr) : pyval := get_or (dict_get row c) VNaN.

(** [df_det[c]] *)
Definition column (df : list (dict pyval)) (c : pystr) : list pyval :=
  map (fun row => cell row c) df.

(** A missing value, which [groupby] leaves out of every group. *)
Definition isna (v : pyval) : bool :=
  match v with
  | VNone | VNaN => true
  | _ => false
  end.

(** Equality of group keys. *)
Definition key_eqb (a b : pyval) : bool :=
  match a, b with
  | VStr x, VStr y => pystr_eqb x y
  | VInt x, VInt y => (x =? y)%Z
  | VBool x, VBool y => Bool.eqb x y
  | VInt x, VBool y | VBool y, VInt x => (x =? (if y then 1 else 0))%Z
  | _, _ => false
  end.

(** The keys of [df_det.groupby('order_sn')]: the distinct values of the
    column that are not missing, each once, as they first appear in the
    table.  [sorted_keys] puts them in the order in which pandas lists
    the groups. *)
Fixpoint group_keys (df : list (dict pyval)) : list pyval :=
  match df with
  | [] => []
  | row :: df' =>
      let k := cell row (lit "order_sn") in
      let ks := filter (fun k' => negb (key_eqb k k')) (group_keys df') in
      if isna k then ks else k :: ks
  end.

(** The rows of one group. *)
Definition group (df : list (dict pyval)) (k : pyval) : list (dict pyval) :=
  filter (fun row => key_eqb (cell row (lit "order_sn")) k) df.

(** The order of the group keys, as [groupby] sorts them: numbers by
    value, strings code point by code point, and the numbers of a mixed
    column before its strings. *)
Definition key_number (k : pyval) : option Z :=
  match k with
  | VInt z => Some z
  | VBool b => Some (if b then 1 else 0)%Z
  | _ => None
  end.

Definition key_ltb (a b : pyval) : bool :=
  match a, b with
  | VStr x, VStr y => str_ltb x y
  | VStr _, _ => false
  | _, VStr _ => true
  | _, _ =>
      match key_number a, key_number b with
      | Some x, Some y => (x <? y)%Z
      | _, _ => false
      end
  end.

Fixpoint insert_key (k : pyval) (l : list pyval) : list pyval :=
  match l with
  | [] => [k]
  | k' :: l' => if key_ltb k k' then k :: l else k' :: insert_key k l'
  end.

Definition sorted_keys (l : list pyval) : list pyval :=
  fold_left (fun acc k => insert_key k acc) l [].

(** The sum of a list of integers. *)
Definition zsum (l : list Z) : Z := fold_right Z.add 0%Z l.

Section Summary.
Variable U : UnicodeData.

(** [pd.to_numeric(x, errors='coerce')] on one cell, [None] for NaN.
    The strings of the detail table are [""] and the marker text, both
    NaN; a string holding a whole number is read as that number.  pandas
    converts the column as a whole, to float64 when a cell is NaN and to
    int64 otherwise: the integer given here is the converted value as
    long as it is below 2^53 in absolute value. *)
Definition to_numeric (x : pyval) : option Z :=
  match x with
  | VInt z => Some z
  | VBool b => Some (if b then 1 else 0)%Z
  | VStr s =>
      if forallb (fun c => in_range 48 57 c || N.eqb c 45) s then py_int U s else None
  | VNone | VNaN => None
  end.

(** The values of a column that are numbers. *)
Definition numbers (series : list pyval) : list Z :=
  flat_map (fun x => match to_numeric x with Some z => [z] | None => [] end) series.

(** [numeric.sum(min_count=1)], NaN when no value is a number.  The
    sum is the exact one.  It is the sum that pandas computes, in float64
    or in int64, for a column of numbers that are not negative and add
    up to less than 2^53; beyond that pandas rounds or wraps, which is
    not modelled: the general properties of the sums carry this bound. *)
Definition sum_or_blank (series : list pyval) : pyval :=
  let numeric := numbers series in
  if is_nil numeric then VStr [] else VInt (zsum numeric).

(** [int(str(x).split()[0])]; [None] when it raises. *)
Definition leading_int (x : pyval) : option Z :=
  match str_split (py_str x) with
  | tok :: _ => py_int U tok
  | [] => None
  end.

(** The lambda of [agg_map] for the column [ENC_CAPA]:
    [sum([int(str(x).split()[0]) for x in s if str(x).strip()])];
    [None] when a conversion raises. *)
Fixpoint enc_capa_agg (series : list pyval) : option Z :=
  match series with
  | [] => Some 0%Z
  | x :: series' =>
      if is_nil (strip (py_str x)) then enc_capa_agg series'
      else
        match leading_int x, enc_capa_agg series' with
        | Some n, Some t => Some (n + t)%Z
        | _, _ => None
        end
  end.

(** [agg_map[c]] applied to a series; [None] when it raises. *)
Definition agg (c : pystr) (series : list pyval) : option pyval :=
  if pystr_eqb c (lit "ENC_CAPA")
  then option_map VInt (enc_capa_agg series)
  else Some (sum_or_blank series).

(** The cell of column [c] in the summary row of order [k]. *)
Definition resumo_cell (df : list (dict pyval)) (k : pyval) (c : pystr) : option pyval :=
  agg c (column (group df k) c).

(** [nums] in the TOTAL row: the conversions that do not raise. *)
Definition total_nums (series : list pyval) : list Z :=
  flat_map (fun x => match leading_int x with Some n => [n] | None => [] end) series.

(** [total_row[c]] *)
Definition total_cell (df : list (dict pyval)) (c : pystr) : pyval :=
  if pystr_eqb c (lit "ENC_CAPA")
  then
    let nums := total_nums (column df c) in
    if is_nil nums then VStr [] else VStr (str_of_int (zsum nums) ++ lit " + C")
  else sum_or_blank (column df c).
End Summary.

(** ** [App.run_process], from the rows of the sheet to the three tables *)

(** The tables handed to the workbook writer: [ItensDetalhados] with its
    columns in order, the rows of [Resumo] for the orders, its TOTAL row,
    and [Diagnostico]. *)
Record tables := {
  df_det : list (list (pystr * pyval));
  resumo : list (list (pystr * pyval));
  total_row : list (pystr * pyval);
  diagnostico : list (pyval * diag_record)
}.

(** The values of a list of computations, [None] when one of them raises. *)
Fixpoint all_some {A} (l : list (option A)) : option (list A) :=
  match l with
  | [] => Some []
  | None :: _ => None
  | Some a :: l' => option_map (cons a) (all_some l')
  end.

Section Run.
Variable U : UnicodeData.
Variable cfg : config.

Definition detail_columns : list pystr :=
  [lit "order_sn"; lit "SKU Reference No."; lit "Variation Name"; lit "product_info"]
  ++ out_cols U cfg.

(** The row of [Resumo] for the order [k]. *)
Definition resumo_row (df : list (dict pyval)) (k : pyval) : option (list (pystr * pyval)) :=
  option_map (cons (lit "order_sn", k))
    (all_some (map (fun c => option_map (pair c) (resumo_cell U df k c)) (out_cols U cfg))).

(** A name that stands twice in a list of columns. *)
Fixpoint has_repeat (l : list pystr) : bool :=
  match l with
  | [] => false
  | x :: l' => list_in x l' || has_repeat l'
  end.

(** [None] when the run ends before anything is written: pandas raises
    outside every [try] when a column name stands twice in the detail
    table and when there is no category column, for which the
    aggregation map is empty; and an aggregation may raise.  The rows of
    [Resumo] come in the sorted order of their keys. *)
Definition run_process (rows : list order_row) : option tables :=
  let det := process_rows U cfg [] rows in
  let df := fst det in
  if is_nil (out_cols U cfg) || has_repeat detail_columns then None
  else
    match all_some (map (resumo_row df) (sorted_keys (group_keys df))) with
    | Some orders =>
        Some {| df_det := map (fun row => map (fun c => (c, cell row c)) detail_columns) df;
                resumo := orders;
                total_row :=
                  (lit "order_sn", VStr (lit "TOTAL"))
                  :: map (fun c => (c, total_cell U df c)) (out_cols U cfg);
                diagnostico := snd det |}
    | None => None
    end.
End Run.

(** ** Facts of the character database the properties rest on *)

(** The three facts of the character database that idempotence rests on:
    a text of [[a-z0-9]] is its own NFKD form and its own lower case, and
    none of these characters is a combining mark. *)
Definition az09_stable (U : UnicodeData) : Prop :=
  (forall s, forallb is_az09 s = true -> nfkd U s = s) /\
  (forall c, is_az09 c = true -> combining U c = 0%N) /\
  (forall s, forallb is_az09 s = true -> lower U s = s).

(** What [int] needs of the decimal characters to read every group that
    [\d+] captures: none of them is white space or a sign. *)
Definition digits_plain (U : UnicodeData) : Prop :=
  forall c, isdigit U c = true -> isspace c = false /\ c <> 43%N /\ c <> 45%N.

(** The two brackets are no decimal characters. *)
Definition brackets_plain (U : UnicodeData) : Prop :=
  isdigit U 91%N = false /\ isdigit U 93%N = false.

(** The ASCII digits have their usual values. *)
Definition ascii_digits (U : UnicodeData) : Prop :=
  forall c, in_range 48 57 c = true -> decimal U c = Some (c - 48)%N.

(** ** Notions of the specification *)

(** The variation calls for one of the two overrides of the resolver: its
    normal form contains "encosto" together with "capaextra" or "comcapa". *)
Definition override_applies (U : UnicodeData) (variation : pystr) : bool :=
  let v_norm := normalize_token U (VStr variation) in
  str_in (lit "encosto") v_norm &&
  (str_in (lit "capaextra") v_norm || str_in (lit "comcapa") v_norm).

(** No configured category lists the normalised SKU among its aliases. *)
Definition unmapped (cfg : config) (sku_norm : pystr) : Prop :=
  forall cat meta, In (cat, meta) (categories cfg) -> list_in sku_norm (aliases meta) = false.

Fixpoint take_while (p : codepoint -> bool) (s : pystr) : pystr :=
  match s with
  | c :: s' => if p c then c :: take_while p s' else []
  | [] => []
  end.

Fixpoint drop_while (p : codepoint -> bool) (s : pystr) : pystr :=
  match s with
  | c :: s' => if p c then drop_while p s' else s
  | [] => []
  end.

(** The run that a marker at the head of the text starts: a marker
    "[N]", then the characters up to the next "[" or the end of the text,
    of which there is at least one. *)
Definition marker_run (U : UnicodeData) (s : pystr) : option pystr :=
  match s with
  | c :: s1 =>
      if N.eqb c 91 then
        match take_while (isdigit U) s1, drop_while (isdigit U) s1 with
        | (_ :: _) as ds, c2 :: s2 =>
            if N.eqb c2 93 then
              match take_while not_lbracket s2 with
              | (_ :: _) as body => Some (c :: ds ++ c2 :: body)
              | [] => None
              end
            else None
        | _, _ => None
        end
      else None
  | [] => None
  end.

(** The maximal marker-initiated runs of a text, left to right. *)
Fixpoint marker_runs (U : UnicodeData) (s : pystr) : list pystr :=
  match s with
  | [] => []
  | _ :: s' =>
      match marker_run U s with
      | Some r => r :: marker_runs U s'
      | None => marker_runs U s'
      end
  end.

(** The text contains a marker "[N]" followed by a character other than
    "[". *)
Definition has_open_marker (U : UnicodeData) (s : pystr) : Prop :=
  exists before ds c after,
    s = before ++ 91%N :: ds ++ 93%N :: c :: after /\
    ds <> [] /\ forallb (isdigit U) ds = true /\ c <> 91%N.

(** The three kinds of cell that a category column of the detail table
    holds: blank, a number, or the marker text of a count. *)
Inductive table_cell : pyval -> Prop :=
| cell_blank : table_cell (VStr [])
| cell_number (z : Z) : table_cell (VInt z)
| cell_marker (z : Z) : table_cell (VStr (str_of_int z ++ lit " + C")).

(** The range in which float64 holds every integer, and far inside the
    interpreter's limit on numerals. *)
Definition exact_range (z : Z) : Prop := (0 <= z < 2 ^ 53)%Z.

(** A cell whose number, or whose count, is in that range. *)
Inductive small_cell : pyval -> Prop :=
| small_blank : small_cell (VStr [])
| small_number (z : Z) : exact_range z -> small_cell (VInt z)
| small_marker (z : Z) : exact_range z -> small_cell (VStr (str_of_int z ++ lit " + C")).

(** What a cell adds to a sum over its column: its leading integer, and
    nothing when it has none. *)
Definition cell_value (U : UnicodeData) (v : pyval) : Z :=
  match leading_int U v with
  | Some n => n
  | None => 0%Z
  end.

(** The sum of column [c] over the summary rows of the orders. *)
Definition summary_sum (U : UnicodeData) (df : list (dict pyval)) (c : pystr) : Z :=
  zsum (map (fun k => match resumo_cell U df k c with
                      | Some v => cell_value U v
                      | None => 0%Z
                      end) (group_keys df)).

(** ** Notions of the proofs *)

Definition is_group_node (n : node) : bool :=
  match n with
  | Open | Close => true
  | _ => false
  end.

Definition group_free (pat : pattern) : bool := forallb (fun n => negb (is_group_node n)) pat.

(** The pattern is [pre(\d+)post], with no other group. *)
Definition captures_digits (U : UnicodeData) (pat : pattern) : Prop :=
  exists pre post,
    pat = pre ++ Open :: Plus (isdigit U) :: Close :: post /\
    group_free pre = true /\ group_free post = true.

(** The value of a numeral read from its first digit on, with [acc] the
    value of the digits before it. *)
Fixpoint horner (d : uint) (acc : N) : N :=
  match d with
  | Nil => acc
  | D0 d' => horner d' (10 * acc + 0)
  | D1 d' => horner d' (10 * acc + 1)
  | D2 d' => horner d' (10 * acc + 2)
  | D3 d' => horner d' (10 * acc + 3)
  | D4 d' => horner d' (10 * acc + 4)
  | D5 d' => horner d' (10 * acc + 5)
  | D6 d' => horner d' (10 * acc + 6)
  | D7 d' => horner d' (10 * acc + 7)
  | D8 d' => horner d' (10 * acc + 8)
  | D9 d' => horner d' (10 * acc + 9)
  end.

(** Group keys no two of which are equal. *)
Fixpoint keys_apart (ks : list pyval) : Prop :=
  match ks with
  | [] => True
  | k :: ks' => (forall k', In k' ks' -> key_eqb k k' = false) /\ keys_apart ks'
  end.

(** ** Configurations and sheets of the examples *)

Definition meta_of (l : list pystr) : category_meta :=
  {| aliases := l; output_format := lit "numeric" |}.

(** One category [PR] with the alias [2promo], the default special rules. *)
Definition cfg_pr : config :=
  {| priorities := priorities default_map_dict;
     categories := [(lit "PR", meta_of [lit "2promo"])];
     enc_capa_category := Some (lit "ENC_CAPA");
     enc_base_category := Some (lit "ENC") |}.

(** The special rule names the empty category. *)
Definition cfg_blank_capa : config :=
  {| priorities := priorities default_map_dict;
     categories := [(lit "PR", meta_of [lit "2promo"])];
     enc_capa_category := Some [];
     enc_base_category := Some (lit "ENC") |}.

(** Two categories, [R70] and [ENC_CAPA], with the default special rules. *)
Definition cfg_capa : config :=
  {| priorities := priorities default_map_dict;
     categories := [(lit "R70", meta_of [lit "r70a"]);
                    (lit "ENC_CAPA", meta_of [lit "capa1"])];
     enc_capa_category := Some (lit "ENC_CAPA");
     enc_base_category := Some (lit "ENC") |}.

(** The counted-marker category is configured under another name. *)
Definition cfg_capax : config :=
  {| priorities := [lit "R70"; lit "CAPAX"];
     categories := [(lit "R70", meta_of [lit "r70a"]);
                    (lit "CAPAX", meta_of [lit "capax1"])];
     enc_capa_category := Some (lit "CAPAX");
     enc_base_category := Some (lit "ENC") |}.

(** The accumulators at the start of a row. *)
Definition no_accumulators : accumulators :=
  {| accum_numeric := []; accum_enc_capa := 0;
     per_block_variations := []; per_block_sku := []; diag_rows := [] |}.

(** Order A: four kits of two units of an [R70] item. *)
Definition row_a : order_row :=
  {| order_sn := VStr (lit "A");
     product_info :=
       VStr (lit "[1] SKU Reference No. : R70A; Variation Name : 2 u; Quantity: 4") |}.

(** Order B: two kits of an item listed under [ENC_CAPA], with the
    variation "Capa Extra". *)
Definition row_b : order_row :=
  {| order_sn := VStr (lit "B");
     product_info :=
       VStr (lit "[1] SKU Reference No. : capa1; Variation Name : Capa Extra; Quantity: 2") |}.

(** The same item under its alias of [cfg_capax]. *)
Definition row_bx : order_row :=
  {| order_sn := VStr (lit "B");
     product_info :=
       VStr (lit "[1] SKU Reference No. : capax1; Variation Name : Capa Extra; Quantity: 2") |}.

(** A row whose [order_sn] cell is blank: three units of an [R70] item. *)
Definition row_blank : order_row :=
  {| order_sn := VNaN;
     product_info := VStr (lit "[1] SKU Reference No. : R70A; Quantity: 3") |}.

(** * The category map: its file and its editor *)

From Stdlib Require Import Permutation.

(** ** [sorted(set(l))] on strings

    The distinct strings of [l] in strictly ascending order, built by
    insertion. *)
Fixpoint insert_set (x : pystr) (l : list pystr) : list pystr :=
  match l with
  | [] => [x]
  | y :: l' =>
      if str_ltb x y then x :: l
      else if pystr_eqb x y then l
      else y :: insert_set x l'
  end.

Definition sorted_set (l : list pystr) : list pystr := fold_right insert_set [] l.

(** [s.split(",")]: the pieces between the commas, empty ones included.
    [cur] is the piece being read, last character first. *)
Fixpoint split_on (sep : codepoint) (cur : pystr) (s : pystr) : list pystr :=
  match s with
  | [] => [List.rev cur]
  | c :: s' =>
      if N.eqb c sep then List.rev cur :: split_on sep [] s'
      else split_on sep (c :: cur) s'
  end.

Definition split_comma (s : pystr) : list pystr := split_on 44 [] s.

(** [k in d], [d.pop(k, None)] and the keys of a dict. *)
Definition dict_has {V} (d : dict V) (k : pystr) : bool :=
  match dict_get d k with Some _ => true | None => false end.

Fixpoint dict_remove {V} (d : dict V) (k : pystr) : dict V :=
  match d with
  | [] => []
  | (k', v) :: d' => if pystr_eqb k k' then d' else (k', v) :: dict_remove d' k
  end.

Definition keys {V} (d : dict V) : list pystr := map fst d.

(** ** The JSON document of the map file

    What [json.loads] returns when the file holds an object of the
    expected shape; each key may be absent.  An alias may be any JSON
    value: [normalize_token] turns all that is no string into [""]. *)
Record raw_meta := {
  raw_aliases : option (list pyval);
  raw_output_format : option pystr
}.

Record raw_special_rules := {
  raw_enc_capa_category : option pystr;
  raw_enc_base_category : option pystr
}.

Record raw_map := {
  raw_priorities : option (list pystr);
  raw_categories : option (list (pystr * raw_meta));
  raw_special : option raw_special_rules
}.

Section MapFile.
Variable U : UnicodeData.

(** [sorted(set([normalize_token(a) for a in aliases]))] *)
Definition normalize_aliases (l : list pyval) : list pystr :=
  sorted_set (map (normalize_token U) l).

Definition load_meta (m : raw_meta) : category_meta :=
  {| aliases := normalize_aliases (get_or (raw_aliases m) []);
     output_format := get_or (raw_output_format m) (lit "numeric") |}.

(** [load_map_file], from what the file holds: [None] when there is no
    file, or when reading it raises, which both give the default map. *)
Definition load_map_file (file : option raw_map) : config :=
  match file with
  | None => default_map_dict
  | Some data =>
      {| priorities := get_or (raw_priorities data) (priorities default_map_dict);
         categories :=
           map (fun cm => (fst cm, load_meta (snd cm))) (get_or (raw_categories data) []);
         enc_capa_category :=
           match raw_special data with
           | Some sr => raw_enc_capa_category sr
           | None => enc_capa_category default_map_dict
           end;
         enc_base_category :=
           match raw_special data with
           | Some sr => raw_enc_base_category sr
           | None => enc_base_category default_map_dict
           end |}
  end.

Definition save_meta (m : category_meta) : category_meta :=
  {| aliases := normalize_aliases (map VStr (aliases m));
     output_format := output_format m |}.

(** What [save_map_file] does to the dictionary it is given, which is
    the map in memory: once the directory is there ([dir_ok]) every alias
    list is normalised in place, before the file is written; when
    [mkdir] raises nothing is touched. *)
Definition save_map_file (dir_ok : bool) (data : config) : config :=
  if dir_ok
  then {| priorities := priorities data;
          categories := map (fun cm => (fst cm, save_meta (snd cm))) (categories data);
          enc_capa_category := enc_capa_category data;
          enc_base_category := enc_base_category data |}
  else data.

(** The document that [json.dumps] writes for a map and [json.loads]
    reads back: every key present. *)
Definition written (data : config) : raw_map :=
  {| raw_priorities := Some (priorities data);
     raw_categories :=
       Some (map (fun cm => (fst cm,
                             {| raw_aliases := Some (map VStr (aliases (snd cm)));
                                raw_output_format := Some (output_format (snd cm)) |}))
               (categories data));
     raw_special :=
       Some {| raw_enc_capa_category := enc_capa_category data;
               raw_enc_base_category := enc_base_category data |} |}.

(** ** The editor

    The handlers of [App] as functions of the map in memory and of what
    the user answers: the selected line of the list ([None] when nothing
    is selected), the text of a dialog ([None] when it is cancelled).
    Message boxes and the redrawing of the list are left out. *)

(** [[normalize_token(x) for x in s.split(",") if x.strip()]], sorted
    into a set. *)
Definition parse_aliases (s : pystr) : list pystr :=
  sorted_set
    (map (fun x => normalize_token U (VStr x))
       (filter (fun x => negb (is_nil (strip x))) (split_comma s))).

(** The list that [_refresh_list] shows. *)
Definition refresh_list (cfg : config) : list pystr :=
  let cats := sorted_by_lower U (keys (categories cfg)) in
  let prios := filter (fun c => list_in c cats) (priorities cfg) in
  let others := filter (fun c => negb (list_in c prios)) cats in
  prios ++ others.

Definition add_category_dialog (dir_ok : bool) (cfg : config)
    (name_answer aliases_answer : option pystr) : config :=
  match name_answer with
  | None => cfg
  | Some name0 =>
      let name := strip name0 in
      if is_nil name then cfg
      else if dict_has (categories cfg) name then cfg
      else
        let aliases :=
          match aliases_answer with
          | Some s => if is_nil s then [] else parse_aliases s
          | None => []
          end in
        save_map_file dir_ok
          {| priorities := priorities cfg;
             categories :=
               dict_set (categories cfg) name
                 {| aliases := aliases; output_format := lit "numeric" |};
             enc_capa_category := enc_capa_category cfg;
             enc_base_category := enc_base_category cfg |}
  end.

(** When [old] is no key, [pop] raises and the map stays as it was. *)
Definition edit_category_dialog (dir_ok : bool) (cfg : config)
    (selection answer : option pystr) : config :=
  match selection, answer with
  | Some old, Some new0 =>
      let new := strip new0 in
      if is_nil new || pystr_eqb new old then cfg
      else if dict_has (categories cfg) new then cfg
      else
        match dict_get (categories cfg) old with
        | None => cfg
        | Some meta =>
            save_map_file dir_ok
              {| priorities :=
                   map (fun p => if pystr_eqb p old then new else p) (priorities cfg);
                 categories := dict_set (dict_remove (categories cfg) old) new meta;
                 enc_capa_category := enc_capa_category cfg;
                 enc_base_category := enc_base_category cfg |}
        end
  | _, _ => cfg
  end.

Definition remove_category (dir_ok : bool) (cfg : config)
    (selection : option pystr) (confirmed : bool) : config :=
  match selection with
  | Some cat =>
      if confirmed
      then save_map_file dir_ok
             {| priorities := filter (fun p => negb (pystr_eqb p cat)) (priorities cfg);
                categories := dict_remove (categories cfg) cat;
                enc_capa_category := enc_capa_category cfg;
                enc_base_category := enc_base_category cfg |}
      else cfg
  | None => cfg
  end.

(** [text] is what the alias box holds. *)
Definition save_aliases (dir_ok : bool) (cfg : config)
    (selection : option pystr) (text : pystr) : config :=
  match selection with
  | Some cat =>
      let aliases := parse_aliases (strip text) in
      let cats :=
        if dict_has (categories cfg) cat then categories cfg
        else dict_set (categories cfg) cat
               {| aliases := []; output_format := lit "numeric" |} in
      let cats :=
        match dict_get cats cat with
        | Some meta =>
            dict_set cats cat {| aliases := aliases; output_format := output_format meta |}
        | None => cats
        end in
      save_map_file dir_ok
        {| priorities := priorities cfg;
           categories := cats;
           enc_capa_category := enc_capa_category cfg;
           enc_base_category := enc_base_category cfg |}
  | None => cfg
  end.
End MapFile.

(** ** Notions for the map *)

(** A list of strings in strictly ascending order. *)
Fixpoint ascending (l : list pystr) : Prop :=
  match l with
  | [] => True
  | x :: l' => (forall y, In y l' -> str_ltb x y = true) /\ ascending l'
  end.

(** Every alias list of the map is as [load_map_file] makes it: made of
    normal forms, in strictly ascending order. *)
Definition normal_map (cfg : config) : Prop :=
  forall cat meta,
    In (cat, meta) (categories cfg) ->
    ascending (aliases meta) /\
    Forall (fun a => forallb is_az09 a = true) (aliases meta).

(** The normalised SKU is among the aliases of some category. *)
Definition mapped (cats : list (pystr * category_meta)) (sku_norm : pystr) : Prop :=
  exists cat meta, In (cat, meta) cats /\ list_in sku_norm (aliases meta) = true.

(** One category with aliases written in three spellings. *)
Definition raw_promo : raw_map :=
  {| raw_priorities := None;
     raw_categories :=
       Some [(lit "PR",
              {| raw_aliases := Some [VStr (lit "4 Promo"); VStr (lit "2-PROMO");
                                      VStr (lit "2promo"); VInt 7];
                 raw_output_format := None |})];
     raw_special := None |}.

(** * The detail row against its blocks *)

Section Blocks.
Variable U : UnicodeData.
Variable cfg : config.

(** What [compute_outputs_single_item] returns for a block, as the loop
    of [run_process] calls it. *)
Definition block_item (blk : list N) : list (list N * output) * diag_record :=
  compute_outputs_single_item U
    (fst (extract_sku_and_var_from_text U (VStr blk)))
    (snd (extract_sku_and_var_from_text U (VStr blk)))
    (extract_quantity_from_text U (VStr blk) (Some 1%Z)) cfg.

(** The units that a list of outputs gives to the column [c]. *)
Definition units_of (c : list N) (outs : list (list N * output)) : list Z :=
  flat_map (fun o => match o_type (snd o) with
                     | numeric => if pystr_eqb (fst o) c then [o_value (snd o)] else []
                     | enc_capa => []
                     end) outs.

(** The kits that a list of outputs counts with a cover. *)
Definition counted_of (outs : list (list N * output)) : list Z :=
  flat_map (fun o => match o_type (snd o) with
                     | numeric => []
                     | enc_capa => [o_value (snd o)]
                     end) outs.

Definition units_in (c : list N) (blocks : list (list N)) : list Z :=
  flat_map (fun blk => units_of c (fst (block_item blk))) blocks.

Definition counted_in (blocks : list (list N)) : Z :=
  zsum (flat_map (fun blk => counted_of (fst (block_item blk))) blocks).

(** The cell of a category column as the blocks of the row determine it. *)
Definition expected_cell (c : list N) (blocks : list (list N)) : pyval :=
  if pystr_eqb c (lit "ENC_CAPA") && (counted_in blocks >? 0)%Z
  then VStr (str_of_int (counted_in blocks) ++ lit " + C")
  else if is_nil (units_in c blocks) then VStr []
       else VInt (zsum (units_in c blocks)).
End Blocks.

(** ** Notions for the run *)

(** The code points of ASCII. *)
Definition is_ascii (c : N) : bool := (c <? 128)%N.

(** What the properties of ASCII texts need of the character database: an
    ASCII text is its own NFKD form, and [str.lower] lowers it character
    by character. *)
Definition ascii_plain (U : UnicodeData) : Prop :=
  forall s, forallb is_ascii s = true -> nfkd U s = s /\ lower U s = map (tolower U) s.

(** The value of column [c] over the rows of the detail table that have
    no order number, which are in no group. *)
Definition unkeyed_sum (U : UnicodeData) (df : list (dict pyval)) (c : list N) : Z :=
  zsum (map (fun row => cell_value U (cell row c))
          (filter (fun row => isna (cell row (lit "order_sn"))) df)).

(** A blank or a number. *)
Definition plain_cell (v : pyval) : Prop := v = VStr [] \/ exists z, v = VInt z.

(** The units and the kits of a block, of the blocks of a sheet row and
    of a sheet, added up: every number and every count of the tables is
    a sum of some of them. *)
Definition block_units (U : UnicodeData) (cfg : config) (blk : list N) : Z :=
  (unidades (snd (block_item U cfg blk)) + kits_purchased (snd (block_item U cfg blk)))%Z.

Definition row_units (U : UnicodeData) (cfg : config) (r : order_row) : Z :=
  zsum (map (block_units U cfg) (split_blocks U (product_info r))).

Definition sheet_units (U : UnicodeData) (cfg : config) (rows : list order_row) : Z :=
  zsum (map (row_units U cfg) rows).



(** The character before the cursor once [g] is read. *)
Definition last_read (g : list N) (pv : option N) : option N :=
  match List.rev g with
  | c :: _ => Some c
  | [] => pv
  end.



(** ** The alias box

    [on_select_category]: the text put in the alias box when a line of
    the list is selected, [", ".join(aliases)]; the box is emptied when
    nothing is selected. *)
Definition on_select_category (cfg : config) (selection : option (list N)) : list N :=
  match selection with
  | Some cat =>
      join (lit ", ")
        (match dict_get (categories cfg) cat with
         | Some meta => aliases meta
         | None => []
         end)
  | None => []
  end.


(** The lower case of an ASCII character. *)
Definition ascii_lower (c : N) : N := if in_range 65 90 c then (c + 32)%N else c.

(** The entries of the character database for ASCII: [re] and
    [str.lower] lower the capitals and leave the rest, and no ASCII
    character is a combining mark. *)
Definition ascii_tables (U : UnicodeData) : Prop :=
  forall c, is_ascii c = true -> tolower U c = ascii_lower c /\ combining U c = 0%N.


(** The first state that the engine reaches from [st] through [pat]:
    the one that [match_at] takes. *)
Definition leads (pat : list node) (st st' : mstate) : Prop :=
  exists others, run pat st = st' :: others.

(** The node of a character of a literal piece under IGNORECASE. *)
Definition literal_node (U : UnicodeData) (c : N) : node :=
  if is_ascii_letter c then Chr (ichr U c) else Chr (N.eqb c).
(** * Properties *)

(** ** Strings and dictionaries *)

Lemma pystr_eqb_refl (a : pystr) : pystr_eqb a a = true.
Proof.
  induction a as [|x a IH]; simpl; [reflexivity|].
  now rewrite N.eqb_refl, IH.
Qed.

Lemma pystr_eqb_eq (a b : pystr) : pystr_eqb a b = true <-> a = b.
Proof.
  split; [|intros ->; apply pystr_eqb_refl].
  revert b; induction a as [|x a IH]; intros [|y b]; simpl; try easy.
  rewrite andb_true_iff, N.eqb_eq. intros [-> H]. f_equal. now apply IH.
Qed.

Lemma dict_get_set_same {V} (d : dict V) (k : pystr) (v : V) :
  dict_get (dict_set d k v) k = Some v.
Proof.
  induction d as [|[k' v'] d IH]; simpl.
  - now rewrite pystr_eqb_refl.
  - destruct (pystr_eqb k k') eqn:E; simpl; rewrite E; [reflexivity|exact IH].
Qed.

Lemma dict_get_set_other {V} (d : dict V) (k k' : pystr) (v : V) :
  pystr_eqb k' k = false -> dict_get (dict_set d k v) k' = dict_get d k'.
Proof.
  intros Hk. induction d as [|[k0 v0] d IH]; simpl.
  - now rewrite Hk.
  - destruct (pystr_eqb k k0) eqn:E; simpl.
    + apply pystr_eqb_eq in E. subst k0. now rewrite Hk.
    + now rewrite IH.
Qed.

Lemma starts_with_all (p : codepoint -> bool) (needle hay : pystr) :
  starts_with needle hay = true -> forallb p hay = true -> forallb p needle = true.
Proof.
  revert hay; induction needle as [|x n IH]; intros [|y h]; simpl; try easy.
  rewrite !andb_true_iff, N.eqb_eq. intros [-> H1] [H2 H3]. eauto.
Qed.

(** A string found inside a text made of characters of a class is made
    of characters of that class. *)
Lemma str_in_all (p : codepoint -> bool) (needle hay : pystr) :
  str_in needle hay = true -> forallb p hay = true -> forallb p needle = true.
Proof.
  induction hay as [|y h IH]; simpl.
  - rewrite orb_false_r. intros H _. destruct needle; [reflexivity|discriminate].
  - rewrite orb_true_iff, andb_true_iff. intros [H|H] [H1 H2].
    + apply (starts_with_all p _ _ H). simpl. now rewrite H1, H2.
    + now apply IH.
Qed.

(** ** TextNormalizer *)

Lemma filter_all {A} (p : A -> bool) (l : list A) : forallb p (filter p l) = true.
Proof.
  induction l as [|x l IH]; simpl; [reflexivity|].
  destruct (p x) eqn:E; simpl; [now rewrite E|exact IH].
Qed.

Lemma filter_id {A} (p : A -> bool) (l : list A) : forallb p l = true -> filter p l = l.
Proof.
  induction l as [|x l IH]; simpl; [reflexivity|].
  rewrite andb_true_iff. intros [-> H]. now rewrite IH.
Qed.

Lemma forallb_imp {A} (p q : A -> bool) (l : list A) :
  (forall x, p x = true -> q x = true) -> forallb p l = true -> forallb q l = true.
Proof.
  intros H. induction l as [|x l IH]; simpl; [reflexivity|].
  rewrite !andb_true_iff. intros [H1 H2]. auto.
Qed.

Lemma az09_not_space (c : codepoint) : is_az09 c = true -> negb (isspace c) = true.
Proof.
  unfold is_az09, isspace, in_range. intros H.
  rewrite negb_true_iff.
  repeat rewrite orb_false_iff.
  repeat rewrite andb_false_iff.
  repeat rewrite N.leb_gt.
  repeat rewrite N.eqb_neq.
  rewrite orb_true_iff, !andb_true_iff, !N.leb_le in H.
  repeat split; lia.
Qed.

(** The output of [normalize_token] holds only characters of [[a-z0-9]],
    whatever the character database. *)
Lemma normalize_token_az09 (U : UnicodeData) (v : pyval) :
  forallb is_az09 (normalize_token U v) = true.
Proof.
  destruct v; simpl; try reflexivity. apply filter_all.
Qed.

Lemma normalize_token_fixed (U : UnicodeData) (s : pystr) :
  az09_stable U -> forallb is_az09 s = true -> normalize_token U (VStr s) = s.
Proof.
  intros (Hn & Hc & Hl) Hs. simpl. unfold strip_accents.
  rewrite (Hn s Hs).
  rewrite (filter_id (fun c => N.eqb (combining U c) 0) s).
  - rewrite (Hl s Hs). unfold remove_spaces, keep_az09.
    rewrite (filter_id (fun c => negb (isspace c)) s).
    + now apply filter_id.
    + revert Hs. apply forallb_imp. apply az09_not_space.
  - revert Hs. apply forallb_imp. intros c Hcz. rewrite (Hc c Hcz). reflexivity.
Qed.

Lemma latin1_az09_stable : az09_stable latin1.
Proof.
  assert (Hlow : forall c, is_az09 c = true -> (c <? 160)%N = true /\
                                               in_range 65 90 c = false /\
                                               in_range 192 222 c = false /\
                                               (c =? 807)%N = false /\
                                               in_range 768 772 c = false /\
                                               (c =? 776)%N = false /\
                                               (c =? 778)%N = false).
  { intros c. unfold is_az09, in_range.
    rewrite orb_true_iff, !andb_true_iff, !N.leb_le, N.ltb_lt.
    rewrite !andb_false_iff, !N.leb_gt, !N.eqb_neq. intros H.
    repeat split; lia. }
  repeat split.
  - intros s. induction s as [|c s IH]; simpl; [reflexivity|].
    rewrite andb_true_iff. intros [Hc Hs]. simpl in IH. rewrite (IH Hs).
    unfold latin1_decomposition. destruct (Hlow c Hc) as (-> & _). reflexivity.
  - intros c Hc. simpl. unfold latin1_combining.
    destruct (Hlow c Hc) as (_ & _ & _ & -> & -> & -> & ->). reflexivity.
  - intros s. induction s as [|c s IH]; simpl; [reflexivity|].
    rewrite andb_true_iff. intros [Hc Hs]. simpl in IH. rewrite (IH Hs).
    unfold latin1_tolower. destruct (Hlow c Hc) as (_ & -> & -> & _). reflexivity.
Qed.

(** C9. [normalize_token] is idempotent, on strings and on other values;
    its output holds only characters of [[a-z0-9]]; a value that is no
    string, and the empty string, give the empty key. *)
Theorem normalize_token_idempotent (U : UnicodeData) (H : az09_stable U) :
  forall x : pyval,
    normalize_token U (VStr (normalize_token U x)) = normalize_token U x /\
    forallb is_az09 (normalize_token U x) = true /\
    normalize_token U VNone = [] /\
    normalize_token U VNaN = [] /\
    (forall b, normalize_token U (VBool b) = []) /\
    (forall z, normalize_token U (VInt z) = []) /\
    normalize_token U (VStr []) = [].
Proof.
  intros x. repeat split; try reflexivity.
  - apply normalize_token_fixed; [exact H|apply normalize_token_az09].
  - apply normalize_token_az09.
  - now apply normalize_token_fixed.
Qed.

(** The example of the specification, [normalize("Caf<U+00E9> 2")] against
    [normalize("cafe  2")], both the key [cafe2]. *)
Lemma normalize_token_idempotent_witness :
  az09_stable latin1 /\
  normalize_token latin1 (VStr [67; 97; 102; 233; 32; 50]%N) = lit "cafe2" /\
  normalize_token latin1 (VStr (lit "cafe  2")) = lit "cafe2" /\
  normalize_token latin1 (VStr (normalize_token latin1 (VStr [67; 97; 102; 233; 32; 50]%N)))
  = normalize_token latin1 (VStr [67; 97; 102; 233; 32; 50]%N).
Proof.
  split; [exact latin1_az09_stable|].
  split; [reflexivity|].
  split; [reflexivity|].
  exact (proj1 (normalize_token_idempotent latin1 latin1_az09_stable
                  (VStr [67; 97; 102; 233; 32; 50]%N))).
Defined.

(** ** CategoryResolver *)

(** The normal form of a text never contains "+capa": it holds no "+". *)
Lemma plus_capa_absent (U : UnicodeData) (v : pyval) :
  str_in (lit "+capa") (normalize_token U v) = false.
Proof.
  destruct (str_in (lit "+capa") (normalize_token U v)) eqn:E; [|reflexivity].
  apply (str_in_all is_az09) in E; [discriminate E|apply normalize_token_az09].
Qed.

(** C5. A variation whose normal form contains "encosto" and "capaextra"
    resolves to [enc_capa_category], whatever the category of the alias
    table: in [compute_category_from_variation] for every initial
    category, and in the item's diagnostic record for every SKU. *)
Theorem capa_extra_overrides (U : UnicodeData) (variation : pystr) :
  str_in (lit "encosto") (normalize_token U (VStr variation)) = true ->
  str_in (lit "capaextra") (normalize_token U (VStr variation)) = true ->
  (forall initial capa base,
      compute_category_from_variation U initial variation capa base = capa) /\
  (forall sku qty cfg,
      category (snd (compute_outputs_single_item U sku variation qty cfg))
      = get_or (enc_capa_category cfg) (lit "ENC_CAPA")).
Proof.
  intros He Hc.
  assert (G : forall initial capa base,
             compute_category_from_variation U initial variation capa base = capa).
  { intros. unfold compute_category_from_variation. now rewrite He, Hc. }
  split; [exact G|].
  intros. unfold compute_outputs_single_item. cbn [snd category]. apply G.
Qed.

(** The SKU [2Promo], an alias of [PR], with the variation
    "Encosto + Capa Extra" resolves to [ENC_CAPA]. *)
Lemma capa_extra_overrides_witness :
  initial_category (normalize_token latin1 (VStr (lit "2Promo"))) (categories cfg_pr) = lit "PR" /\
  category (snd (compute_outputs_single_item latin1 (lit "2Promo")
                   (lit "Encosto + Capa Extra") 1 cfg_pr)) = lit "ENC_CAPA".
Proof.
  split; [reflexivity|].
  exact (proj2 (capa_extra_overrides latin1 (lit "Encosto + Capa Extra")
                  eq_refl eq_refl) (lit "2Promo") 1%Z cfg_pr).
Defined.

(** C1. The test for "+capa" is made on the normal form, which holds no
    "+": it fails for every text, so only "comcapa" reaches the second
    override.  The variation "Encosto + Capa" on a SKU of [PR] keeps the
    category [PR], where "Encosto com Capa" moves it to [ENC]. *)
Theorem encosto_plus_capa_keeps_category :
  (forall U v, str_in (lit "+capa") (normalize_token U v) = false) /\
  normalize_token latin1 (VStr (lit "Encosto + Capa")) = lit "encostocapa" /\
  compute_category_from_variation latin1 (lit "PR") (lit "Encosto + Capa")
    (lit "ENC_CAPA") (lit "ENC") = lit "PR" /\
  category (snd (compute_outputs_single_item latin1 (lit "2Promo")
                   (lit "Encosto + Capa") 1 cfg_pr)) = lit "PR" /\
  compute_category_from_variation latin1 (lit "PR") (lit "Encosto com Capa")
    (lit "ENC_CAPA") (lit "ENC") = lit "ENC".
Proof.
  split; [exact plus_capa_absent|].
  repeat split; reflexivity.
Qed.

(** ** ItemQuantifier *)

(** C6, where the claim fails: with the empty name as
    [enc_capa_category], an item resolved to that category whose variation
    holds "capaextra" has no output at all. *)
Lemma empty_capa_category_no_output :
  pystr_eqb
    (category (snd (compute_outputs_single_item latin1 (lit "X1")
                      (lit "Encosto Capa Extra") 3 cfg_blank_capa)))
    (get_or (enc_capa_category cfg_blank_capa) (lit "ENC_CAPA")) = true /\
  str_in (lit "capaextra") (normalize_token latin1 (VStr (lit "Encosto Capa Extra"))) = true /\
  fst (compute_outputs_single_item latin1 (lit "X1")
         (lit "Encosto Capa Extra") 3 cfg_blank_capa) = [].
Proof.
  repeat split; reflexivity.
Qed.

(** C6, amended. An item with a non-empty resolved category has exactly
    one output, under that category: a counted marker [enc_capa] worth
    [kits_purchased] when the category is [enc_capa_category] and the
    normal form of the variation holds "capaextra", else a [numeric]
    output worth [unidades].  [kits_purchased] is the block quantity, 1
    when it is zero, and [unidades] is [kit_qty * kits_purchased]. *)
Theorem quantify_output (U : UnicodeData) (sku variation : pystr) (qty : Z) (cfg : config) :
  let r := compute_outputs_single_item U sku variation qty cfg in
  let d := snd r in
  let counted :=
    pystr_eqb (category d) (get_or (enc_capa_category cfg) (lit "ENC_CAPA"))
    && str_in (lit "capaextra") (normalize_token U (VStr variation)) in
  category d <> [] ->
  fst r = [(category d,
            if counted
            then {| o_type := enc_capa; o_value := kits_purchased d |}
            else {| o_type := numeric; o_value := unidades d |})] /\
  kits_purchased d = (if (qty =? 0)%Z then 1 else qty)%Z /\
  unidades d = (kit_qty d * kits_purchased d)%Z.
Proof.
  intros r d counted Hne.
  unfold counted, d, r in *. clear r d counted.
  unfold compute_outputs_single_item in *. cbn [fst snd category kits_purchased unidades kit_qty] in *.
  set (cat := compute_category_from_variation U _ _ _ _) in *.
  repeat split.
  - destruct cat as [|c cat']; [now elim Hne|]. cbn [truthy is_nil negb].
    destruct (pystr_eqb (c :: cat') _ && _); reflexivity.
  - simpl. destruct (qty =? 0)%Z; reflexivity.
Qed.

(** Three kits of a two-unit item under [ENC_CAPA] count 3, not 6; the
    same item under [PR] counts its 6 units. *)
Lemma quantify_output_witness :
  fst (compute_outputs_single_item latin1 (lit "2Promo") (lit "Encosto 2 + Capa Extra") 3 cfg_pr)
  = [(lit "ENC_CAPA", {| o_type := enc_capa; o_value := 3 |})] /\
  fst (compute_outputs_single_item latin1 (lit "2Promo") (lit "Kit 2") 3 cfg_pr)
  = [(lit "PR", {| o_type := numeric; o_value := 6 |})].
Proof.
  split.
  - refine (proj1 (quantify_output latin1 (lit "2Promo") (lit "Encosto 2 + Capa Extra") 3 cfg_pr _)).
    vm_compute. discriminate.
  - refine (proj1 (quantify_output latin1 (lit "2Promo") (lit "Kit 2") 3 cfg_pr _)).
    vm_compute. discriminate.
Defined.

(** ** Unmapped SKUs *)

Lemma initial_category_unmapped (cfg : config) (n : pystr) :
  unmapped cfg n -> initial_category n (categories cfg) = [].
Proof.
  unfold unmapped. induction (categories cfg) as [|[cat meta] l IH]; intros H; simpl.
  - reflexivity.
  - rewrite (H cat meta (or_introl eq_refl)). apply IH.
    intros c m Hin. apply (H c m). now right.
Qed.

Lemma no_override_keeps (U : UnicodeData) (initial variation capa base : pystr) :
  override_applies U variation = false ->
  compute_category_from_variation U initial variation capa base = initial.
Proof.
  unfold override_applies, compute_category_from_variation.
  rewrite plus_capa_absent, orb_false_r.
  destruct (str_in (lit "encosto") _); [|reflexivity].
  cbn [andb]. rewrite orb_false_iff. intros [-> ->]. reflexivity.
Qed.

(** C8, where the claim fails: a SKU that no category lists, with the
    variation "Encosto + Capa Extra", resolves to [ENC_CAPA] and has an
    output. *)
Lemma unmapped_sku_overridden :
  unmapped cfg_pr (normalize_token latin1 (VStr (lit "ZZ9"))) /\
  category (snd (compute_outputs_single_item latin1 (lit "ZZ9")
                   (lit "Encosto + Capa Extra") 2 cfg_pr)) = lit "ENC_CAPA" /\
  fst (compute_outputs_single_item latin1 (lit "ZZ9")
         (lit "Encosto + Capa Extra") 2 cfg_pr)
  = [(lit "ENC_CAPA", {| o_type := enc_capa; o_value := 2 |})].
Proof.
  split; [|split; reflexivity].
  intros cat meta [H|[]]. inversion H. reflexivity.
Qed.

(** C8, amended. An item whose normalised SKU is in no alias set, and
    whose variation calls for no override, resolves to the empty
    category and has no output; the block it comes from leaves both
    accumulators of its order as they were and adds exactly one
    diagnostic row, of category [""]. *)
Theorem unmapped_item_only_diagnosed
    (U : UnicodeData) (cfg : config) (sku variation : pystr) :
  unmapped cfg (normalize_token U (VStr sku)) ->
  override_applies U variation = false ->
  (forall qty,
      category (snd (compute_outputs_single_item U sku variation qty cfg)) = [] /\
      fst (compute_outputs_single_item U sku variation qty cfg) = []) /\
  (forall order a blk,
      extract_sku_and_var_from_text U (VStr blk) = (sku, variation) ->
      accum_numeric (process_block U cfg order a blk) = accum_numeric a /\
      accum_enc_capa (process_block U cfg order a blk) = accum_enc_capa a /\
      exists d,
        diag_rows (process_block U cfg order a blk) = diag_rows a ++ [(order, d)] /\
        category d = [] /\ sku_raw d = sku /\ variation_seen d = variation).
Proof.
  intros Hun Hov.
  assert (Hcat : forall qty,
             category (snd (compute_outputs_single_item U sku variation qty cfg)) = []).
  { intros qty. unfold compute_outputs_single_item. cbn [snd category].
    rewrite (no_override_keeps U _ variation _ _ Hov).
    now apply initial_category_unmapped. }
  assert (Hout : forall qty,
             fst (compute_outputs_single_item U sku variation qty cfg) = []).
  { intros qty. specialize (Hcat qty).
    unfold compute_outputs_single_item in *. cbn [fst snd category] in *.
    now rewrite Hcat. }
  split; [intros qty; split; [apply Hcat|apply Hout]|].
  intros order a blk Hex. unfold process_block. rewrite Hex. cbn [fst snd].
  rewrite Hout. cbn [fold_left fst snd accum_numeric accum_enc_capa diag_rows].
  repeat split.
  eexists. split; [reflexivity|]. split; [apply Hcat|]. split; reflexivity.
Qed.

(** A block with the SKU [ZZ9], which [cfg_pr] does not list. *)
Lemma unmapped_item_only_diagnosed_witness :
  fst (compute_outputs_single_item latin1 (lit "ZZ9") (lit "Azul") 2 cfg_pr) = [] /\
  accum_numeric
    (process_block latin1 cfg_pr (VStr (lit "A")) no_accumulators
       (lit "[1] SKU Reference No. : ZZ9; Variation Name : Azul; Quantity: 2")) = [] /\
  length (diag_rows
    (process_block latin1 cfg_pr (VStr (lit "A")) no_accumulators
       (lit "[1] SKU Reference No. : ZZ9; Variation Name : Azul; Quantity: 2"))) = 1%nat.
Proof.
  assert (Hun : unmapped cfg_pr (normalize_token latin1 (VStr (lit "ZZ9")))).
  { intros cat meta [H|[]]. inversion H. reflexivity. }
  pose proof (unmapped_item_only_diagnosed latin1 cfg_pr (lit "ZZ9") (lit "Azul")
                Hun eq_refl) as [H1 H2].
  split; [exact (proj2 (H1 2%Z))|].
  destruct (H2 (VStr (lit "A")) no_accumulators
              (lit "[1] SKU Reference No. : ZZ9; Variation Name : Azul; Quantity: 2")
              eq_refl) as (Ha & _ & d & Hd & _).
  split; [exact Ha|].
  rewrite Hd. reflexivity.
Defined.

(** ** The matcher *)

Lemma flat_map_singleton {A} (l : list A) : flat_map (fun x => [x]) l = l.
Proof.
  induction l as [|x l IH]; simpl; [reflexivity|now rewrite IH].
Qed.

Lemma flat_map_flat_map {A B C} (f : A -> list B) (g : B -> list C) (l : list A) :
  flat_map g (flat_map f l) = flat_map (fun x => flat_map g (f x)) l.
Proof.
  induction l as [|x l IH]; simpl; [reflexivity|].
  now rewrite flat_map_app, IH.
Qed.

Lemma run_app (a b : pattern) (st : mstate) :
  run (a ++ b) st = flat_map (run b) (run a st).
Proof.
  revert st; induction a as [|n a IH]; intros st; simpl.
  - now rewrite app_nil_r.
  - rewrite flat_map_flat_map. apply flat_map_ext. intros x. apply IH.
Qed.

(** Every cursor of a greedy repetition is behind a run of the class. *)
Lemma greedy_split (p : codepoint -> bool) (s : pystr) :
  forall pv pv' s', In (pv', s') (greedy p pv s) ->
    exists g, s = g ++ s' /\ forallb p g = true.
Proof.
  induction s as [|c s IH]; intros pv pv' s' Hin; simpl in Hin.
  - destruct Hin as [H|[]]. inversion H. now exists [].
  - destruct (p c) eqn:E.
    + apply in_app_or in Hin. destruct Hin as [Hin|[H|[]]].
      * destruct (IH _ _ _ Hin) as (g & -> & Hg).
        exists (c :: g). simpl. now rewrite E, Hg.
      * inversion H. now exists [].
    + destruct Hin as [H|[]]. inversion H. now exists [].
Qed.

Lemma run_node_keeps (n : node) (st st' : mstate) :
  is_group_node n = false -> In st' (run_node n st) ->
  mark st' = mark st /\ grp st' = grp st.
Proof.
  intros Hn Hin. destruct n; simpl in Hn, Hin; try discriminate.
  - destruct (rest st) as [|c s]; [easy|].
    destruct (p c); [|easy]. destruct Hin as [<-|[]]. now split.
  - apply in_map_iff in Hin. destruct Hin as (q & <- & _). now split.
  - destruct (rest st) as [|c s]; [easy|].
    destruct (p c); [|easy].
    apply in_map_iff in Hin. destruct Hin as (q & <- & _). now split.
  - destruct (rest st) as [|c s].
    + destruct Hin as [<-|[]]. now split.
    + destruct (p c).
      * destruct Hin as [<-|[<-|[]]]; now split.
      * destruct Hin as [<-|[]]. now split.
  - destruct (prev st); [easy|]. destruct Hin as [<-|[]]. now split.
  - destruct (xorb _ _); [|easy]. destruct Hin as [<-|[]]. now split.
Qed.

Lemma run_keeps (pat : pattern) :
  group_free pat = true ->
  forall st st', In st' (run pat st) -> mark st' = mark st /\ grp st' = grp st.
Proof.
  induction pat as [|n pat IH]; intros Hf st st' Hin; simpl in *.
  - destruct Hin as [<-|[]]. now split.
  - apply andb_true_iff in Hf. destruct Hf as [Hn Hf].
    apply in_flat_map in Hin. destruct Hin as (st1 & H1 & H2).
    apply negb_true_iff in Hn.
    destruct (run_node_keeps _ _ _ Hn H1) as [<- <-]. now apply IH.
Qed.

Lemma firstn_consumed {A} (g s : list A) :
  firstn (length (g ++ s) - length s) (g ++ s) = g.
Proof.
  rewrite length_app, Nat.add_sub.
  rewrite firstn_app, firstn_all, Nat.sub_diag. simpl. apply app_nil_r.
Qed.

(** What the group of [(c+)] holds after a match: a run of the class,
    with at least one character. *)
Lemma group_of_plus (p : codepoint -> bool) (post : pattern) (st st' : mstate) :
  group_free post = true ->
  In st' (run (Open :: Plus p :: Close :: post) st) ->
  exists g, grp st' = Some g /\ g <> [] /\ forallb p g = true.
Proof.
  intros Hf Hin. simpl in Hin. rewrite app_nil_r in Hin.
  apply in_flat_map in Hin. destruct Hin as (st1 & H1 & H2).
  destruct (rest st) as [|c s] eqn:Er; [easy|].
  destruct (p c) eqn:Ec; [|easy].
  apply in_map_iff in H1. destruct H1 as ([pv s'] & <- & Hq).
  destruct (greedy_split _ _ _ _ _ Hq) as (g & -> & Hg).
  simpl in H2. rewrite app_nil_r in H2.
  destruct (run_keeps _ Hf _ _ H2) as [_ ->]. cbn [grp].
  exists (c :: g). repeat split.
  - f_equal. exact (firstn_consumed (c :: g) s').
  - discriminate.
  - simpl. now rewrite Ec, Hg.
Qed.

Lemma match_at_state (pat : pattern) (pv : option codepoint) (s : pystr) (m : rematch) :
  match_at pat pv s = Some m ->
  exists st, In st (run pat {| prev := pv; rest := s; mark := None; grp := None |}) /\
             group1 m = grp st.
Proof.
  unfold match_at. destruct (run pat _) as [|st l]; [discriminate|].
  intros H. inversion H. exists st. split; [now left|reflexivity].
Qed.

Lemma search_from_match (pat : pattern) (s : pystr) :
  forall pv m, search_from pat pv s = Some m ->
    exists pv' s', match_at pat pv' s' = Some m.
Proof.
  induction s as [|c s IH]; intros pv m; simpl.
  - destruct (match_at pat pv []) eqn:E; [|discriminate].
    intros H. inversion H. subst. eauto.
  - destruct (match_at pat pv (c :: s)) eqn:E.
    + intros H. inversion H. subst. eauto.
    + apply IH.
Qed.

(** A match of a pattern [pre(\d+)post] has a group, of decimal digits. *)
Lemma search_captures_digits (U : UnicodeData) (pat : pattern) (s : pystr) (m : rematch) :
  captures_digits U pat -> search pat s = Some m ->
  exists g, group1 m = Some g /\ g <> [] /\ forallb (isdigit U) g = true.
Proof.
  intros (pre & post & -> & Hpre & Hpost) Hs.
  destruct (search_from_match _ _ _ _ Hs) as (pv & s' & Hm).
  destruct (match_at_state _ _ _ _ Hm) as (st & Hin & ->).
  rewrite run_app in Hin. apply in_flat_map in Hin. destruct Hin as (st1 & _ & H2).
  exact (group_of_plus _ _ _ _ Hpost H2).
Qed.

Lemma QTD_PATTERNS_capture (U : UnicodeData) (pat : pattern) :
  In pat (QTD_PATTERNS U) -> captures_digits U pat.
Proof.
  intros [<-|[<-|[<-|[<-|[<-|[]]]]]].
  - exists (ilits U "Quantity:" ++ [Star isspace]), []. repeat split.
  - exists (Chr (N.eqb 34) :: ilits U "Quantity" ++
            [Chr (N.eqb 34); Star isspace; Chr colon_or_eq; Star isspace; Opt (N.eqb 34)]),
      [Opt (N.eqb 34)]. repeat split.
  - exists (WordB (isword U) :: ilits U "qty" ++
            [Star isspace; Chr colon_or_eq; Star isspace]), []. repeat split.
  - exists (WordB (isword U) :: ilits U "quantity" ++
            [Star isspace; Chr colon_or_eq; Star isspace]), []. repeat split.
  - exists [Bol; Star isspace; Chr (N.eqb 91)], [Chr (N.eqb 93); Chr isspace]. repeat split.
Qed.

(** ** Quantity extraction *)

Lemma strip_plain (g : pystr) :
  (forall c, In c g -> isspace c = false) -> strip g = g.
Proof.
  intros H. unfold strip, rstrip.
  assert (Hl : forall s, (forall c, In c s -> isspace c = false) -> lstrip s = s).
  { intros [|c s] Hs; simpl; [reflexivity|].
    now rewrite (Hs c (or_introl eq_refl)). }
  rewrite (Hl g H), Hl; [apply rev_involutive|].
  intros c Hc. apply H. now apply in_rev.
Qed.

Lemma int_digits_total (U : UnicodeData) (s : pystr) :
  forallb (isdigit U) s = true -> forall acc, exists n, int_digits U acc s = Some n.
Proof.
  induction s as [|c s IH]; simpl; intros H acc; [eauto|].
  apply andb_true_iff in H. destruct H as [Hc Hs].
  unfold isdigit in Hc. destruct (decimal U c) as [d|]; [apply IH, Hs|discriminate].
Qed.

Lemma digit_count_digits (U : UnicodeData) (g : pystr) :
  forallb (isdigit U) g = true -> digit_count U g = length g.
Proof.
  intros Hg. unfold digit_count. now rewrite filter_id.
Qed.

(** [int] reads every non-empty run of decimal digits that is within the
    interpreter's limit. *)
Lemma py_int_digits (U : UnicodeData) (g : pystr) :
  digits_plain U -> g <> [] -> forallb (isdigit U) g = true ->
  (length g <= int_max_str_digits)%nat ->
  exists n, py_int U g = Some (Z.of_N n).
Proof.
  intros HU Hne Hg Hlen. unfold py_int.
  rewrite (digit_count_digits U g Hg).
  apply Nat.ltb_ge in Hlen. rewrite Hlen.
  rewrite strip_plain.
  - destruct g as [|c g]; [now elim Hne|].
    simpl in Hg. apply andb_true_iff in Hg. destruct Hg as [Hc Hg].
    destruct (HU c Hc) as (_ & H43 & H45).
    apply N.eqb_neq in H43, H45. rewrite H43, H45.
    unfold int_unsigned. unfold isdigit in Hc.
    destruct (decimal U c) as [d|]; [|discriminate].
    destruct (int_digits_total U g Hg d) as (n & ->). now exists n.
  - intros c Hc. rewrite forallb_forall in Hg. exact (proj1 (HU c (Hg c Hc))).
Qed.

(** Beyond the limit [int] raises. *)
Lemma py_int_oversized (U : UnicodeData) (g : pystr) :
  forallb (isdigit U) g = true -> (int_max_str_digits < length g)%nat ->
  py_int U g = None.
Proof.
  intros Hg Hlen. unfold py_int. rewrite (digit_count_digits U g Hg).
  apply Nat.ltb_lt in Hlen. now rewrite Hlen.
Qed.

(** What [int] reads from a run of decimal digits is not negative. *)
Lemma py_int_digits_nonneg (U : UnicodeData) (g : pystr) (z : Z) :
  digits_plain U -> g <> [] -> forallb (isdigit U) g = true ->
  py_int U g = Some z -> (0 <= z)%Z.
Proof.
  intros HU Hne Hg Hz.
  destruct (Nat.le_gt_cases (length g) int_max_str_digits) as [Hlen|Hlen].
  - destruct (py_int_digits U g HU Hne Hg Hlen) as (n & Hn).
    rewrite Hn in Hz. inversion Hz. lia.
  - rewrite (py_int_oversized U g Hg Hlen) in Hz. discriminate.
Qed.

Lemma first_quantity_skip (U : UnicodeData) (text : pystr) (pre l : list pattern) :
  (forall p, In p pre -> search p text = None) ->
  first_quantity U (pre ++ l) text = first_quantity U l text.
Proof.
  induction pre as [|p pre IH]; intros H; simpl; [reflexivity|].
  rewrite (H p (or_introl eq_refl)). apply IH. intros q Hq. apply H. now right.
Qed.

(** C7, where the claim fails: the first pattern matches "Quantity:"
    with a numeral of 4301 digits, which [int] refuses; the loop goes on
    and the result is the 9 of "qty=9", the third pattern, or the
    default 1 when nothing follows: not the integer of the first
    match. *)
Lemma oversized_first_match_skipped :
  option_map group1
    (search (nth 0 (QTD_PATTERNS latin1) [])
       (lit "Quantity: " ++ repeat 49%N (S int_max_str_digits) ++ lit " qty=9"))
  = Some (Some (repeat 49%N (S int_max_str_digits))) /\
  extract_quantity_from_text latin1
    (VStr (lit "Quantity: " ++ repeat 49%N (S int_max_str_digits) ++ lit " qty=9")) None
  = 9%Z /\
  extract_quantity_from_text latin1
    (VStr (lit "Quantity: " ++ repeat 49%N (S int_max_str_digits))) None
  = 1%Z.
Proof.
  repeat split; vm_compute; reflexivity.
Qed.

(** C7, amended.  [extract_quantity_from_text] reads the patterns in the
    order of [QTD_PATTERNS].  The first pattern that matches captures a
    numeral; when the numeral is within the interpreter's limit the
    result is the integer it denotes, whatever the later patterns would
    match; when it is longer, [int] raises and the loop goes on with the
    patterns that follow.  When no pattern matches, and when the text is
    no string, the result is the fallback, 1 by default and in the call
    of [run_process].  The five patterns are the labelled "Quantity: N",
    the quoted "Quantity"="N", [qty=N], [quantity=N] and a leading
    "[N] ", in this order: a block with "Quantity: 5" and "qty=9"
    yields 5. *)
Theorem extract_quantity_first_match (U : UnicodeData) (HU : digits_plain U) :
  (forall text pre pat post m,
      QTD_PATTERNS U = pre ++ pat :: post ->
      (forall p, In p pre -> search p text = None) ->
      search pat text = Some m ->
      forall fallback, exists g,
        group1 m = Some g /\ g <> [] /\ forallb (isdigit U) g = true /\
        ((length g <= int_max_str_digits)%nat ->
         exists n, py_int U g = Some n /\
                   extract_quantity_from_text U (VStr text) fallback = n) /\
        ((int_max_str_digits < length g)%nat ->
         py_int U g = None /\
         extract_quantity_from_text U (VStr text) fallback
         = match first_quantity U post text with
           | Some n => n
           | None => match fallback with None => 1%Z | Some f => f end
           end)) /\
  (forall text,
      (forall p, In p (QTD_PATTERNS U) -> search p text = None) ->
      extract_quantity_from_text U (VStr text) None = 1%Z /\
      extract_quantity_from_text U (VStr text) (Some 1%Z) = 1%Z) /\
  (forall fallback,
      let default := match fallback with None => 1%Z | Some f => f end in
      extract_quantity_from_text U VNone fallback = default /\
      extract_quantity_from_text U VNaN fallback = default /\
      (forall b, extract_quantity_from_text U (VBool b) fallback = default) /\
      (forall z, extract_quantity_from_text U (VInt z) fallback = default)) /\
  (extract_quantity_from_text latin1 (VStr (lit "Quantity: 5")) None = 5%Z /\
   extract_quantity_from_text latin1
     (VStr (34%N :: lit "Quantity" ++ 34%N :: lit "=" ++ 34%N :: lit "3" ++ [34%N])) None
   = 3%Z /\
   extract_quantity_from_text latin1 (VStr (lit "qty=9")) None = 9%Z /\
   extract_quantity_from_text latin1 (VStr (lit "quantity = 4")) None = 4%Z /\
   extract_quantity_from_text latin1 (VStr (lit "[7] x")) None = 7%Z /\
   extract_quantity_from_text latin1 (VStr (lit "Quantity: 5 qty=9")) None = 5%Z /\
   extract_quantity_from_text latin1 (VStr (lit "qty=9 Quantity: 5")) None = 5%Z /\
   extract_quantity_from_text latin1 (VStr (lit "[7] quantity = 4 qty=9")) None = 9%Z /\
   extract_quantity_from_text latin1 (VStr (lit "seven")) None = 1%Z).
Proof.
  split; [|split; [|split; [|repeat split; vm_compute; reflexivity]]].
  - intros text pre pat post m Hq Hpre Hm fallback.
    assert (Hin : In pat (QTD_PATTERNS U)) by (rewrite Hq; apply in_elt).
    destruct (search_captures_digits U pat text m (QTD_PATTERNS_capture U pat Hin) Hm)
      as (g & Hg & Hne & Hd).
    exists g. split; [exact Hg|]. split; [exact Hne|]. split; [exact Hd|].
    assert (Hfirst : first_quantity U (QTD_PATTERNS U) text
                     = match py_int U g with
                       | Some n => Some n
                       | None => first_quantity U post text
                       end).
    { rewrite Hq, (first_quantity_skip U text pre (pat :: post) Hpre).
      cbn [first_quantity]. rewrite Hm. unfold int_of_group. now rewrite Hg. }
    unfold extract_quantity_from_text. rewrite Hfirst. split.
    + intros Hlen. destruct (py_int_digits U g HU Hne Hd Hlen) as (n & Hn).
      exists (Z.of_N n). now rewrite Hn.
    + intros Hlen. rewrite (py_int_oversized U g Hd Hlen). now split.
  - intros text H. unfold extract_quantity_from_text.
    replace (QTD_PATTERNS U) with (QTD_PATTERNS U ++ []) by apply app_nil_r.
    now rewrite (first_quantity_skip U text (QTD_PATTERNS U) [] H).
  - intros fallback. repeat split.
Qed.

Lemma latin1_digits_plain : digits_plain latin1.
Proof.
  intros c. unfold isdigit. simpl. unfold latin1_decimal.
  destruct (in_range 48 57 c) eqn:E; [|discriminate]. intros _.
  unfold in_range in E. rewrite andb_true_iff, !N.leb_le in E.
  unfold isspace, in_range.
  repeat rewrite orb_false_iff.
  repeat rewrite andb_false_iff.
  repeat rewrite N.leb_gt.
  repeat rewrite N.eqb_neq.
  repeat split; lia.
Qed.

(** A block with "Quantity: 5" and "qty=9" yields 5: the labelled form
    is the first pattern, [qty=N] the third. *)
Lemma extract_quantity_first_match_witness :
  digits_plain latin1 /\
  search (nth 0 (QTD_PATTERNS latin1) [])
    (lit "[1] SKU Reference No. : ABC; Quantity: 5 qty=9") <> None /\
  search (nth 2 (QTD_PATTERNS latin1) [])
    (lit "[1] SKU Reference No. : ABC; Quantity: 5 qty=9") <> None /\
  extract_quantity_from_text latin1
    (VStr (lit "[1] SKU Reference No. : ABC; Quantity: 5 qty=9")) None = 5%Z.
Proof.
  split; [exact latin1_digits_plain|].
  split; [vm_compute; discriminate|].
  split; [vm_compute; discriminate|].
  destruct (proj1 (extract_quantity_first_match latin1 latin1_digits_plain)
              (lit "[1] SKU Reference No. : ABC; Quantity: 5 qty=9")
              [] (nth 0 (QTD_PATTERNS latin1) []) (tl (QTD_PATTERNS latin1))
              {| group0 := lit "Quantity: 5"; group1 := Some (lit "5"); after := lit " qty=9" |}
              eq_refl (fun p (H : In p []) => match H with end) eq_refl None)
    as (g & Hg & _ & _ & Hsmall & _).
  inversion Hg. subst g.
  destruct Hsmall as (n & Hn & Hr); [apply Nat.leb_le; reflexivity|].
  rewrite Hr. vm_compute in Hn. now inversion Hn.
Defined.

(** ** BlockSplitter *)

Lemma take_drop_while (p : codepoint -> bool) (s : pystr) :
  take_while p s ++ drop_while p s = s.
Proof.
  induction s as [|c s IH]; simpl; [reflexivity|].
  destruct (p c); simpl; [now rewrite IH|reflexivity].
Qed.

Lemma take_while_all (p : codepoint -> bool) (s : pystr) :
  forallb p (take_while p s) = true.
Proof.
  induction s as [|c s IH]; simpl; [reflexivity|].
  destruct (p c) eqn:E; simpl; [now rewrite E|reflexivity].
Qed.

(** The first cursor of a greedy repetition is behind the whole run of
    the class; at every other cursor a character of the class follows. *)
Lemma greedy_shape (p : codepoint -> bool) (s : pystr) :
  forall pv, exists pv' tail,
    greedy p pv s = (pv', drop_while p s) :: tail /\
    forall q, In q tail -> exists c r, snd q = c :: r /\ p c = true.
Proof.
  induction s as [|c s IH]; intros pv; simpl.
  - exists pv, []. split; [reflexivity|intros q []].
  - destruct (p c) eqn:E.
    + destruct (IH (Some c)) as (pv' & tail & -> & Ht).
      exists pv', (tail ++ [(pv, c :: s)]). split; [reflexivity|].
      intros q Hq. apply in_app_or in Hq. destruct Hq as [Hq|[<-|[]]]; [now apply Ht|].
      now exists c, s.
    + exists pv, []. split; [reflexivity|intros q []].
Qed.

(** Cursors before a character that the next node refuses lead nowhere. *)
Lemma dead_cursors (st : mstate) (p q0 : codepoint -> bool) (pat : pattern)
    (tail : list (option codepoint * pystr)) :
  (forall c, p c = true -> q0 c = false) ->
  (forall q, In q tail -> exists c r, snd q = c :: r /\ p c = true) ->
  flat_map (run (Chr q0 :: pat)) (map (fun q => move st (fst q) (snd q)) tail) = [].
Proof.
  intros Hpq. induction tail as [|q tail IH]; intros Ht; simpl; [reflexivity|].
  destruct (Ht q (or_introl eq_refl)) as (c & r & -> & Hc).
  rewrite (Hpq c Hc). simpl. apply IH. intros q' Hq'. apply Ht. now right.
Qed.

(** The two nodes of [BLOCK_RE], unfolded. *)
Lemma run_Chr (p : codepoint -> bool) (pat : pattern) (st : mstate) :
  run (Chr p :: pat) st =
  match rest st with
  | c :: s' => if p c then run pat (move st (Some c) s') else []
  | [] => []
  end.
Proof.
  simpl. destruct (rest st) as [|c s']; [reflexivity|].
  destruct (p c); simpl; [apply app_nil_r|reflexivity].
Qed.

Lemma run_Plus (p : codepoint -> bool) (pat : pattern) (st : mstate) :
  run (Plus p :: pat) st =
  match rest st with
  | c :: s' =>
      if p c
      then flat_map (run pat) (map (fun q => move st (fst q) (snd q)) (greedy p (Some c) s'))
      else []
  | [] => []
  end.
Proof.
  simpl. destruct (rest st) as [|c s']; [reflexivity|].
  destruct (p c); reflexivity.
Qed.

Lemma firstn_prefix {A} (g t s : list A) :
  s = g ++ t -> firstn (length s - length t) s = g.
Proof.
  intros ->. apply firstn_consumed.
Qed.

(** The match of [BLOCK_RE] at the cursor is the marker run that starts
    there. *)
Lemma match_at_BLOCK_RE (U : UnicodeData) (pv : option codepoint) (s : pystr) :
  brackets_plain U ->
  option_map group0 (match_at (BLOCK_RE U) pv s) = marker_run U s.
Proof.
  intros [_ H93]. unfold match_at, BLOCK_RE, marker_run.
  rewrite run_Chr. cbn [rest].
  destruct s as [|c s1]; [reflexivity|].
  rewrite (N.eqb_sym 91 c). destruct (N.eqb c 91) eqn:Ec; [|reflexivity].
  rewrite run_Plus. cbn [rest move].
  destruct s1 as [|c1 s1']; [reflexivity|].
  cbn [take_while drop_while].
  destruct (isdigit U c1) eqn:Ed; [|reflexivity].
  destruct (greedy_shape (isdigit U) s1' (Some c1)) as (pv1 & tail & -> & Ht).
  cbn [map flat_map fst snd].
  rewrite (dead_cursors _ (isdigit U) (N.eqb 93) [Plus not_lbracket] tail).
  2:{ intros x Hx. destruct (N.eqb 93 x) eqn:E; [|reflexivity].
      apply N.eqb_eq in E. subst x. congruence. }
  2:{ exact Ht. }
  rewrite app_nil_r, run_Chr. cbn [rest move].
  pose proof (take_drop_while (isdigit U) s1') as Hs1.
  destruct (drop_while (isdigit U) s1') as [|c2 s2] eqn:Er.
  { destruct (take_while (isdigit U) s1'); reflexivity. }
  rewrite (N.eqb_sym 93 c2). destruct (N.eqb c2 93) eqn:Ec2; [|reflexivity].
  rewrite run_Plus. cbn [rest move].
  destruct s2 as [|c3 s3]; [reflexivity|].
  cbn [take_while].
  destruct (not_lbracket c3) eqn:En; [|reflexivity].
  destruct (greedy_shape not_lbracket s3 (Some c3)) as (pv3 & tail3 & -> & _).
  cbn [map flat_map run fst snd move rest List.app option_map group0].
  f_equal.
  pose proof (take_drop_while not_lbracket s3) as Hs3.
  apply (firstn_prefix
           (c :: c1 :: take_while (isdigit U) s1' ++ c2 :: c3 :: take_while not_lbracket s3)
           (drop_while not_lbracket s3)).
  simpl. f_equal. f_equal. rewrite <- app_assoc. simpl.
  rewrite Hs3. symmetry. exact Hs1.
Qed.

Lemma drop_while_head (p : codepoint -> bool) (s : pystr) (c : codepoint) (r : pystr) :
  drop_while p s = c :: r -> p c = false.
Proof.
  induction s as [|x s IH]; simpl; [discriminate|].
  destruct (p x) eqn:E; [exact IH|]. intros H. inversion H. now subst.
Qed.

(** The shape of a marker run: the marker, a body without "[", and then
    the end of the text or a "[". *)
Lemma marker_run_shape (U : UnicodeData) (s r : pystr) :
  marker_run U s = Some r ->
  exists ds body rest',
    r = 91%N :: ds ++ 93%N :: body /\ s = r ++ rest' /\
    ds <> [] /\ forallb (isdigit U) ds = true /\
    body <> [] /\ forallb not_lbracket body = true /\
    (rest' = [] \/ exists t, rest' = 91%N :: t).
Proof.
  unfold marker_run. destruct s as [|c s1]; [discriminate|].
  destruct (N.eqb c 91) eqn:Ec; [|discriminate]. apply N.eqb_eq in Ec. subst c.
  pose proof (take_drop_while (isdigit U) s1) as Hs1.
  pose proof (take_while_all (isdigit U) s1) as Hd.
  destruct (take_while (isdigit U) s1) as [|d ds] eqn:Et; [discriminate|].
  destruct (drop_while (isdigit U) s1) as [|c2 s2] eqn:Er; [discriminate|].
  destruct (N.eqb c2 93) eqn:Ec2; [|discriminate]. apply N.eqb_eq in Ec2. subst c2.
  pose proof (take_drop_while not_lbracket s2) as Hs2.
  pose proof (take_while_all not_lbracket s2) as Hb.
  destruct (take_while not_lbracket s2) as [|b body] eqn:Eb; [discriminate|].
  intros H. inversion H. subst r. clear H.
  exists (d :: ds), (b :: body), (drop_while not_lbracket s2).
  repeat split; try assumption; try discriminate.
  - rewrite <- Hs1, <- Hs2 at 1. simpl. rewrite <- !app_assoc. reflexivity.
  - destruct (drop_while not_lbracket s2) as [|x t] eqn:Ex; [now left|right].
    apply drop_while_head in Ex. unfold not_lbracket in Ex.
    apply negb_false_iff, N.eqb_eq in Ex. subst x. now exists t.
Qed.

Lemma marker_run_needs_bracket (U : UnicodeData) (c : codepoint) (s : pystr) :
  not_lbracket c = true -> marker_run U (c :: s) = None.
Proof.
  unfold not_lbracket, marker_run. intros H. apply negb_true_iff in H. now rewrite H.
Qed.

(** [BLOCK_RE.findall] lists the marker runs: inside a run no other one
    starts, so the search that resumes after a match misses none. *)
Lemma findall_from_marker_runs (U : UnicodeData) (HU : brackets_plain U) (s : pystr) :
  forall skip pv,
    forallb not_lbracket (firstn skip s) = true ->
    findall_from (BLOCK_RE U) skip pv s = marker_runs U s.
Proof.
  induction s as [|c s IH]; intros skip pv Hskip.
  - destruct skip; simpl; [|reflexivity].
    pose proof (match_at_BLOCK_RE U pv [] HU) as Hm.
    destruct (match_at (BLOCK_RE U) pv []); [discriminate Hm|reflexivity].
  - destruct skip as [|k].
    + pose proof (match_at_BLOCK_RE U pv (c :: s) HU) as Hm.
      cbn [findall_from marker_runs].
      destruct (match_at (BLOCK_RE U) pv (c :: s)) as [m|]; cbn [option_map] in Hm; rewrite <- Hm.
      * f_equal. apply IH.
        symmetry in Hm.
        destruct (marker_run_shape U _ _ Hm)
          as (ds & body & rest' & Hr & Hs & _ & Hds & _ & Hbody & _).
        rewrite Hr in Hs. simpl in Hs. inversion Hs as [[Hc Hs']].
        rewrite Hr. simpl. rewrite Nat.sub_0_r.
        rewrite <- app_assoc. simpl.
        replace (ds ++ 93%N :: body ++ rest') with ((ds ++ 93%N :: body) ++ rest')
          by (rewrite <- app_assoc; reflexivity).
        rewrite firstn_app, firstn_all, Nat.sub_diag. simpl. rewrite app_nil_r.
        rewrite forallb_app. cbn [forallb].
        apply andb_true_iff. split; [|apply andb_true_iff; split; [reflexivity|exact Hbody]].
        revert Hds. apply forallb_imp. intros x Hx. unfold not_lbracket.
        destruct (N.eqb x 91) eqn:E; [|reflexivity].
        apply N.eqb_eq in E. subst x. destruct HU as [H91 _]. congruence.
      * apply IH. reflexivity.
    + simpl in Hskip. apply andb_true_iff in Hskip. destruct Hskip as [Hc Hk].
      cbn [findall_from marker_runs].
      rewrite (marker_run_needs_bracket U c s Hc). now apply IH.
Qed.

Lemma findall_BLOCK_RE (U : UnicodeData) (HU : brackets_plain U) (s : pystr) :
  findall (BLOCK_RE U) s = marker_runs U s.
Proof.
  unfold findall. now apply findall_from_marker_runs.
Qed.

(** A prefix in which no marker run starts adds no run. *)
Lemma marker_runs_prefix (U : UnicodeData) (pre rest : pystr) :
  (forall i, (i < length pre)%nat -> marker_run U (skipn i (pre ++ rest)) = None) ->
  marker_runs U (pre ++ rest) = marker_runs U rest.
Proof.
  induction pre as [|c pre IH]; intros H; [reflexivity|].
  cbn [List.app marker_runs].
  pose proof (H 0%nat) as H0. cbn [skipn List.app] in H0.
  rewrite H0 by (simpl; lia). apply IH.
  intros i Hi. apply (H (S i)). simpl. lia.
Qed.

Lemma marker_runs_in (U : UnicodeData) (s r : pystr) :
  In r (marker_runs U s) -> exists t, marker_run U t = Some r.
Proof.
  induction s as [|c s IH]; cbn [marker_runs]; [easy|].
  destruct (marker_run U (c :: s)) as [r'|] eqn:E; [|exact IH].
  intros [<-|Hin]; [eauto|now apply IH].
Qed.

Lemma marker_runs_where (U : UnicodeData) (s r : pystr) :
  In r (marker_runs U s) ->
  exists before t, s = before ++ t /\ marker_run U t = Some r.
Proof.
  induction s as [|c s IH]; cbn [marker_runs]; [easy|].
  assert (Hlater : In r (marker_runs U s) ->
                   exists before t, c :: s = before ++ t /\ marker_run U t = Some r).
  { intros Hin. destruct (IH Hin) as (b & t & -> & Ht). now exists (c :: b), t. }
  destruct (marker_run U (c :: s)) as [r'|] eqn:E; [|exact Hlater].
  intros [<-|Hin]; [|now apply Hlater]. now exists [], (c :: s).
Qed.

Lemma take_drop_stop (p : codepoint -> bool) (ds : pystr) (c : codepoint) (t : pystr) :
  forallb p ds = true -> p c = false ->
  take_while p (ds ++ c :: t) = ds /\ drop_while p (ds ++ c :: t) = c :: t.
Proof.
  intros Hds Hc. induction ds as [|d ds IH]; simpl.
  - now rewrite Hc.
  - simpl in Hds. apply andb_true_iff in Hds. destruct Hds as [Hd Hds].
    rewrite Hd. destruct (IH Hds) as [-> ->]. now split.
Qed.

Lemma open_marker_run (U : UnicodeData) (s : pystr) :
  brackets_plain U -> has_open_marker U s -> marker_runs U s <> [].
Proof.
  intros [_ H93] (before & ds & c & after & -> & Hne & Hds & Hc).
  induction before as [|x before IH].
  - cbn [List.app marker_runs]. unfold marker_run. rewrite N.eqb_refl.
    destruct (take_drop_stop (isdigit U) ds 93%N (c :: after) Hds H93) as [-> ->].
    destruct ds as [|d ds]; [now elim Hne|]. rewrite N.eqb_refl.
    cbn [take_while]. unfold not_lbracket at 1.
    apply N.eqb_neq in Hc. rewrite Hc. discriminate.
  - cbn [List.app marker_runs].
    destruct (marker_run U (x :: before ++ 91%N :: ds ++ 93%N :: c :: after));
      [discriminate|exact IH].
Qed.

(** C10, where the claim fails: a text whose only marker stands at its
    end is one block, the whole text, and the fields before the marker
    are read. *)
Lemma trailing_marker_whole_text :
  str_in (lit "[1]") (lit "SKU Reference No. : ABC; Quantity: 2 [1]") = true /\
  split_blocks latin1 (VStr (lit "SKU Reference No. : ABC; Quantity: 2 [1]"))
  = [lit "SKU Reference No. : ABC; Quantity: 2 [1]"] /\
  extract_sku_and_var_from_text latin1
    (VStr (lit "SKU Reference No. : ABC; Quantity: 2 [1]")) = (lit "ABC", []) /\
  extract_quantity_from_text latin1
    (VStr (lit "SKU Reference No. : ABC; Quantity: 2 [1]")) (Some 1%Z) = 2%Z.
Proof.
  repeat split; reflexivity.
Qed.

(** C10, amended. When the text contains a marker "[N]" followed by a
    character other than "[", its blocks are exactly the marker runs:
    each is a marker, then the characters up to the next "[" or the end
    of the text, at least one; and a prefix of the text in which no run
    starts belongs to no block: the blocks are those of the text without
    it, and so are the sums, the SKUs, the variations and the diagnostic
    rows that the loop over the blocks accumulates. *)
Theorem blocks_are_marker_runs (U : UnicodeData) (HU : brackets_plain U) (s : pystr) :
  has_open_marker U s ->
  split_blocks U (VStr s) = marker_runs U s /\
  (forall r, In r (split_blocks U (VStr s)) ->
     exists before ds body later,
       s = before ++ r ++ later /\
       r = 91%N :: ds ++ 93%N :: body /\
       ds <> [] /\ forallb (isdigit U) ds = true /\
       body <> [] /\ forallb not_lbracket body = true /\
       (later = [] \/ exists t, later = 91%N :: t)) /\
  (forall pre rest,
     s = pre ++ rest ->
     (forall i, (i < length pre)%nat -> marker_run U (skipn i s) = None) ->
     split_blocks U (VStr s) = split_blocks U (VStr rest) /\
     forall cfg order a,
       fold_left (process_block U cfg order) (split_blocks U (VStr s)) a
       = fold_left (process_block U cfg order) (split_blocks U (VStr rest)) a).
Proof.
  intros Hopen. pose proof (open_marker_run U s HU Hopen) as Hne.
  assert (Hs : split_blocks U (VStr s) = marker_runs U s).
  { unfold split_blocks. rewrite (findall_BLOCK_RE U HU).
    destruct (marker_runs U s); [now elim Hne|reflexivity]. }
  split; [exact Hs|]. split.
  - rewrite Hs. intros r Hr.
    destruct (marker_runs_where U s r Hr) as (before & t & -> & Ht).
    destruct (marker_run_shape U t r Ht) as (ds & body & later & H1 & -> & H2).
    exists before, ds, body, later. split; [reflexivity|]. split; [exact H1|exact H2].
  - intros pre rest -> Hpre.
    assert (Hr : split_blocks U (VStr (pre ++ rest)) = split_blocks U (VStr rest)).
    { rewrite Hs. rewrite (marker_runs_prefix U pre rest Hpre) in *.
      unfold split_blocks. rewrite (findall_BLOCK_RE U HU).
      destruct (marker_runs U rest); [now elim Hne|reflexivity]. }
    split; [exact Hr|]. intros cfg order a. now rewrite Hr.
Qed.

Lemma latin1_brackets_plain : brackets_plain latin1.
Proof.
  split; reflexivity.
Qed.

(** The example of the specification, after a field that precedes the
    first marker: two blocks, and the field in neither. *)
Lemma blocks_are_marker_runs_witness :
  has_open_marker latin1
    (lit "SKU Reference No. : OLD; [1] SKU Reference No. : ABC; Quantity: 2 [2] SKU Reference No. : DEF; Quantity: 3") /\
  split_blocks latin1
    (VStr (lit "SKU Reference No. : OLD; [1] SKU Reference No. : ABC; Quantity: 2 [2] SKU Reference No. : DEF; Quantity: 3"))
  = [lit "[1] SKU Reference No. : ABC; Quantity: 2 ";
     lit "[2] SKU Reference No. : DEF; Quantity: 3"].
Proof.
  assert (H : has_open_marker latin1
    (lit "SKU Reference No. : OLD; [1] SKU Reference No. : ABC; Quantity: 2 [2] SKU Reference No. : DEF; Quantity: 3")).
  { exists (lit "SKU Reference No. : OLD; "), (lit "1"), 32%N,
      (lit "SKU Reference No. : ABC; Quantity: 2 [2] SKU Reference No. : DEF; Quantity: 3").
    repeat split; [discriminate|discriminate]. }
  split; [exact H|].
  rewrite (proj1 (blocks_are_marker_runs latin1 latin1_brackets_plain _ H)).
  reflexivity.
Defined.

(** ** The summary and the TOTAL row *)

(** In every summary row the cell of the column [ENC_CAPA] is an
    integer, never a text, unless the lambda raises. *)
Lemma resumo_enc_capa_is_int (U : UnicodeData) (df : list (dict pyval)) (k : pyval) :
  exists z : option Z, resumo_cell U df k (lit "ENC_CAPA") = option_map VInt z.
Proof.
  unfold resumo_cell, agg. rewrite pystr_eqb_refl. eauto.
Qed.

(** C2. Order B has one counted-marker detail cell, "2 + C", and order A
    has none.  The summary row of B holds the integer 2, not the text
    "2 + C", and the summary row of A holds the integer 0, not the empty
    cell; the TOTAL row does render "2 + C".  In every table the summary
    cell of the column is an integer. *)
Theorem resumo_enc_capa_bare_integer :
  column (detail_rows latin1 cfg_capa [row_a; row_b]) (lit "ENC_CAPA")
  = [VStr []; VStr (lit "2 + C")] /\
  resumo_cell latin1 (detail_rows latin1 cfg_capa [row_a; row_b])
    (VStr (lit "B")) (lit "ENC_CAPA") = Some (VInt 2) /\
  resumo_cell latin1 (detail_rows latin1 cfg_capa [row_a; row_b])
    (VStr (lit "A")) (lit "ENC_CAPA") = Some (VInt 0) /\
  total_cell latin1 (detail_rows latin1 cfg_capa [row_a; row_b]) (lit "ENC_CAPA")
  = VStr (lit "2 + C") /\
  option_map resumo (run_process latin1 cfg_capa [row_a; row_b])
  = Some [ [(lit "order_sn", VStr (lit "A")); (lit "R70", VInt 8); (lit "ENC_CAPA", VInt 0)];
           [(lit "order_sn", VStr (lit "B")); (lit "R70", VStr []); (lit "ENC_CAPA", VInt 2)] ] /\
  option_map total_row (run_process latin1 cfg_capa [row_a; row_b])
  = Some [(lit "order_sn", VStr (lit "TOTAL")); (lit "R70", VInt 8);
          (lit "ENC_CAPA", VStr (lit "2 + C"))] /\
  (forall U df k,
      exists z : option Z, resumo_cell U df k (lit "ENC_CAPA") = option_map VInt z).
Proof.
  repeat split; try (vm_compute; reflexivity).
  exact resumo_enc_capa_is_int.
Qed.

(** The marker text goes under the key "ENC_CAPA", whatever the
    configuration names as [enc_capa_category]. *)
Lemma marker_under_fixed_key (U : UnicodeData) (cfg : config) (r : order_row) (a : accumulators) :
  (accum_enc_capa a > 0)%Z ->
  dict_get (detail_row U cfg r a) (lit "ENC_CAPA")
  = Some (VStr (str_of_int (accum_enc_capa a) ++ lit " + C")).
Proof.
  intros H. unfold detail_row.
  apply Z.gtb_gt in H. rewrite H. apply dict_get_set_same.
Qed.

(** C3. With [enc_capa_category] configured as "CAPAX", order B counts
    two kits for it; its detail row leaves the column [CAPAX] empty and
    holds "2 + C" under the key "ENC_CAPA", which is no column of the
    table: the count is in none of the tables of the run. *)
Theorem marker_misses_configured_column :
  enc_capa_category cfg_capax = Some (lit "CAPAX") /\
  out_cols latin1 cfg_capax = [lit "R70"; lit "CAPAX"] /\
  accum_enc_capa
    (fold_left (process_block latin1 cfg_capax (order_sn row_bx))
       (split_blocks latin1 (product_info row_bx)) no_accumulators) = 2%Z /\
  column (detail_rows latin1 cfg_capax [row_bx]) (lit "CAPAX") = [VStr []] /\
  map (fun row => dict_get row (lit "ENC_CAPA")) (detail_rows latin1 cfg_capax [row_bx])
  = [Some (VStr (lit "2 + C"))] /\
  option_map (fun t => map (fun row => (dict_get row (lit "CAPAX"),
                                       dict_get row (lit "ENC_CAPA"))) (df_det t))
    (run_process latin1 cfg_capax [row_bx])
  = Some [(Some (VStr []), None)] /\
  option_map resumo (run_process latin1 cfg_capax [row_bx])
  = Some [ [(lit "order_sn", VStr (lit "B")); (lit "R70", VStr []); (lit "CAPAX", VStr [])] ] /\
  option_map total_row (run_process latin1 cfg_capax [row_bx])
  = Some [(lit "order_sn", VStr (lit "TOTAL")); (lit "R70", VStr []); (lit "CAPAX", VStr [])].
Proof.
  repeat split; vm_compute; reflexivity.
Qed.

(** C4. A row with a blank [order_sn] cell is in no group, so in no
    summary row, and still in the detail table that the TOTAL row sums:
    the column [R70] totals 11, its summary rows add up to 8. *)
Theorem total_counts_blank_orders :
  group_keys (detail_rows latin1 cfg_capa [row_a; row_b; row_blank])
  = [VStr (lit "A"); VStr (lit "B")] /\
  map (fun k => resumo_cell latin1 (detail_rows latin1 cfg_capa [row_a; row_b; row_blank])
                  k (lit "R70"))
      (group_keys (detail_rows latin1 cfg_capa [row_a; row_b; row_blank]))
  = [Some (VInt 8); Some (VStr [])] /\
  total_cell latin1 (detail_rows latin1 cfg_capa [row_a; row_b; row_blank]) (lit "R70")
  = VInt 11 /\
  summary_sum latin1 (detail_rows latin1 cfg_capa [row_a; row_b; row_blank]) (lit "R70") = 8%Z /\
  cell_value latin1
    (total_cell latin1 (detail_rows latin1 cfg_capa [row_a; row_b; row_blank]) (lit "R70"))
  = 11%Z /\
  option_map resumo (run_process latin1 cfg_capa [row_a; row_b; row_blank])
  = Some [ [(lit "order_sn", VStr (lit "A")); (lit "R70", VInt 8); (lit "ENC_CAPA", VInt 0)];
           [(lit "order_sn", VStr (lit "B")); (lit "R70", VStr []); (lit "ENC_CAPA", VInt 2)] ] /\
  option_map total_row (run_process latin1 cfg_capa [row_a; row_b; row_blank])
  = Some [(lit "order_sn", VStr (lit "TOTAL")); (lit "R70", VInt 11);
          (lit "ENC_CAPA", VStr (lit "2 + C"))].
Proof.
  repeat split; vm_compute; reflexivity.
Qed.

(** ** Numerals: [int(str(n))] is [n] *)

Lemma horner_of_lu (d : uint) :
  forall acc, horner d acc
              = (DecimalPos.Unsigned.of_lu (Decimal.rev d)
                 + acc * 10 ^ DecimalPos.Unsigned.usize d)%N.
Proof.
  induction d; intros acc; cbn [horner DecimalPos.Unsigned.usize];
    [ simpl; lia | .. ];
    rewrite IHd;
    match goal with
    | |- context [Decimal.rev (?f d)] =>
        change (Decimal.rev (f d)) with (revapp d (f Nil));
        rewrite (DecimalPos.Unsigned.of_lu_revapp d (f Nil))
    end;
    cbn [DecimalPos.Unsigned.of_lu]; rewrite N.pow_succ_r'; ring.
Qed.

Lemma horner_of_uint (d : uint) : horner d 0 = Pos.of_uint d.
Proof.
  rewrite horner_of_lu, DecimalPos.Unsigned.of_uint_alt. lia.
Qed.

Lemma uint_codes_digits (d : uint) : forallb (in_range 48 57) (uint_codes d) = true.
Proof.
  induction d; simpl; auto.
Qed.

Lemma int_digits_uint (U : UnicodeData) (HU : ascii_digits U) (d : uint) :
  forall acc, int_digits U acc (uint_codes d) = Some (horner d acc).
Proof.
  induction d; intros acc; cbn [uint_codes int_digits horner]; [reflexivity|..];
    match goal with
    | |- context [decimal U ?c] => rewrite (HU c eq_refl)
    end; rewrite IHd; reflexivity.
Qed.

Lemma int_unsigned_uint (U : UnicodeData) (HU : ascii_digits U) (d : uint) :
  d <> Nil -> int_unsigned U (uint_codes d) = Some (Pos.of_uint d).
Proof.
  intros Hd. rewrite <- horner_of_uint.
  destruct d; [now elim Hd|..]; cbn [uint_codes int_unsigned horner];
    match goal with
    | |- context [decimal U ?c] => rewrite (HU c eq_refl)
    end; rewrite (int_digits_uint U HU); reflexivity.
Qed.

Lemma digit_not_space (c : N) : in_range 48 57 c = true -> isspace c = false.
Proof.
  unfold in_range. rewrite andb_true_iff, !N.leb_le. intros H.
  unfold isspace, in_range.
  repeat rewrite orb_false_iff.
  repeat rewrite andb_false_iff.
  repeat rewrite N.leb_gt.
  repeat rewrite N.eqb_neq.
  repeat split; lia.
Qed.

Lemma to_int_nonnil (z : Z) :
  match Z.to_int z with Pos d | Neg d => d <> Nil end.
Proof.
  destruct z; simpl; try apply DecimalPos.Unsigned.to_uint_nonnil. discriminate.
Qed.

(** The text of an integer holds no white space and is not empty. *)
Lemma str_of_int_plain (z : Z) :
  forallb (fun c => negb (isspace c)) (str_of_int z) = true /\ str_of_int z <> [].
Proof.
  unfold str_of_int. pose proof (to_int_nonnil z) as Hn.
  assert (Hd : forall d, forallb (fun c => negb (isspace c)) (uint_codes d) = true).
  { intros d. apply (forallb_imp (in_range 48 57)); [|apply uint_codes_digits].
    intros c Hc. now rewrite (digit_not_space c Hc). }
  destruct (Z.to_int z) as [d|d]; split.
  - apply Hd.
  - destruct d; try discriminate. now elim Hn.
  - simpl. apply Hd.
  - discriminate.
Qed.

(** The length of a numeral: doubling adds at most one digit, so a
    number below [2 ^ n] has at most [n] digits. *)
Lemma double_digits (d : uint) :
  (nb_digits (Little.double d) <= S (nb_digits d))%nat /\
  (nb_digits (Little.succ_double d) <= S (nb_digits d))%nat.
Proof.
  induction d; cbn [Little.double Little.succ_double nb_digits]; lia.
Qed.

Lemma to_little_uint_digits (p : positive) :
  forall n, (Zpos p < 2 ^ Z.of_nat n)%Z -> (nb_digits (Pos.to_little_uint p) <= n)%nat.
Proof.
  induction p as [p IH|p IH|]; intros n Hn; cbn [Pos.to_little_uint].
  - destruct n as [|n]; [cbn in Hn; lia|].
    rewrite Nat2Z.inj_succ, Z.pow_succ_r in Hn by lia.
    pose proof (proj2 (double_digits (Pos.to_little_uint p))).
    assert (nb_digits (Pos.to_little_uint p) <= n)%nat by (apply IH; lia). lia.
  - destruct n as [|n]; [cbn in Hn; lia|].
    rewrite Nat2Z.inj_succ, Z.pow_succ_r in Hn by lia.
    pose proof (proj1 (double_digits (Pos.to_little_uint p))).
    assert (nb_digits (Pos.to_little_uint p) <= n)%nat by (apply IH; lia). lia.
  - destruct n as [|n]; [cbn in Hn; lia|]. cbn. lia.
Qed.

Lemma uint_codes_length (d : uint) : length (uint_codes d) = nb_digits d.
Proof.
  induction d; cbn [uint_codes nb_digits length]; congruence.
Qed.

Lemma str_of_int_length (z : Z) :
  (Z.abs z < 2 ^ 53)%Z -> (length (str_of_int z) <= 54)%nat.
Proof.
  intros Hz. unfold str_of_int.
  assert (Hp : forall p, (Zpos p < 2 ^ 53)%Z ->
                         (length (uint_codes (Pos.to_uint p)) <= 53)%nat).
  { intros p Hp. rewrite uint_codes_length. unfold Pos.to_uint.
    rewrite DecimalFacts.nb_digits_rev. now apply (to_little_uint_digits p 53). }
  destruct z as [|p|p]; cbn [Z.to_int length].
  - cbn. lia.
  - specialize (Hp p Hz). lia.
  - specialize (Hp p Hz). lia.
Qed.

Lemma digit_count_length (U : UnicodeData) (s : pystr) :
  (digit_count U s <= length s)%nat.
Proof.
  unfold digit_count. apply filter_length_le.
Qed.

(** [int(str(z))] is [z], for an integer far inside the limit on
    numerals. *)
Lemma py_int_str_of_int (U : UnicodeData) (HU : ascii_digits U) (z : Z) :
  (Z.abs z < 2 ^ 53)%Z -> py_int U (str_of_int z) = Some z.
Proof.
  intros Hsmall. unfold py_int.
  assert (Hcount : (int_max_str_digits <? digit_count U (str_of_int z))%nat = false).
  { apply Nat.ltb_ge. pose proof (digit_count_length U (str_of_int z)).
    pose proof (str_of_int_length z Hsmall). unfold int_max_str_digits. lia. }
  rewrite Hcount. rewrite strip_plain.
  2:{ intros c Hc. destruct (str_of_int_plain z) as [H _].
      rewrite forallb_forall in H. apply negb_true_iff. now apply H. }
  pose proof (DecimalZ.of_to z) as Hz. pose proof (to_int_nonnil z) as Hn.
  unfold str_of_int. destruct (Z.to_int z) as [d|d].
  - pose proof (uint_codes_digits d) as Hd.
    pose proof (int_unsigned_uint U HU d Hn) as Hu.
    destruct (uint_codes d) as [|c s'] eqn:E; [discriminate Hu|].
    simpl in Hd. apply andb_true_iff in Hd. destruct Hd as [Hc _].
    assert (E43 : N.eqb c 43 = false /\ N.eqb c 45 = false).
    { unfold in_range in Hc. rewrite andb_true_iff, !N.leb_le in Hc.
      rewrite !N.eqb_neq. lia. }
    destruct E43 as [-> ->]. rewrite Hu. simpl. f_equal. exact Hz.
  - cbn [N.eqb Pos.eqb]. change (N.eqb 45 43) with false. cbn iota.
    change (N.eqb 45 45) with true. cbn iota.
    rewrite (int_unsigned_uint U HU d Hn). simpl. f_equal. exact Hz.
Qed.

Lemma exact_range_abs (z : Z) : exact_range z -> (Z.abs z < 2 ^ 53)%Z.
Proof.
  unfold exact_range. lia.
Qed.

(** ** What the cells of the detail table are worth *)

Lemma split_from_word (w : list N) :
  forallb (fun c => negb (isspace c)) w = true ->
  forall cur rest, split_from cur (w ++ rest) = split_from (List.rev w ++ cur) rest.
Proof.
  induction w as [|c w IH]; intros Hw cur rest; [reflexivity|].
  simpl in Hw. apply andb_true_iff in Hw. destruct Hw as [Hc Hw].
  apply negb_true_iff in Hc. cbn [List.app split_from]. rewrite Hc.
  rewrite (IH Hw). simpl. now rewrite <- app_assoc.
Qed.

Lemma leading_word (w rest : list N) :
  forallb (fun c => negb (isspace c)) w = true -> w <> [] ->
  exists l, str_split (w ++ 32%N :: rest) = w :: l.
Proof.
  intros Hw Hne. unfold str_split. rewrite (split_from_word w Hw).
  rewrite app_nil_r. cbn [split_from]. change (isspace 32) with true. cbn iota.
  destruct (List.rev w) as [|x r] eqn:E.
  - apply (f_equal (@List.rev N)) in E. rewrite rev_involutive in E. now elim Hne.
  - cbn [is_nil]. rewrite <- E, rev_involutive. eauto.
Qed.

Lemma single_word (w : list N) :
  forallb (fun c => negb (isspace c)) w = true -> w <> [] -> str_split w = [w].
Proof.
  intros Hw Hne. unfold str_split.
  rewrite <- (app_nil_r w) at 1. rewrite (split_from_word w Hw).
  rewrite app_nil_r. cbn [split_from].
  destruct (List.rev w) as [|x r] eqn:E.
  - apply (f_equal (@List.rev N)) in E. rewrite rev_involutive in E. now elim Hne.
  - cbn [is_nil]. now rewrite <- E, rev_involutive.
Qed.

Lemma leading_int_number (U : UnicodeData) (HU : ascii_digits U) (z : Z) :
  exact_range z -> leading_int U (VInt z) = Some z.
Proof.
  intros Hz. unfold leading_int. cbn [py_str].
  destruct (str_of_int_plain z) as [Hp Hne].
  rewrite (single_word _ Hp Hne). apply py_int_str_of_int; [exact HU|].
  now apply exact_range_abs.
Qed.

Lemma leading_int_marker (U : UnicodeData) (HU : ascii_digits U) (z : Z) :
  exact_range z -> leading_int U (VStr (str_of_int z ++ lit " + C")) = Some z.
Proof.
  intros Hz. unfold leading_int. cbn [py_str].
  destruct (str_of_int_plain z) as [Hp Hne].
  change (lit " + C") with (32%N :: lit "+ C").
  destruct (leading_word _ (lit "+ C") Hp Hne) as (l & ->).
  apply py_int_str_of_int; [exact HU|]. now apply exact_range_abs.
Qed.

Lemma cell_value_number (U : UnicodeData) (HU : ascii_digits U) (z : Z) :
  exact_range z -> cell_value U (VInt z) = z.
Proof.
  intros Hz. unfold cell_value. now rewrite leading_int_number.
Qed.

Lemma cell_value_marker (U : UnicodeData) (HU : ascii_digits U) (z : Z) :
  exact_range z -> cell_value U (VStr (str_of_int z ++ lit " + C")) = z.
Proof.
  intros Hz. unfold cell_value. now rewrite leading_int_marker.
Qed.

Lemma lstrip_keeps (s : list N) :
  (exists c, In c s /\ isspace c = false) -> lstrip s <> [].
Proof.
  induction s as [|x s IH]; intros (c & Hin & Hc); [easy|].
  simpl. destruct (isspace x) eqn:E; [|discriminate].
  apply IH. destruct Hin as [->|Hin]; [congruence|eauto].
Qed.

(** A text that starts with a character other than white space does not
    strip to the empty text. *)
Lemma strip_keeps (c : N) (s : list N) :
  isspace c = false -> is_nil (strip (c :: s)) = false.
Proof.
  intros Hc. unfold strip, rstrip. cbn [lstrip]. rewrite Hc.
  assert (H : lstrip (List.rev (c :: s)) <> []).
  { apply lstrip_keeps. exists c. split; [|exact Hc]. apply -> in_rev. now left. }
  destruct (lstrip (List.rev (c :: s))) as [|x l] eqn:E; [now elim H|].
  simpl. destruct (List.rev l ++ [x]) eqn:E'; [|reflexivity].
  now apply app_eq_nil in E'.
Qed.

Lemma str_of_int_head (z : Z) :
  exists c s, str_of_int z = c :: s /\ isspace c = false.
Proof.
  destruct (str_of_int_plain z) as [Hp Hne].
  destruct (str_of_int z) as [|c s]; [now elim Hne|].
  exists c, s. split; [reflexivity|].
  simpl in Hp. apply andb_true_iff in Hp. now apply negb_true_iff.
Qed.

(** The three kinds of cell under the lambda of [agg_map] and under the
    [try] of the TOTAL row: a blank is skipped by both, a number and a
    marker are read by both. *)
Lemma small_cell_read (U : UnicodeData) (HU : ascii_digits U) (x : pyval) :
  small_cell x ->
  (x = VStr [] /\ is_nil (strip (py_str x)) = true /\ leading_int U x = None) \/
  (exists z, exact_range z /\ is_nil (strip (py_str x)) = false /\
             leading_int U x = Some z).
Proof.
  intros [|z Hz|z Hz].
  - left. repeat split.
  - right. exists z. split; [exact Hz|]. split; [|now apply leading_int_number].
    cbn [py_str]. destruct (str_of_int_head z) as (c & s & -> & Hc).
    now apply strip_keeps.
  - right. exists z. split; [exact Hz|]. split; [|now apply leading_int_marker].
    cbn [py_str]. destruct (str_of_int_head z) as (c & s & -> & Hc).
    now apply strip_keeps.
Qed.

(** On such cells the lambda never raises, and sums what the TOTAL row sums. *)
Lemma enc_capa_agg_total (U : UnicodeData) (HU : ascii_digits U) (series : list pyval) :
  Forall small_cell series ->
  enc_capa_agg U series = Some (zsum (total_nums U series)).
Proof.
  induction 1 as [|x series Hx _ IH]; [reflexivity|].
  cbn [enc_capa_agg total_nums flat_map]. fold (total_nums U series).
  destruct (small_cell_read U HU x Hx) as [(_ & -> & ->)|(z & _ & -> & ->)].
  - exact IH.
  - rewrite IH. unfold zsum. simpl. reflexivity.
Qed.

Lemma small_cell_table (x : pyval) : small_cell x -> table_cell x.
Proof.
  intros [|z _|z _]; constructor.
Qed.

(** ** Groups *)

Lemma key_eqb_refl (k : pyval) : isna k = false -> key_eqb k k = true.
Proof.
  destruct k; simpl; try discriminate; intros _.
  - apply eqb_reflx.
  - apply Z.eqb_refl.
  - apply pystr_eqb_refl.
Qed.

Lemma key_eqb_sym (a b : pyval) : key_eqb a b = key_eqb b a.
Proof.
  destruct a, b; simpl; try reflexivity.
  - destruct b, b0; reflexivity.
  - apply Z.eqb_sym.
  - destruct (pystr_eqb s s0) eqn:E.
    + apply pystr_eqb_eq in E. subst. symmetry. apply pystr_eqb_refl.
    + destruct (pystr_eqb s0 s) eqn:E'; [|reflexivity].
      apply pystr_eqb_eq in E'. subst. now rewrite pystr_eqb_refl in E.
Qed.

Lemma key_eqb_trans (a b c : pyval) :
  key_eqb a b = true -> key_eqb b c = true -> key_eqb a c = true.
Proof.
  destruct a as [| x | x | | x], b as [| y | y | | y], c as [| z | z | | z];
    simpl; try discriminate;
    rewrite ?Z.eqb_eq, ?pystr_eqb_eq, ?eqb_true_iff;
    try congruence;
    repeat match goal with
           | b : bool |- _ => destruct b
           end; try congruence; try lia.
Qed.

Lemma zsum_app (a b : list Z) : zsum (a ++ b) = (zsum a + zsum b)%Z.
Proof.
  induction a as [|x a IH]; simpl; [reflexivity|]. rewrite IH. lia.
Qed.

Lemma zsum_flat_map {A} (g : A -> list Z) (l : list A) :
  zsum (flat_map g l) = zsum (map (fun x => zsum (g x)) l).
Proof.
  induction l as [|x l IH]; simpl; [reflexivity|]. now rewrite zsum_app, IH.
Qed.

Lemma zsum_filter_or {A} (w : A -> Z) (p q : A -> bool) (l : list A) :
  (forall x, p x = true -> q x = false) ->
  zsum (map w (filter (fun x => p x || q x) l))
  = (zsum (map w (filter p l)) + zsum (map w (filter q l)))%Z.
Proof.
  intros H. induction l as [|x l IH]; simpl; [reflexivity|].
  destruct (p x) eqn:Ep; simpl.
  - rewrite (H x Ep). rewrite IH. lia.
  - destruct (q x); simpl; rewrite IH; lia.
Qed.

Lemma keys_apart_filter (p : pyval -> bool) (ks : list pyval) :
  keys_apart ks -> keys_apart (filter p ks).
Proof.
  induction ks as [|k ks IH]; simpl; [easy|]. intros [H1 H2].
  destruct (p k); simpl; [|now apply IH].
  split; [|now apply IH]. intros k' Hk'. apply filter_In in Hk'. now apply H1.
Qed.

Lemma group_keys_apart (df : list (dict pyval)) : keys_apart (group_keys df).
Proof.
  induction df as [|row df IH]; simpl; [exact I|].
  destruct (isna (cell row (lit "order_sn"))).
  - now apply keys_apart_filter.
  - split; [|now apply keys_apart_filter].
    intros k' Hk'. apply filter_In in Hk'. destruct Hk' as [_ Hk'].
    now apply negb_true_iff in Hk'.
Qed.

(** Every row with a key is in the group of one of the keys. *)
Lemma group_keys_cover (df : list (dict pyval)) (row : dict pyval) :
  In row df -> isna (cell row (lit "order_sn")) = false ->
  existsb (key_eqb (cell row (lit "order_sn"))) (group_keys df) = true.
Proof.
  induction df as [|r df IH]; [easy|]. intros Hin Hna.
  cbn [group_keys].
  set (k := cell r (lit "order_sn")).
  assert (Hlater : In row df ->
            existsb (key_eqb (cell row (lit "order_sn")))
              (if isna k
               then filter (fun k' => negb (key_eqb k k')) (group_keys df)
               else k :: filter (fun k' => negb (key_eqb k k')) (group_keys df)) = true).
  { intros Hdf. specialize (IH Hdf Hna).
    apply existsb_exists in IH. destruct IH as (k0 & Hk0 & Heq).
    destruct (key_eqb k k0) eqn:E.
    - assert (Hk : key_eqb (cell row (lit "order_sn")) k = true).
      { apply (key_eqb_trans _ k0); [exact Heq|]. now rewrite key_eqb_sym. }
      destruct (isna k) eqn:En.
      + destruct k; simpl in En, E; discriminate.
      + simpl. now rewrite Hk.
    - assert (Hf : In k0 (filter (fun k' => negb (key_eqb k k')) (group_keys df))).
      { apply filter_In. split; [exact Hk0|]. now rewrite E. }
      destruct (isna k); [|simpl; apply orb_true_iff; right];
        apply existsb_exists; exists k0; now split. }
  destruct Hin as [->|Hin]; [|now apply Hlater].
  fold k in Hna |- *. rewrite Hna. simpl. now rewrite (key_eqb_refl k Hna).
Qed.

(** The sums over the groups of keys that are apart add up to the sum
    over the rows that are in one of the groups. *)
Lemma sum_over_groups (w : dict pyval -> Z) (df : list (dict pyval)) (ks : list pyval) :
  keys_apart ks ->
  zsum (map (fun k => zsum (map w (group df k))) ks)
  = zsum (map w (filter (fun row => existsb (key_eqb (cell row (lit "order_sn"))) ks) df)).
Proof.
  induction ks as [|k ks IH]; intros Hks.
  - simpl. induction df as [|r df IHdf]; [reflexivity|exact IHdf].
  - destruct Hks as [Hk Hks]. cbn [map zsum fold_right existsb].
    fold (zsum (map (fun k0 => zsum (map w (group df k0))) ks)).
    rewrite (IH Hks).
    rewrite (zsum_filter_or w (fun row => key_eqb (cell row (lit "order_sn")) k)
               (fun row => existsb (key_eqb (cell row (lit "order_sn"))) ks)).
    + reflexivity.
    + intros row Hrow.
      destruct (existsb (key_eqb (cell row (lit "order_sn"))) ks) eqn:E; [|reflexivity].
      apply existsb_exists in E. destruct E as (k' & Hin & Hk').
      rewrite <- (Hk k' Hin). symmetry.
      apply (key_eqb_trans _ (cell row (lit "order_sn"))); [|exact Hk'].
      now rewrite key_eqb_sym.
Qed.

(** When no row lacks its key, the groups share out the whole table. *)
Lemma sum_over_orders (w : dict pyval -> Z) (df : list (dict pyval)) :
  (forall row, In row df -> isna (cell row (lit "order_sn")) = false) ->
  zsum (map (fun k => zsum (map w (group df k))) (group_keys df)) = zsum (map w df).
Proof.
  intros Hna. rewrite (sum_over_groups w df _ (group_keys_apart df)).
  f_equal. f_equal. apply forallb_filter_id. apply forallb_forall.
  intros row Hrow. apply group_keys_cover; [exact Hrow|now apply Hna].
Qed.

(** ** The TOTAL row against the summary rows *)

Lemma cell_value_sum_or_blank (U : UnicodeData) (HU : ascii_digits U) (series : list pyval) :
  exact_range (zsum (numbers U series)) ->
  cell_value U (sum_or_blank U series) = zsum (numbers U series).
Proof.
  intros Hz. unfold sum_or_blank in *. destruct (numbers U series) as [|z l]; [reflexivity|].
  cbn [is_nil]. now apply cell_value_number.
Qed.

Lemma zsum_column (g : pyval -> list Z) (rows : list (dict pyval)) (c : list N) :
  zsum (flat_map g (column rows c)) = zsum (map (fun row => zsum (g (cell row c))) rows).
Proof.
  unfold column. now rewrite zsum_flat_map, map_map.
Qed.

Lemma group_rows (df : list (dict pyval)) (k : pyval) (row : dict pyval) :
  In row (group df k) -> In row df.
Proof.
  unfold group. intros H. now apply filter_In in H.
Qed.

(** ** The cells of the detail table *)

Lemma dict_get_set {V} (d : dict V) (k c : list N) (v : V) :
  dict_get (dict_set d k v) c = if pystr_eqb c k then Some v else dict_get d c.
Proof.
  destruct (pystr_eqb c k) eqn:E.
  - apply pystr_eqb_eq in E. subst. apply dict_get_set_same.
  - now apply dict_get_set_other.
Qed.

(** Assignments of values with a property keep a key that has it. *)
Lemma fold_set_holds {X} (P : pyval -> Prop) (kf : X -> list N) (vf : X -> pyval)
    (xs : list X) (key : list N) :
  (forall x, In x xs -> P (vf x)) ->
  forall d,
    (exists v, dict_get d key = Some v /\ P v) ->
    exists v, dict_get (fold_left (fun b x => dict_set b (kf x) (vf x)) xs d) key = Some v /\ P v.
Proof.
  induction xs as [|x xs IH]; intros HP d Hd; [exact Hd|].
  cbn [fold_left]. apply IH; [intros y Hy; apply HP; now right|].
  rewrite dict_get_set. destruct (pystr_eqb key (kf x)); [|exact Hd].
  eexists. split; [reflexivity|]. apply HP. now left.
Qed.

(** One of the assignments is to the key. *)
Lemma fold_set_hits {X} (P : pyval -> Prop) (kf : X -> list N) (vf : X -> pyval)
    (xs : list X) (key : list N) :
  (forall x, In x xs -> P (vf x)) ->
  (exists x, In x xs /\ kf x = key) ->
  forall d,
    exists v, dict_get (fold_left (fun b x => dict_set b (kf x) (vf x)) xs d) key = Some v /\ P v.
Proof.
  induction xs as [|x xs IH]; intros HP (x0 & Hin & Hk) d; [easy|].
  cbn [fold_left]. destruct Hin as [->|Hin].
  - apply fold_set_holds; [intros y Hy; apply HP; now right|].
    rewrite dict_get_set, Hk, pystr_eqb_refl.
    eexists. split; [reflexivity|]. apply HP. now left.
  - apply IH; [intros y Hy; apply HP; now right|eauto].
Qed.

(** The last two steps of [detail_row] keep what the columns hold when
    blanks, numbers and marker texts all have the property. *)
Lemma detail_row_holds (P : pyval -> Prop) (U : UnicodeData) (cfg : config)
    (r : order_row) (a : accumulators) (key : list N) :
  P (VStr []) -> (forall z, P (VInt z)) ->
  (forall z, P (VStr (str_of_int z ++ lit " + C"))) ->
  In key (out_cols U cfg) \/ (key = lit "order_sn" /\ P (order_sn r)) ->
  exists v, dict_get (detail_row U cfg r a) key = Some v /\ P v.
Proof.
  intros Hb Hn Hm Hkey. unfold detail_row.
  set (base1 := [(lit "order_sn", order_sn r); _; _; _]).
  set (base2 := fold_left (fun b c => dict_set b c (VStr [])) (out_cols U cfg) base1).
  assert (H2 : exists v, dict_get base2 key = Some v /\ P v).
  { destruct Hkey as [Hin|[-> Hr]].
    - apply (fold_set_hits P (fun c => c) (fun _ => VStr [])); [auto|].
      now exists key.
    - apply (fold_set_holds P (fun c => c) (fun _ => VStr [])); [auto|].
      exists (order_sn r). split; [reflexivity|exact Hr]. }
  set (base3 := fold_left (fun b cv => dict_set b (fst cv) (VInt (snd cv)))
                  (accum_numeric a) base2).
  assert (H3 : exists v, dict_get base3 key = Some v /\ P v).
  { apply (fold_set_holds P (fun cv : list N * Z => fst cv) (fun cv => VInt (snd cv)));
      [auto|exact H2]. }
  destruct (accum_enc_capa a >? 0)%Z; [|exact H3].
  rewrite dict_get_set. destruct (pystr_eqb key (lit "ENC_CAPA")); [|exact H3].
  eexists. split; [reflexivity|apply Hm].
Qed.

Lemma detail_row_category_cell (U : UnicodeData) (cfg : config)
    (r : order_row) (a : accumulators) (c : list N) :
  In c (out_cols U cfg) -> table_cell (cell (detail_row U cfg r a) c).
Proof.
  intros Hc.
  destruct (detail_row_holds table_cell U cfg r a c
              cell_blank cell_number cell_marker (or_introl Hc)) as (v & Hv & Ht).
  unfold cell. now rewrite Hv.
Qed.

Lemma detail_row_key (U : UnicodeData) (cfg : config) (r : order_row) (a : accumulators) :
  isna (order_sn r) = false ->
  isna (cell (detail_row U cfg r a) (lit "order_sn")) = false.
Proof.
  intros Hr.
  destruct (detail_row_holds (fun v => isna v = false) U cfg r a (lit "order_sn")
              eq_refl (fun _ => eq_refl) (fun _ => eq_refl)
              (or_intror (conj eq_refl Hr))) as (v & Hv & Ht).
  unfold cell. now rewrite Hv.
Qed.

Lemma process_rows_rows (U : UnicodeData) (cfg : config) (rows : list order_row) :
  forall diags row,
    In row (fst (process_rows U cfg diags rows)) ->
    exists r a, In r rows /\ row = detail_row U cfg r a.
Proof.
  induction rows as [|r rows IH]; intros diags row; [easy|].
  cbn [process_rows fst]. intros [<-|Hin].
  - unfold process_row. cbn [fst]. eexists r, _. split; [now left|reflexivity].
  - destruct (IH _ _ Hin) as (r' & a & Hr' & ->). exists r', a. split; [now right|reflexivity].
Qed.

Lemma latin1_ascii_digits : ascii_digits latin1.
Proof.
  intros c Hc. simpl. unfold latin1_decimal. now rewrite Hc.
Qed.

(** ** The variation read from a block *)

Lemma lstrip_incl (s : list N) (c : N) : In c (lstrip s) -> In c s.
Proof.
  induction s as [|x s IH]; simpl; [easy|].
  destruct (isspace x); [right; now apply IH|easy].
Qed.

Lemma strip_incl (s : list N) (c : N) : In c (strip s) -> In c s.
Proof.
  unfold strip, rstrip. intros H.
  apply lstrip_incl. apply in_rev. apply lstrip_incl. now apply in_rev.
Qed.

(** The class of [VAR_IN_PRODUCT_INFO] is [[^;\\n]]: besides the
    semicolon it leaves out the backslash and, in either case, the letter
    n, so the variation read from a block ends before its first n. *)
Lemma variation_without_n (U : UnicodeData) (text : pyval) (c : N) :
  In c (snd (extract_sku_and_var_from_text U text)) ->
  tolower U c <> 110%N /\ tolower U c <> 59%N /\ tolower U c <> 92%N.
Proof.
  unfold extract_sku_and_var_from_text.
  destruct text as [| | | |s]; try easy.
  destruct (is_nil (strip s)); [easy|]. cbn [snd].
  destruct (search (VAR_IN_PRODUCT_INFO U) s) as [m|] eqn:Em; [|easy].
  destruct (search_from_match _ _ _ _ Em) as (pv & s' & Hm).
  destruct (match_at_state _ _ _ _ Hm) as (st & Hin & Hg).
  unfold VAR_IN_PRODUCT_INFO in Hin.
  rewrite run_app in Hin. apply in_flat_map in Hin. destruct Hin as (st0 & _ & Hin).
  change [Star isspace; Chr (N.eqb 58); Star isspace; Open; Plus (var_class U); Close]
    with ([Star isspace; Chr (N.eqb 58); Star isspace]
          ++ Open :: Plus (var_class U) :: Close :: []) in Hin.
  rewrite run_app in Hin. apply in_flat_map in Hin. destruct Hin as (st1 & _ & Hin).
  destruct (group_of_plus (var_class U) [] st1 st eq_refl Hin) as (g & Hgrp & _ & Hall).
  rewrite Hg, Hgrp. intros Hc. apply strip_incl in Hc.
  rewrite forallb_forall in Hall. specialize (Hall c Hc).
  unfold var_class in Hall. apply negb_true_iff in Hall.
  rewrite !orb_false_iff, !N.eqb_neq in Hall. tauto.
Qed.

(** The variation "Encosto + Capa Extra", written in a block, is read as
    "E". *)
Lemma variation_of_encosto_block :
  extract_sku_and_var_from_text latin1
    (VStr (lit "[1] SKU Reference No. : enc1; Variation Name : Encosto + Capa Extra; Quantity: 2"))
  = (lit "enc1", lit "E").
Proof.
  reflexivity.
Qed.

(** * Properties of the map and of the run *)

(** ** The order of strings *)

Lemma str_ltb_irrefl (a : list N) : str_ltb a a = false.
Proof.
  induction a as [|x a IH]; simpl; [reflexivity|].
  now rewrite N.ltb_irrefl, N.eqb_refl, IH.
Qed.

Lemma str_ltb_trans (a b c : list N) :
  str_ltb a b = true -> str_ltb b c = true -> str_ltb a c = true.
Proof.
  revert b c; induction a as [|x a IH]; intros [|y b] [|z c]; simpl; try easy.
  rewrite !orb_true_iff, !andb_true_iff, !N.ltb_lt, !N.eqb_eq.
  intros [H1|[H1 H2]] [H3|[H3 H4]].
  - left. lia.
  - left. lia.
  - left. lia.
  - right. split; [lia|]. now apply (IH b c).
Qed.

Lemma str_ltb_total (a b : list N) :
  str_ltb a b = false -> pystr_eqb a b = false -> str_ltb b a = true.
Proof.
  revert b; induction a as [|x a IH]; intros [|y b]; simpl; try easy.
  rewrite orb_false_iff, !andb_false_iff, orb_true_iff, andb_true_iff.
  rewrite !N.ltb_ge, N.ltb_lt, !N.eqb_neq, N.eqb_eq.
  intros [H1 H2] H3.
  destruct (N.eq_dec x y) as [->|Hne].
  - right. split; [reflexivity|]. apply IH.
    + destruct H2 as [H2|H2]; [now elim H2|exact H2].
    + destruct H3 as [H3|H3]; [now elim H3|exact H3].
  - left. lia.
Qed.

Lemma str_ltb_neq (a b : list N) : str_ltb a b = true -> pystr_eqb a b = false.
Proof.
  intros H. destruct (pystr_eqb a b) eqn:E; [|reflexivity].
  apply pystr_eqb_eq in E. subst. now rewrite str_ltb_irrefl in H.
Qed.

Lemma str_ltb_asym (a b : list N) : str_ltb a b = true -> str_ltb b a = false.
Proof.
  intros H. destruct (str_ltb b a) eqn:E; [|reflexivity].
  pose proof (str_ltb_trans a b a H E) as Hc. now rewrite str_ltb_irrefl in Hc.
Qed.

(** ** [sorted(set(l))] *)

Lemma insert_set_in (x z : list N) (l : list (list N)) :
  In z (insert_set x l) <-> z = x \/ In z l.
Proof.
  induction l as [|y l IH]; simpl.
  - intuition.
  - destruct (str_ltb x y).
    + simpl. intuition.
    + destruct (pystr_eqb x y) eqn:E.
      * apply pystr_eqb_eq in E. subst. simpl. intuition.
      * simpl. rewrite IH. intuition.
Qed.

Lemma sorted_set_in (z : list N) (l : list (list N)) :
  In z (sorted_set l) <-> In z l.
Proof.
  induction l as [|x l IH]; simpl; [reflexivity|].
  rewrite insert_set_in, IH. intuition.
Qed.

Lemma insert_set_ascending (x : list N) (l : list (list N)) :
  ascending l -> ascending (insert_set x l).
Proof.
  induction l as [|y l IH]; simpl.
  - intros _. split; [intros z []|exact I].
  - intros [Hy Hl]. destruct (str_ltb x y) eqn:E.
    + split; [|split; assumption].
      intros z [<-|Hz]; [exact E|]. apply (str_ltb_trans x y z E). now apply Hy.
    + destruct (pystr_eqb x y) eqn:E'; [split; assumption|].
      split; [|now apply IH].
      intros z Hz. apply insert_set_in in Hz. destruct Hz as [->|Hz]; [|now apply Hy].
      apply str_ltb_total; [exact E|exact E'].
Qed.

Lemma sorted_set_ascending (l : list (list N)) : ascending (sorted_set l).
Proof.
  induction l as [|x l IH]; simpl; [exact I|]. now apply insert_set_ascending.
Qed.

Lemma ascending_NoDup (l : list (list N)) : ascending l -> NoDup l.
Proof.
  induction l as [|x l IH]; simpl; intros H; constructor.
  - destruct H as [Hx _]. intros Hin. specialize (Hx x Hin).
    now rewrite str_ltb_irrefl in Hx.
  - apply IH. apply H.
Qed.

(** Two ascending lists with the same strings are the same list. *)
Lemma ascending_unique (l1 l2 : list (list N)) :
  ascending l1 -> ascending l2 -> (forall x, In x l1 <-> In x l2) -> l1 = l2.
Proof.
  revert l2; induction l1 as [|x l1 IH]; intros [|y l2] H1 H2 Hin.
  - reflexivity.
  - destruct (proj2 (Hin y) (or_introl eq_refl)).
  - destruct (proj1 (Hin x) (or_introl eq_refl)).
  - destruct H1 as [Hx H1], H2 as [Hy H2].
    assert (Hxy : x = y).
    { destruct (proj1 (Hin x) (or_introl eq_refl)) as [E|Hx2]; [now symmetry|].
      destruct (proj2 (Hin y) (or_introl eq_refl)) as [E|Hy1]; [exact E|].
      pose proof (Hy x Hx2) as A. pose proof (Hx y Hy1) as B.
      now rewrite (str_ltb_asym y x A) in B. }
    subst y. f_equal. apply IH; [exact H1|exact H2|].
    intros z. split; intros Hz.
    + destruct (proj1 (Hin z) (or_intror Hz)) as [E|Hz2]; [|exact Hz2].
      subst z. specialize (Hx x Hz). now rewrite str_ltb_irrefl in Hx.
    + destruct (proj2 (Hin z) (or_intror Hz)) as [E|Hz1]; [|exact Hz1].
      subst z. specialize (Hy x Hz). now rewrite str_ltb_irrefl in Hy.
Qed.

Lemma sorted_set_fixed (l : list (list N)) : ascending l -> sorted_set l = l.
Proof.
  intros H. apply ascending_unique; [apply sorted_set_ascending|exact H|].
  intros x. apply sorted_set_in.
Qed.

Lemma sorted_set_same (l1 l2 : list (list N)) :
  (forall x, In x l1 <-> In x l2) -> sorted_set l1 = sorted_set l2.
Proof.
  intros H. apply ascending_unique; try apply sorted_set_ascending.
  intros x. rewrite !sorted_set_in. apply H.
Qed.

(** ** The map file *)

Lemma list_in_In (x : list N) (l : list (list N)) : list_in x l = true <-> In x l.
Proof.
  unfold list_in. rewrite existsb_exists. split.
  - intros (y & Hy & E). apply pystr_eqb_eq in E. now subst.
  - intros H. exists x. split; [exact H|apply pystr_eqb_refl].
Qed.

Lemma normalize_aliases_normal (U : UnicodeData) (l : list pyval) :
  ascending (normalize_aliases U l) /\
  Forall (fun a => forallb is_az09 a = true) (normalize_aliases U l).
Proof.
  split; [apply sorted_set_ascending|].
  apply Forall_forall. intros a Ha. apply sorted_set_in, in_map_iff in Ha.
  destruct Ha as (v & <- & _). apply normalize_token_az09.
Qed.

Lemma parse_aliases_normal (U : UnicodeData) (s : list N) :
  ascending (parse_aliases U s) /\
  Forall (fun a => forallb is_az09 a = true) (parse_aliases U s).
Proof.
  split; [apply sorted_set_ascending|].
  apply Forall_forall. intros a Ha. apply sorted_set_in, in_map_iff in Ha.
  destruct Ha as (v & <- & _). apply normalize_token_az09.
Qed.

(** X1. Whatever the file holds, every alias list of the loaded map is
    made of normal forms (characters of [[a-z0-9]] only), in strictly
    ascending order, hence without repeats. *)
Theorem loaded_map_normal (U : UnicodeData) (file : option raw_map) :
  normal_map (load_map_file U file) /\
  forall cat meta,
    In (cat, meta) (categories (load_map_file U file)) -> NoDup (aliases meta).
Proof.
  assert (H : normal_map (load_map_file U file)).
  { intros cat meta Hin. destruct file as [data|]; [|destruct Hin].
    cbn [load_map_file categories] in Hin. apply in_map_iff in Hin.
    destruct Hin as ([c m] & E & _). inversion E. subst.
    apply normalize_aliases_normal. }
  split; [exact H|].
  intros cat meta Hin. apply ascending_NoDup. exact (proj1 (H cat meta Hin)).
Qed.

(** X2. A SKU matches the aliases of a loaded category exactly when its
    normal form is the normal form of one of the aliases written in the
    file: case, accents, spaces and punctuation count on neither side. *)
Theorem alias_matches_by_normal_form (U : UnicodeData) (m : raw_meta) (sku : pyval) :
  list_in (normalize_token U sku) (aliases (load_meta U m)) = true <->
  exists a, In a (get_or (raw_aliases m) []) /\
            normalize_token U a = normalize_token U sku.
Proof.
  cbn [load_meta aliases]. unfold normalize_aliases.
  rewrite list_in_In, sorted_set_in, in_map_iff.
  split; intros (a & H1 & H2); exists a; tauto.
Qed.

(** X3. The alias list that is stored depends only on the set of normal
    forms: the order of the aliases, repeats, and spellings with the same
    normal form make no difference. *)
Theorem aliases_as_a_set (U : UnicodeData) (l1 l2 : list pyval) :
  (forall a, In a l1 -> exists b, In b l2 /\ normalize_token U b = normalize_token U a) ->
  (forall b, In b l2 -> exists a, In a l1 /\ normalize_token U a = normalize_token U b) ->
  normalize_aliases U l1 = normalize_aliases U l2.
Proof.
  intros H12 H21. apply sorted_set_same. intros x. rewrite !in_map_iff. split.
  - intros (a & <- & Ha). destruct (H12 a Ha) as (b & Hb & E). now exists b.
  - intros (b & <- & Hb). destruct (H21 b Hb) as (a & Ha & E). now exists a.
Qed.

Lemma aliases_as_a_set_witness :
  normalize_aliases latin1 [VStr (lit "4 Promo"); VStr (lit "2-PROMO"); VStr (lit "2promo")]
  = normalize_aliases latin1 [VStr (lit "2Promo"); VStr (lit "4promo")] /\
  normalize_aliases latin1 [VStr (lit "2Promo"); VStr (lit "4promo")]
  = [lit "2promo"; lit "4promo"].
Proof.
  split; [|reflexivity].
  apply aliases_as_a_set.
  - intros a [<-|[<-|[<-|[]]]].
    + exists (VStr (lit "4promo")). split; [right; now left|reflexivity].
    + exists (VStr (lit "2Promo")). split; [now left|reflexivity].
    + exists (VStr (lit "2Promo")). split; [now left|reflexivity].
  - intros b [<-|[<-|[]]].
    + exists (VStr (lit "2-PROMO")). split; [right; now left|reflexivity].
    + exists (VStr (lit "4 Promo")). split; [now left|reflexivity].
Defined.

Lemma save_meta_fixed (U : UnicodeData) (m : category_meta) :
  az09_stable U ->
  ascending (aliases m) -> Forall (fun a => forallb is_az09 a = true) (aliases m) ->
  save_meta U m = m.
Proof.
  intros HU Ha Hn. destruct m as [al fmt]. unfold save_meta. cbn [aliases output_format] in *.
  f_equal. unfold normalize_aliases. rewrite map_map.
  rewrite (map_ext_in _ (fun a => a)).
  - rewrite map_id. now apply sorted_set_fixed.
  - intros a Hin. apply normalize_token_fixed; [exact HU|].
    rewrite Forall_forall in Hn. now apply Hn.
Qed.

Lemma save_normal_fixed (U : UnicodeData) (dir_ok : bool) (cfg : config) :
  az09_stable U -> normal_map cfg -> save_map_file U dir_ok cfg = cfg.
Proof.
  intros HU Hn. destruct dir_ok; [|reflexivity].
  destruct cfg as [pr cats capa base]. unfold save_map_file.
  cbn [priorities categories enc_capa_category enc_base_category] in *.
  f_equal. unfold normal_map in Hn. cbn [categories] in Hn.
  induction cats as [|[c m] cats IH]; [reflexivity|].
  cbn [map fst snd]. f_equal.
  - f_equal. destruct (Hn c m (or_introl eq_refl)) as [Ha Hf]. now apply save_meta_fixed.
  - apply IH. intros c' m' Hin. apply (Hn c' m'). now right.
Qed.

Lemma saved_map_normal (U : UnicodeData) (cfg : config) :
  normal_map (save_map_file U true cfg).
Proof.
  intros cat meta Hin. cbn [save_map_file categories] in Hin.
  apply in_map_iff in Hin. destruct Hin as ([c m] & E & _). inversion E. subst.
  apply normalize_aliases_normal.
Qed.

Lemma load_written (U : UnicodeData) (cfg : config) :
  az09_stable U -> normal_map cfg -> load_map_file U (Some (written cfg)) = cfg.
Proof.
  intros HU Hn. destruct cfg as [pr cats capa base]. unfold load_map_file, written.
  cbn [priorities categories enc_capa_category enc_base_category
       raw_priorities raw_categories raw_special get_or
       raw_enc_capa_category raw_enc_base_category] in *.
  f_equal. rewrite map_map. unfold normal_map in Hn. cbn [categories] in Hn.
  induction cats as [|[c m] cats IH]; [reflexivity|].
  cbn [map fst snd]. f_equal.
  - f_equal. destruct (Hn c m (or_introl eq_refl)) as [Ha Hf].
    unfold load_meta. cbn [raw_aliases raw_output_format get_or].
    change ({| aliases := normalize_aliases U (map VStr (aliases m));
               output_format := output_format m |}) with (save_meta U m).
    now apply save_meta_fixed.
  - apply IH. intros c' m' Hin. apply (Hn c' m'). now right.
Qed.

(** X4. Saving and loading are a round trip: the map that
    [save_map_file] leaves in memory and writes is the map that
    [load_map_file] reads back, and saving it again changes nothing. *)
Theorem save_load_round_trip (U : UnicodeData) (HU : az09_stable U) (cfg : config) :
  load_map_file U (Some (written (save_map_file U true cfg))) = save_map_file U true cfg /\
  save_map_file U true (save_map_file U true cfg) = save_map_file U true cfg /\
  (forall file,
      save_map_file U true (load_map_file U file) = load_map_file U file).
Proof.
  split; [|split].
  - apply load_written; [exact HU|apply saved_map_normal].
  - apply save_normal_fixed; [exact HU|apply saved_map_normal].
  - intros file. apply save_normal_fixed; [exact HU|apply loaded_map_normal].
Qed.

Lemma save_load_round_trip_witness :
  az09_stable latin1 /\
  categories (load_map_file latin1 (Some raw_promo))
  = [(lit "PR", meta_of [[]; lit "2promo"; lit "4promo"])] /\
  load_map_file latin1
    (Some (written (save_map_file latin1 true (load_map_file latin1 (Some raw_promo)))))
  = load_map_file latin1 (Some raw_promo).
Proof.
  split; [exact latin1_az09_stable|]. split; [reflexivity|].
  rewrite (proj1 (save_load_round_trip latin1 latin1_az09_stable
                    (load_map_file latin1 (Some raw_promo)))).
  exact (proj2 (proj2 (save_load_round_trip latin1 latin1_az09_stable
                         (load_map_file latin1 (Some raw_promo)))) (Some raw_promo)).
Defined.

Lemma loaded_map_normal_witness :
  NoDup (aliases (load_meta latin1
                    {| raw_aliases := Some [VStr (lit "4 Promo"); VStr (lit "2-PROMO");
                                            VStr (lit "2promo"); VInt 7];
                       raw_output_format := None |})).
Proof.
  apply (proj2 (loaded_map_normal latin1 (Some raw_promo)) (lit "PR")).
  now left.
Defined.

Lemma alias_matches_by_normal_form_witness :
  list_in (normalize_token latin1 (VStr (lit "2 PROMO.")))
    (aliases (load_meta latin1
                {| raw_aliases := Some [VStr (lit "2-promo")]; raw_output_format := None |}))
  = true.
Proof.
  apply (proj2 (alias_matches_by_normal_form latin1
                  {| raw_aliases := Some [VStr (lit "2-promo")]; raw_output_format := None |}
                  (VStr (lit "2 PROMO.")))).
  exists (VStr (lit "2-promo")). split; [now left|reflexivity].
Defined.

(** ** The editor *)

Lemma dict_set_in {V} (d : dict V) (k c : list N) (v m : V) :
  In (c, m) (dict_set d k v) -> m = v \/ In (c, m) d.
Proof.
  induction d as [|[k' v'] d IH]; simpl.
  - intros [E|[]]. inversion E. now left.
  - destruct (pystr_eqb k k').
    + intros [E|H]; [inversion E; now left|right; now right].
    + intros [E|H]; [right; now left|].
      destruct (IH H) as [->|H']; [now left|right; now right].
Qed.

Lemma dict_remove_in {V} (d : dict V) (k c : list N) (m : V) :
  In (c, m) (dict_remove d k) -> In (c, m) d.
Proof.
  induction d as [|[k' v'] d IH]; simpl; [easy|].
  destruct (pystr_eqb k k'); [now right|].
  intros [E|H]; [now left|right; now apply IH].
Qed.

Lemma dict_get_in {V} (d : dict V) (k : list N) (v : V) :
  dict_get d k = Some v -> In (k, v) d.
Proof.
  induction d as [|[k' v'] d IH]; simpl; [discriminate|].
  destruct (pystr_eqb k k') eqn:E.
  - apply pystr_eqb_eq in E. subst. intros H. inversion H. now left.
  - intros H. right. now apply IH.
Qed.

Lemma save_keeps_normal (U : UnicodeData) (dir_ok : bool) (cfg : config) :
  normal_map cfg -> normal_map (save_map_file U dir_ok cfg).
Proof.
  intros H. destruct dir_ok; [apply saved_map_normal|exact H].
Qed.

(** X5. The editor keeps the alias lists as [load_map_file] makes them:
    after adding, renaming or removing a category, or saving the aliases
    of one, every alias list is still made of normal forms in strictly
    ascending order, whether or not the file could be written. *)
Theorem editor_keeps_normal (U : UnicodeData) (dir_ok : bool) (cfg : config) :
  normal_map cfg ->
  (forall name aliases, normal_map (add_category_dialog U dir_ok cfg name aliases)) /\
  (forall selection answer, normal_map (edit_category_dialog U dir_ok cfg selection answer)) /\
  (forall selection confirmed, normal_map (remove_category U dir_ok cfg selection confirmed)) /\
  (forall selection text, normal_map (save_aliases U dir_ok cfg selection text)).
Proof.
  intros Hn. split; [|split; [|split]].
  - intros [name|] al; [|exact Hn]. unfold add_category_dialog.
    destruct (is_nil (strip name)); [exact Hn|].
    destruct (dict_has (categories cfg) (strip name)); [exact Hn|].
    apply save_keeps_normal. intros c m Hin. cbn [categories] in Hin.
    apply dict_set_in in Hin. destruct Hin as [->|Hin]; [|now apply (Hn c m)].
    cbn [aliases]. destruct al as [s|]; [|split; [exact I|constructor]].
    destruct (is_nil s); [split; [exact I|constructor]|apply parse_aliases_normal].
  - intros [old|] [new|]; try exact Hn. unfold edit_category_dialog.
    destruct (is_nil (strip new) || pystr_eqb (strip new) old); [exact Hn|].
    destruct (dict_has (categories cfg) (strip new)); [exact Hn|].
    destruct (dict_get (categories cfg) old) as [meta|] eqn:E; [|exact Hn].
    apply save_keeps_normal. intros c m Hin. cbn [categories] in Hin.
    apply dict_set_in in Hin. destruct Hin as [->|Hin].
    + apply (Hn old meta). now apply dict_get_in.
    + apply (Hn c m). now apply dict_remove_in in Hin.
  - intros [cat|] confirmed; [|exact Hn]. unfold remove_category.
    destruct confirmed; [|exact Hn].
    apply save_keeps_normal. intros c m Hin. cbn [categories] in Hin.
    apply (Hn c m). now apply dict_remove_in in Hin.
  - intros [cat|] text; [|exact Hn]. unfold save_aliases.
    apply save_keeps_normal. intros c m Hin. cbn [categories] in Hin.
    set (cats := if dict_has (categories cfg) cat then categories cfg
                 else dict_set (categories cfg) cat
                        {| aliases := []; output_format := lit "numeric" |}) in *.
    assert (Hcats : forall c m, In (c, m) cats ->
                      ascending (aliases m) /\
                      Forall (fun a => forallb is_az09 a = true) (aliases m)).
    { intros c' m' H'. unfold cats in H'.
      destruct (dict_has (categories cfg) cat); [now apply (Hn c' m')|].
      apply dict_set_in in H'. destruct H' as [->|H']; [|now apply (Hn c' m')].
      split; [exact I|constructor]. }
    destruct (dict_get cats cat) as [meta|]; [|now apply (Hcats c m)].
    apply dict_set_in in Hin. destruct Hin as [->|Hin]; [|now apply (Hcats c m)].
    apply parse_aliases_normal.
Qed.

Lemma editor_keeps_normal_witness :
  normal_map (save_aliases latin1 false (load_map_file latin1 (Some raw_promo))
                (Some (lit "PR")) (lit " 2Promo, 2 PROMO ,, Promo-4 ")) /\
  categories (save_aliases latin1 false (load_map_file latin1 (Some raw_promo))
                (Some (lit "PR")) (lit " 2Promo, 2 PROMO ,, Promo-4 "))
  = [(lit "PR", meta_of [lit "2promo"; lit "promo4"])].
Proof.
  split; [|reflexivity].
  apply (proj2 (proj2 (proj2 (editor_keeps_normal latin1 false
                                (load_map_file latin1 (Some raw_promo))
                                (proj1 (loaded_map_normal latin1 (Some raw_promo))))))).
Defined.

(** ** The columns *)

Lemma insert_by_lower_perm (U : UnicodeData) (x : list N) (l : list (list N)) :
  Permutation (insert_by_lower U x l) (x :: l).
Proof.
  induction l as [|y l IH]; simpl; [apply Permutation_refl|].
  destruct (str_ltb (lower U x) (lower U y)); [apply Permutation_refl|].
  apply (Permutation_trans (l' := y :: x :: l)); [now apply perm_skip|apply perm_swap].
Qed.

Lemma sorted_by_lower_perm (U : UnicodeData) (l : list (list N)) :
  Permutation (sorted_by_lower U l) l.
Proof.
  unfold sorted_by_lower.
  assert (H : forall acc, Permutation (fold_left (fun a x => insert_by_lower U x a) l acc)
                            (l ++ acc)).
  { induction l as [|x l IH]; intros acc; [apply Permutation_refl|].
    cbn [fold_left]. apply (Permutation_trans (IH _)).
    apply (Permutation_trans (l' := l ++ x :: acc)).
    - apply Permutation_app_head. apply insert_by_lower_perm.
    - apply Permutation_sym. apply Permutation_middle. }
  specialize (H []). now rewrite app_nil_r in H.
Qed.

Lemma list_in_sorted_by_lower (U : UnicodeData) (c : list N) (l : list (list N)) :
  list_in c (sorted_by_lower U l) = list_in c l.
Proof.
  apply eq_true_iff_eq. rewrite !list_in_In. split; apply Permutation_in.
  - apply sorted_by_lower_perm.
  - apply Permutation_sym, sorted_by_lower_perm.
Qed.

(** X6. The list of categories that the editor shows is the list of the
    category columns of the workbook, in the same order. *)
Theorem refresh_list_is_out_cols (U : UnicodeData) (cfg : config) :
  refresh_list U cfg = out_cols U cfg.
Proof.
  unfold refresh_list, out_cols, keys.
  rewrite (filter_ext _ (fun c => list_in c (map fst (categories cfg)))
             (fun c => list_in_sorted_by_lower U c _)).
  reflexivity.
Qed.

Lemma out_cols_in (U : UnicodeData) (cfg : config) (c : list N) :
  In c (out_cols U cfg) <-> In c (keys (categories cfg)).
Proof.
  unfold out_cols, keys. rewrite in_app_iff, !filter_In, list_in_In. split.
  - intros [[_ H]|[H _]]; [exact H|].
    revert H. apply Permutation_in, sorted_by_lower_perm.
  - intros H.
    destruct (list_in c (filter (fun c0 => list_in c0 (map fst (categories cfg)))
                           (priorities cfg))) eqn:E.
    + left. apply list_in_In in E. apply filter_In in E.
      destruct E as [E1 E2]. split; [exact E1|now apply list_in_In in E2].
    + right. split; [|reflexivity].
      revert H. apply Permutation_in, Permutation_sym, sorted_by_lower_perm.
Qed.

(** X7. The category columns are the configured categories: every
    category has a column and every column is a category, whatever the
    priorities name; when neither list repeats a name no column is
    repeated, so that the columns are the categories in another order. *)
Theorem out_cols_are_the_categories (U : UnicodeData) (cfg : config) :
  (forall c, In c (out_cols U cfg) <-> In c (keys (categories cfg))) /\
  (NoDup (priorities cfg) -> NoDup (keys (categories cfg)) ->
   Permutation (out_cols U cfg) (keys (categories cfg)) /\ NoDup (out_cols U cfg)).
Proof.
  split; [intros c; apply out_cols_in|].
  intros Hp Hk.
  assert (Hn : NoDup (out_cols U cfg)).
  { unfold out_cols. apply NoDup_app.
    - now apply NoDup_filter.
    - apply NoDup_filter.
      apply (Permutation_NoDup (Permutation_sym (sorted_by_lower_perm U _))). exact Hk.
    - intros a Ha Hb. apply filter_In in Hb. destruct Hb as [_ Hb].
      apply negb_true_iff in Hb. apply list_in_In in Ha. congruence. }
  split; [|exact Hn].
  apply NoDup_Permutation; [exact Hn|exact Hk|]. intros c. apply out_cols_in.
Qed.

Lemma out_cols_are_the_categories_witness :
  Permutation (out_cols latin1 cfg_capax) (keys (categories cfg_capax)) /\
  out_cols latin1 (load_map_file latin1 (Some raw_promo)) = [lit "PR"].
Proof.
  split; [|reflexivity].
  apply (proj2 (out_cols_are_the_categories latin1 cfg_capax)).
  - repeat constructor; simpl; intuition discriminate.
  - repeat constructor; simpl; intuition discriminate.
Defined.

(** ** Editing and the resolution of SKUs *)

Lemma dict_set_fresh {V} (d : dict V) (k : list N) (v : V) :
  dict_has d k = false -> dict_set d k v = d ++ [(k, v)].
Proof.
  unfold dict_has. induction d as [|[k' v'] d IH]; simpl; [reflexivity|].
  destruct (pystr_eqb k k'); [discriminate|]. intros H. now rewrite IH.
Qed.

Lemma initial_category_app_mapped (sku : list N) (cats more : list (list N * category_meta)) :
  mapped cats sku -> initial_category sku (cats ++ more) = initial_category sku cats.
Proof.
  intros (cat & meta & Hin & Hal).
  induction cats as [|[c m] cats IH]; [destruct Hin|].
  cbn [List.app initial_category].
  destruct (list_in sku (aliases m)) eqn:E; [reflexivity|].
  apply IH. destruct Hin as [H|H]; [|exact H]. inversion H. subst. congruence.
Qed.

(** X8. Adding a category never changes the category of a SKU that was
    already mapped: the new category comes last in the map, and the first
    category that lists the SKU wins. *)
Theorem add_keeps_resolution (U : UnicodeData) (dir_ok : bool) (cfg : config)
    (name aliases_text : option (list N)) (sku : list N) :
  az09_stable U -> normal_map cfg -> mapped (categories cfg) sku ->
  initial_category sku (categories (add_category_dialog U dir_ok cfg name aliases_text))
  = initial_category sku (categories cfg).
Proof.
  intros HU Hn Hm. unfold add_category_dialog.
  destruct name as [name|]; [|reflexivity].
  destruct (is_nil (strip name)); [reflexivity|].
  destruct (dict_has (categories cfg) (strip name)) eqn:Eh; [reflexivity|].
  rewrite save_normal_fixed; [|exact HU|].
  - cbn [categories]. rewrite (dict_set_fresh _ _ _ Eh).
    now apply initial_category_app_mapped.
  - intros c m Hin. cbn [categories] in Hin.
    apply dict_set_in in Hin. destruct Hin as [->|Hin]; [|now apply (Hn c m)].
    cbn [aliases]. destruct aliases_text as [s|]; [|split; [exact I|constructor]].
    destruct (is_nil s); [split; [exact I|constructor]|apply parse_aliases_normal].
Qed.

(** Adding a category [RAMPA] that also lists [2promo] leaves the SKU
    [2Promo] in [PR]. *)
Lemma add_keeps_resolution_witness :
  keys (categories (add_category_dialog latin1 true (load_map_file latin1 (Some raw_promo))
                      (Some (lit " RAMPA ")) (Some (lit "Rampa 1, 2promo"))))
  = [lit "PR"; lit "RAMPA"] /\
  initial_category (lit "2promo")
    (categories (add_category_dialog latin1 true (load_map_file latin1 (Some raw_promo))
                   (Some (lit " RAMPA ")) (Some (lit "Rampa 1, 2promo"))))
  = lit "PR".
Proof.
  split; [reflexivity|].
  rewrite (add_keeps_resolution latin1 true (load_map_file latin1 (Some raw_promo))
             (Some (lit " RAMPA ")) (Some (lit "Rampa 1, 2promo")) (lit "2promo")
             latin1_az09_stable (proj1 (loaded_map_normal latin1 (Some raw_promo)))).
  - reflexivity.
  - exists (lit "PR"), (meta_of [[]; lit "2promo"; lit "4promo"]).
    split; [now left|reflexivity].
Defined.

Lemma keys_dict_set {V} (d : dict V) (k c : list N) (v : V) :
  In c (keys (dict_set d k v)) <-> c = k \/ In c (keys d).
Proof.
  unfold keys. induction d as [|[k' v'] d IH]; simpl.
  - intuition.
  - destruct (pystr_eqb k k') eqn:E; simpl.
    + apply pystr_eqb_eq in E. subst. intuition.
    + rewrite IH. intuition.
Qed.

Lemma keys_dict_remove {V} (d : dict V) (k c : list N) :
  NoDup (keys d) -> (In c (keys (dict_remove d k)) <-> In c (keys d) /\ c <> k).
Proof.
  unfold keys. induction d as [|[k' v'] d IH]; simpl; intros Hn.
  - intuition.
  - inversion Hn as [|x l Hx Hl]. subst.
    destruct (pystr_eqb k k') eqn:E.
    + apply pystr_eqb_eq in E. subst k'. split.
      * intros H. split; [now right|]. intros ->. contradiction.
      * intros [[H|H] Hne]; [now elim Hne|exact H].
    + simpl. rewrite (IH Hl). split.
      * intros [H|[H1 H2]]; [|tauto]. subst c. split; [now left|].
        intros ->. now rewrite pystr_eqb_refl in E.
      * intros [[H|H] Hne]; [now left|right; tauto].
Qed.

Lemma keys_saved (U : UnicodeData) (dir_ok : bool) (cfg : config) :
  keys (categories (save_map_file U dir_ok cfg)) = keys (categories cfg).
Proof.
  destruct dir_ok; [|reflexivity]. unfold keys. cbn [save_map_file categories].
  rewrite map_map. reflexivity.
Qed.

Lemma dict_has_keys {V} (d : dict V) (k : list N) :
  dict_has d k = true <-> In k (keys d).
Proof.
  unfold dict_has, keys. induction d as [|[k' v'] d IH]; simpl; [easy|].
  destruct (pystr_eqb k k') eqn:E.
  - apply pystr_eqb_eq in E. subst. intuition.
  - rewrite IH. split; [now right|]. intros [H|H]; [|exact H].
    subst. now rewrite pystr_eqb_refl in E.
Qed.

(** X9. Renaming a category does not touch the special rules.  When the
    category named by [enc_capa_category] is renamed, the rule keeps the
    old name: the new name is a column and the old one no longer is.  A
    variation with "encosto" and "capaextra" still resolves to the old
    name, which has no column; and the items of the renamed category are
    no longer counted with a cover: their output is numeric, whatever
    the variation says of a cover. *)
Theorem rename_leaves_special_rules (U : UnicodeData) (dir_ok : bool) (cfg : config)
    (old answer : list N) :
  NoDup (keys (categories cfg)) ->
  In old (keys (categories cfg)) ->
  strip answer <> [] -> strip answer <> old ->
  ~ In (strip answer) (keys (categories cfg)) ->
  enc_capa_category cfg = Some old ->
  In (strip answer)
     (out_cols U (edit_category_dialog U dir_ok cfg (Some old) (Some answer))) /\
  ~ In old (out_cols U (edit_category_dialog U dir_ok cfg (Some old) (Some answer))) /\
  enc_capa_category (edit_category_dialog U dir_ok cfg (Some old) (Some answer)) = Some old /\
  (forall sku variation qty,
     str_in (lit "encosto") (normalize_token U (VStr variation)) = true ->
     str_in (lit "capaextra") (normalize_token U (VStr variation)) = true ->
     category (snd (compute_outputs_single_item U sku variation qty
                      (edit_category_dialog U dir_ok cfg (Some old) (Some answer))))
     = old) /\
  (forall sku variation qty,
     str_in (lit "encosto") (normalize_token U (VStr variation)) = false ->
     initial_category (normalize_token U (VStr sku))
       (categories (edit_category_dialog U dir_ok cfg (Some old) (Some answer)))
     = strip answer ->
     exists z,
       fst (compute_outputs_single_item U sku variation qty
              (edit_category_dialog U dir_ok cfg (Some old) (Some answer)))
       = [(strip answer, {| o_type := numeric; o_value := z |})]).
Proof.
  intros Hn Hold Hne Hneq Hfresh Hcapa.
  assert (Hrule : enc_capa_category
                    (edit_category_dialog U dir_ok cfg (Some old) (Some answer))
                  = Some old).
  { unfold edit_category_dialog.
    destruct (is_nil (strip answer) || pystr_eqb (strip answer) old); [exact Hcapa|].
    destruct (dict_has (categories cfg) (strip answer)); [exact Hcapa|].
    destruct (dict_get (categories cfg) old); [|exact Hcapa].
    now destruct dir_ok. }
  split; [|split; [|split; [exact Hrule|split]]].
  - unfold edit_category_dialog.
    destruct (strip answer) as [|a new] eqn:Enew; [now elim Hne|].
    cbn [is_nil orb].
    destruct (pystr_eqb (a :: new) old) eqn:E1;
      [apply pystr_eqb_eq in E1; now elim Hneq|].
    destruct (dict_has (categories cfg) (a :: new)) eqn:E2;
      [apply dict_has_keys in E2; now elim Hfresh|].
    apply dict_has_keys in Hold. unfold dict_has in Hold.
    destruct (dict_get (categories cfg) old) as [meta|]; [|discriminate].
    apply out_cols_in. rewrite keys_saved. cbn [categories].
    apply keys_dict_set. now left.
  - unfold edit_category_dialog.
    destruct (strip answer) as [|a new] eqn:Enew; [now elim Hne|].
    cbn [is_nil orb].
    destruct (pystr_eqb (a :: new) old) eqn:E1;
      [apply pystr_eqb_eq in E1; now elim Hneq|].
    destruct (dict_has (categories cfg) (a :: new)) eqn:E2;
      [apply dict_has_keys in E2; now elim Hfresh|].
    apply dict_has_keys in Hold. unfold dict_has in Hold.
    destruct (dict_get (categories cfg) old) as [meta|]; [|discriminate].
    rewrite out_cols_in, keys_saved. cbn [categories]. rewrite keys_dict_set.
    intros [H|H]; [now elim Hneq|].
    apply (keys_dict_remove _ old old Hn) in H. now destruct H.
  - intros sku variation qty He Hc.
    unfold compute_outputs_single_item. cbn [snd category].
    unfold compute_category_from_variation. rewrite He, Hc. cbn [andb].
    now rewrite Hrule.
  - intros sku variation qty He Hinit.
    unfold compute_outputs_single_item. cbn [fst].
    unfold compute_category_from_variation. rewrite He. cbn [andb].
    rewrite Hinit, Hrule. cbn [get_or truthy].
    destruct (strip answer) as [|a new] eqn:Enew; [now elim Hne|].
    cbn [is_nil negb].
    destruct (pystr_eqb (a :: new) old) eqn:E1;
      [apply pystr_eqb_eq in E1; now elim Hneq|].
    cbn [andb]. eexists. reflexivity.
Qed.

(** [CAPAX], the counted-marker category of [cfg_capax], renamed "CAPA":
    the item of order B, counted with a cover before, is now two units. *)
Lemma rename_leaves_special_rules_witness :
  out_cols latin1 (edit_category_dialog latin1 true cfg_capax
                     (Some (lit "CAPAX")) (Some (lit " CAPA ")))
  = [lit "R70"; lit "CAPA"] /\
  fst (compute_outputs_single_item latin1 (lit "capax1") (lit "Capa Extra") 2 cfg_capax)
  = [(lit "CAPAX", {| o_type := enc_capa; o_value := 2 |})] /\
  fst (compute_outputs_single_item latin1 (lit "capax1") (lit "Capa Extra") 2
         (edit_category_dialog latin1 true cfg_capax
            (Some (lit "CAPAX")) (Some (lit " CAPA "))))
  = [(lit "CAPA", {| o_type := numeric; o_value := 2 |})] /\
  ~ In (lit "CAPAX")
      (out_cols latin1 (edit_category_dialog latin1 true cfg_capax
                          (Some (lit "CAPAX")) (Some (lit " CAPA ")))).
Proof.
  split; [reflexivity|]. split; [reflexivity|]. split; [reflexivity|].
  apply (rename_leaves_special_rules latin1 true cfg_capax (lit "CAPAX") (lit " CAPA ")).
  - repeat constructor; simpl; intuition discriminate.
  - simpl. right. now left.
  - discriminate.
  - discriminate.
  - simpl. intuition discriminate.
  - reflexivity.
Defined.

(** X10. Removing a category removes its column and its place in the
    priorities, and no other column; the special rules stay as they
    were. *)
Theorem remove_drops_column (U : UnicodeData) (dir_ok : bool) (cfg : config) (cat : list N) :
  NoDup (keys (categories cfg)) ->
  (forall c, In c (out_cols U (remove_category U dir_ok cfg (Some cat) true))
             <-> In c (out_cols U cfg) /\ c <> cat) /\
  ~ In cat (priorities (remove_category U dir_ok cfg (Some cat) true)) /\
  enc_capa_category (remove_category U dir_ok cfg (Some cat) true) = enc_capa_category cfg /\
  enc_base_category (remove_category U dir_ok cfg (Some cat) true) = enc_base_category cfg.
Proof.
  intros Hn. unfold remove_category. split; [|split; [|split]].
  - intros c. rewrite !out_cols_in, keys_saved. cbn [categories].
    now apply keys_dict_remove.
  - destruct dir_ok; cbn [save_map_file priorities]; intros H;
      apply filter_In in H; destruct H as [_ H];
      now rewrite pystr_eqb_refl in H.
  - now destruct dir_ok.
  - now destruct dir_ok.
Qed.

Lemma remove_drops_column_witness :
  out_cols latin1 (remove_category latin1 true cfg_capax (Some (lit "R70")) true)
  = [lit "CAPAX"] /\
  ~ In (lit "R70") (out_cols latin1 (remove_category latin1 true cfg_capax (Some (lit "R70")) true)).
Proof.
  split; [reflexivity|].
  intros H.
  apply (proj1 (remove_drops_column latin1 true cfg_capax (lit "R70")
                  ltac:(repeat constructor; simpl; intuition discriminate))) in H.
  now destruct H.
Defined.

(** ** The detail row against its blocks *)

Lemma dict_set_keys_NoDup {V} (d : dict V) (k : list N) (v : V) :
  NoDup (keys d) -> NoDup (keys (dict_set d k v)).
Proof.
  intros Hn. destruct (dict_has d k) eqn:E.
  - assert (Hk : keys (dict_set d k v) = keys d).
    { unfold dict_has in E. unfold keys. clear Hn.
      induction d as [|[k' v'] d IH]; simpl in *; [discriminate|].
      destruct (pystr_eqb k k') eqn:E'; simpl.
      - apply pystr_eqb_eq in E'. now subst.
      - now rewrite IH. }
    now rewrite Hk.
  - rewrite (dict_set_fresh d k v E). unfold keys. rewrite map_app. simpl.
    apply NoDup_app; [exact Hn|repeat constructor; easy|].
    intros a Ha [<-|[]]. apply dict_has_keys in Ha. congruence.
Qed.

Lemma add_output_fold (c : list N) (outs : list (list N * output)) :
  forall a : dict Z * Z,
    NoDup (keys (fst a)) ->
    NoDup (keys (fst (fold_left add_output outs a))) /\
    dict_get (fst (fold_left add_output outs a)) c
    = match units_of c outs with
      | [] => dict_get (fst a) c
      | l => Some (get_or (dict_get (fst a) c) 0 + zsum l)%Z
      end /\
    snd (fold_left add_output outs a) = (snd a + zsum (counted_of outs))%Z.
Proof.
  induction outs as [|[col o] outs IH]; intros a Hn.
  - cbn. repeat split; [exact Hn|lia].
  - cbn [fold_left].
    assert (Hn' : NoDup (keys (fst (add_output a (col, o))))).
    { unfold add_output. cbn [fst snd]. destruct (o_type o); cbn [fst]; [|exact Hn].
      now apply dict_set_keys_NoDup. }
    destruct (IH _ Hn') as (H1 & H2 & H3). split; [exact H1|]. split.
    + rewrite H2. unfold units_of. cbn [flat_map fst snd]. fold (units_of c outs).
      unfold add_output. cbn [fst snd].
      destruct (o_type o); cbn [fst snd List.app].
      * rewrite dict_get_set.
        destruct (pystr_eqb col c) eqn:E.
        -- apply pystr_eqb_eq in E. subst col. rewrite pystr_eqb_refl.
           cbn [List.app get_or]. destruct (units_of c outs) as [|z l].
           ++ unfold zsum. simpl. f_equal. lia.
           ++ unfold zsum. simpl. f_equal. lia.
        -- assert (E' : pystr_eqb c col = false).
           { destruct (pystr_eqb c col) eqn:E2; [|reflexivity].
             apply pystr_eqb_eq in E2. subst. now rewrite pystr_eqb_refl in E. }
           rewrite E'. reflexivity.
      * reflexivity.
    + rewrite H3. unfold counted_of. cbn [flat_map fst snd]. fold (counted_of outs).
      unfold add_output. cbn [fst snd].
      destruct (o_type o); cbn [fst snd List.app]; [reflexivity|].
      unfold zsum. simpl. lia.
Qed.

Lemma process_blocks_accum (U : UnicodeData) (cfg : config) (order : pyval) (c : list N)
    (blocks : list (list N)) :
  forall a,
    NoDup (keys (accum_numeric a)) ->
    NoDup (keys (accum_numeric (fold_left (process_block U cfg order) blocks a))) /\
    dict_get (accum_numeric (fold_left (process_block U cfg order) blocks a)) c
    = match units_in U cfg c blocks with
      | [] => dict_get (accum_numeric a) c
      | l => Some (get_or (dict_get (accum_numeric a) c) 0 + zsum l)%Z
      end /\
    accum_enc_capa (fold_left (process_block U cfg order) blocks a)
    = (accum_enc_capa a + counted_in U cfg blocks)%Z.
Proof.
  induction blocks as [|blk blocks IH]; intros a Hn.
  - cbn. repeat split; [exact Hn|lia].
  - cbn [fold_left].
    destruct (add_output_fold c (fst (block_item U cfg blk))
                (accum_numeric a, accum_enc_capa a) Hn) as (H1 & H2 & H3).
    cbn [fst snd] in H1, H2, H3.
    assert (Ha : accum_numeric (process_block U cfg order a blk)
                 = fst (fold_left add_output (fst (block_item U cfg blk))
                          (accum_numeric a, accum_enc_capa a))) by reflexivity.
    assert (Hc : accum_enc_capa (process_block U cfg order a blk)
                 = snd (fold_left add_output (fst (block_item U cfg blk))
                          (accum_numeric a, accum_enc_capa a))) by reflexivity.
    destruct (IH (process_block U cfg order a blk)) as (G1 & G2 & G3);
      [now rewrite Ha|].
    split; [exact G1|]. split.
    + rewrite G2, Ha, H2. unfold units_in. cbn [flat_map].
      fold (units_in U cfg c blocks).
      destruct (units_of c (fst (block_item U cfg blk))) as [|z l];
        [reflexivity|].
      destruct (units_in U cfg c blocks) as [|z' l'].
      * now rewrite app_nil_r.
      * cbn [List.app get_or]. f_equal.
        change (z :: l ++ z' :: l') with ((z :: l) ++ z' :: l').
        rewrite zsum_app. lia.
    + rewrite G3, Hc, H3. unfold counted_in. cbn [flat_map]. rewrite zsum_app. lia.
Qed.

Lemma fold_blank_get (cols : list (list N)) (c : list N) :
  forall d : dict pyval,
    dict_get (fold_left (fun b k => dict_set b k (VStr [])) cols d) c
    = if list_in c cols then Some (VStr []) else dict_get d c.
Proof.
  unfold list_in. induction cols as [|k cols IH]; intros d; [reflexivity|].
  cbn [fold_left existsb]. rewrite IH, dict_get_set.
  destruct (existsb (pystr_eqb c) cols); [now rewrite orb_true_r|].
  rewrite orb_false_r. reflexivity.
Qed.

Lemma fold_numbers_get (l : dict Z) (c : list N) :
  NoDup (keys l) ->
  forall d : dict pyval,
    dict_get (fold_left (fun b cv => dict_set b (fst cv) (VInt (snd cv))) l d) c
    = match dict_get l c with
      | Some z => Some (VInt z)
      | None => dict_get d c
      end.
Proof.
  induction l as [|[k v] l IH]; intros Hn d; [reflexivity|].
  inversion Hn as [|x xs Hk Hl]. subst.
  cbn [fold_left dict_get fst snd]. rewrite (IH Hl), dict_get_set.
  destruct (pystr_eqb c k) eqn:E; [|reflexivity].
  apply pystr_eqb_eq in E. subst c.
  destruct (dict_get l k) eqn:G; [|reflexivity].
  elim Hk. apply dict_has_keys. unfold dict_has. now rewrite G.
Qed.

Lemma list_in_true (x : list N) (l : list (list N)) : In x l -> list_in x l = true.
Proof.
  intros H. apply existsb_exists. exists x. split; [exact H|apply pystr_eqb_refl].
Qed.

(** The cell of a category column, from the accumulators of the row. *)
Lemma detail_row_cell (U : UnicodeData) (cfg : config) (r : order_row) (a : accumulators)
    (c : list N) :
  In c (out_cols U cfg) -> NoDup (keys (accum_numeric a)) ->
  cell (detail_row U cfg r a) c
  = if pystr_eqb c (lit "ENC_CAPA") && (accum_enc_capa a >? 0)%Z
    then VStr (str_of_int (accum_enc_capa a) ++ lit " + C")
    else match dict_get (accum_numeric a) c with
         | Some z => VInt z
         | None => VStr []
         end.
Proof.
  intros Hc Hn. unfold detail_row, cell.
  set (base1 := [(lit "order_sn", order_sn r); _; _; _]).
  assert (H3 : dict_get (fold_left (fun b cv => dict_set b (fst cv) (VInt (snd cv)))
                           (accum_numeric a)
                           (fold_left (fun b k => dict_set b k (VStr [])) (out_cols U cfg) base1))
                 c
               = Some (match dict_get (accum_numeric a) c with
                       | Some z => VInt z
                       | None => VStr []
                       end)).
  { rewrite (fold_numbers_get _ _ Hn), fold_blank_get, (list_in_true _ _ Hc).
    now destruct (dict_get (accum_numeric a) c). }
  destruct (accum_enc_capa a >? 0)%Z.
  - rewrite dict_get_set. destruct (pystr_eqb c (lit "ENC_CAPA")); [reflexivity|].
    cbn [andb]. now rewrite H3.
  - rewrite andb_false_r. now rewrite H3.
Qed.

Lemma process_row_cell (U : UnicodeData) (cfg : config)
    (diags : list (pyval * diag_record)) (r : order_row) (c : list N) :
  In c (out_cols U cfg) ->
  cell (fst (process_row U cfg diags r)) c
  = expected_cell U cfg c (split_blocks U (product_info r)).
Proof.
  intros Hc. unfold process_row. cbn [fst].
  set (a0 := {| accum_numeric := []; accum_enc_capa := 0; per_block_variations := [];
                per_block_sku := []; diag_rows := diags |}).
  destruct (process_blocks_accum U cfg (order_sn r) c (split_blocks U (product_info r)) a0)
    as (H1 & H2 & H3); [constructor|].
  rewrite (detail_row_cell U cfg r _ c Hc H1), H2, H3.
  unfold expected_cell. cbn [a0 accum_numeric accum_enc_capa dict_get get_or].
  rewrite Z.add_0_l.
  destruct (pystr_eqb c (lit "ENC_CAPA") &&
            (counted_in U cfg (split_blocks U (product_info r)) >? 0)%Z); [reflexivity|].
  destruct (units_in U cfg c (split_blocks U (product_info r))); reflexivity.
Qed.



(** ** The diagnostic rows *)

Lemma process_blocks_diag (U : UnicodeData) (cfg : config) (order : pyval)
    (blocks : list (list N)) :
  forall a,
    diag_rows (fold_left (process_block U cfg order) blocks a)
    = diag_rows a ++ map (fun blk => (order, snd (block_item U cfg blk))) blocks.
Proof.
  induction blocks as [|blk blocks IH]; intros a.
  - cbn. now rewrite app_nil_r.
  - cbn [fold_left map]. rewrite IH. cbn [process_block diag_rows].
    now rewrite <- app_assoc.
Qed.

Lemma process_rows_diag (U : UnicodeData) (cfg : config) (rows : list order_row) :
  forall diags,
    length (fst (process_rows U cfg diags rows)) = length rows /\
    snd (process_rows U cfg diags rows)
    = diags ++ flat_map (fun r => map (fun blk => (order_sn r, snd (block_item U cfg blk)))
                                   (split_blocks U (product_info r))) rows.
Proof.
  induction rows as [|r rows IH]; intros diags.
  - cbn. now rewrite app_nil_r.
  - cbn [process_rows fst snd flat_map length].
    destruct (IH (snd (process_row U cfg diags r))) as [H1 H2].
    split; [now rewrite H1|].
    rewrite H2. unfold process_row. cbn [snd].
    rewrite process_blocks_diag. cbn [diag_rows]. now rewrite <- app_assoc.
Qed.


(** ** Quantities are never negative *)

Lemma KIT_RE_capture (U : UnicodeData) : captures_digits U (KIT_RE U).
Proof.
  exists [WordB (isword U)], [WordB (isword U)]. repeat split.
Qed.

Lemma int_of_group_nonneg (U : UnicodeData) (pat : list node) (s : list N)
    (m : rematch) (z : Z) :
  digits_plain U -> captures_digits U pat -> search pat s = Some m ->
  int_of_group U m = Some z -> (0 <= z)%Z.
Proof.
  intros HU Hp Hm.
  destruct (search_captures_digits U pat s m Hp Hm) as (g & Hg & Hne & Hd).
  unfold int_of_group. rewrite Hg. now apply py_int_digits_nonneg.
Qed.

Lemma quant_kit_nonneg (U : UnicodeData) (variation : pyval) :
  digits_plain U -> (0 <= quant_kit_from_variation U variation)%Z.
Proof.
  intros HU. unfold quant_kit_from_variation.
  destruct variation as [| | | |s]; try lia.
  destruct (is_nil (strip s)); [lia|].
  destruct (search (KIT_RE U) s) as [m|] eqn:Em; [|lia].
  destruct (int_of_group U m) as [z|] eqn:Ez; [|lia].
  exact (int_of_group_nonneg U _ s m z HU (KIT_RE_capture U) Em Ez).
Qed.

Lemma first_quantity_nonneg (U : UnicodeData) (pats : list (list node)) (text : list N) (n : Z) :
  digits_plain U -> (forall pat, In pat pats -> captures_digits U pat) ->
  first_quantity U pats text = Some n -> (0 <= n)%Z.
Proof.
  intros HU. induction pats as [|pat pats IH]; intros Hp; [discriminate|].
  cbn [first_quantity].
  assert (Hrest : first_quantity U pats text = Some n -> (0 <= n)%Z).
  { apply IH. intros p Hin. apply Hp. now right. }
  destruct (search pat text) as [m|] eqn:Em; [|exact Hrest].
  destruct (int_of_group U m) as [z|] eqn:Ez; [|exact Hrest].
  intros H. inversion H. subst z.
  exact (int_of_group_nonneg U pat text m n HU (Hp pat (or_introl eq_refl)) Em Ez).
Qed.

Lemma extract_quantity_nonneg (U : UnicodeData) (text : pyval) (fallback : option Z) :
  digits_plain U -> (0 <= get_or fallback 1)%Z ->
  (0 <= extract_quantity_from_text U text fallback)%Z.
Proof.
  intros HU Hf. unfold extract_quantity_from_text.
  assert (Hd : (0 <= match fallback with None => 1 | Some f => f end)%Z)
    by (destruct fallback; simpl in Hf; lia).
  destruct text as [| | | |s]; try exact Hd.
  destruct (first_quantity U (QTD_PATTERNS U) s) as [n|] eqn:E; [|exact Hd].
  apply (first_quantity_nonneg U (QTD_PATTERNS U) s n HU); [|exact E].
  intros pat. apply QTD_PATTERNS_capture.
Qed.

Lemma block_item_counts (U : UnicodeData) (cfg : config) (blk : list N) :
  digits_plain U ->
  (0 <= kit_qty (snd (block_item U cfg blk)))%Z /\
  (1 <= kits_purchased (snd (block_item U cfg blk)))%Z /\
  unidades (snd (block_item U cfg blk))
  = (kit_qty (snd (block_item U cfg blk)) * kits_purchased (snd (block_item U cfg blk)))%Z /\
  forall o, In o (fst (block_item U cfg blk)) -> (0 <= o_value (snd o))%Z.
Proof.
  intros HU. unfold block_item, compute_outputs_single_item.
  cbn [snd fst kit_qty kits_purchased unidades].
  set (q := extract_quantity_from_text U (VStr blk) (Some 1%Z)).
  set (kq := quant_kit_from_variation U _).
  assert (Hq : (0 <= q)%Z) by (apply extract_quantity_nonneg; [exact HU|simpl; lia]).
  assert (Hk : (0 <= kq)%Z) by now apply quant_kit_nonneg.
  assert (Hp : (1 <= (if truthy (VInt q) then q else 1))%Z).
  { cbn [truthy]. destruct (q =? 0)%Z eqn:E; cbn [negb]; [lia|].
    apply Z.eqb_neq in E. lia. }
  split; [exact Hk|]. split; [exact Hp|]. split; [reflexivity|].
  intros o Ho.
  destruct (truthy (VStr _)); [|destruct Ho].
  destruct (_ && _); destruct Ho as [<-|[]]; cbn [snd o_value]; nia.
Qed.

Lemma zsum_nonneg (l : list Z) : (forall z, In z l -> (0 <= z)%Z) -> (0 <= zsum l)%Z.
Proof.
  induction l as [|x l IH]; intros H; [cbn; lia|].
  unfold zsum. cbn [fold_right]. fold (zsum l).
  pose proof (H x (or_introl eq_refl)). assert (0 <= zsum l)%Z; [|lia].
  apply IH. intros z Hz. apply H. now right.
Qed.

Lemma detail_column_expected (U : UnicodeData) (cfg : config)
    (rows : list order_row) (c : list N) :
  In c (out_cols U cfg) ->
  column (detail_rows U cfg rows) c
  = map (fun r => expected_cell U cfg c (split_blocks U (product_info r))) rows.
Proof.
  intros Hc. unfold detail_rows. generalize (@nil (pyval * diag_record)).
  induction rows as [|r rows IH]; intros diags; [reflexivity|].
  cbn [process_rows fst column map]. f_equal.
  - now apply process_row_cell.
  - apply IH.
Qed.

(** X13. In every diagnostic row the quantity of the kit is not
    negative, at least one kit is purchased (a quantity of 0 read from
    the block counts as one kit), and the units are their product; no
    number in a category column of the detail table is negative. *)
Theorem counts_never_negative (U : UnicodeData) (HU : digits_plain U)
    (cfg : config) (rows : list order_row) :
  (forall d, In d (diagnostics U cfg rows) ->
     (0 <= kit_qty (snd d))%Z /\ (1 <= kits_purchased (snd d))%Z /\
     unidades (snd d) = (kit_qty (snd d) * kits_purchased (snd d))%Z) /\
  (forall c z, In c (out_cols U cfg) ->
     In (VInt z) (column (detail_rows U cfg rows) c) -> (0 <= z)%Z).
Proof.
  split.
  - intros d Hd. unfold diagnostics in Hd.
    rewrite (proj2 (process_rows_diag U cfg rows [])) in Hd. cbn [List.app] in Hd.
    apply in_flat_map in Hd. destruct Hd as (r & _ & Hd).
    apply in_map_iff in Hd. destruct Hd as (blk & <- & _). cbn [snd].
    destruct (block_item_counts U cfg blk HU) as (H1 & H2 & H3 & _). auto.
  - intros c z Hc Hz. rewrite (detail_column_expected U cfg rows c Hc) in Hz.
    apply in_map_iff in Hz. destruct Hz as (r & Hz & _).
    unfold expected_cell in Hz.
    destruct (_ && _); [discriminate|].
    destruct (is_nil _); [discriminate|]. inversion Hz. subst z.
    apply zsum_nonneg. intros u Hu. unfold units_in in Hu.
    apply in_flat_map in Hu. destruct Hu as (blk & _ & Hu).
    unfold units_of in Hu. apply in_flat_map in Hu. destruct Hu as (o & Ho & Hu).
    destruct (block_item_counts U cfg blk HU) as (_ & _ & _ & H4).
    specialize (H4 o Ho).
    destruct (o_type (snd o)); [|destruct Hu].
    destruct (pystr_eqb (fst o) c); [|destruct Hu].
    destruct Hu as [<-|[]]. exact H4.
Qed.

(** A block with "Quantity: 0": one kit of two units. *)
Lemma counts_never_negative_witness :
  diagnostics latin1 cfg_capa
    [{| order_sn := VStr (lit "A");
        product_info := VStr (lit "[1] SKU Reference No. : R70A; Variation Name : 2 u; Quantity: 0") |}]
  = [(VStr (lit "A"),
      {| sku_raw := lit "R70A"; sku_norm := lit "r70a"; category := lit "R70";
         kit_qty := 2; kits_purchased := 1; unidades := 2;
         variation_seen := lit "2 u" |})] /\
  (forall d, In d (diagnostics latin1 cfg_capa
                     [{| order_sn := VStr (lit "A");
                         product_info := VStr (lit "[1] SKU Reference No. : R70A; Variation Name : 2 u; Quantity: 0") |}]) ->
     (1 <= kits_purchased (snd d))%Z).
Proof.
  split; [reflexivity|].
  intros d Hd.
  apply (proj1 (counts_never_negative latin1 latin1_digits_plain cfg_capa _) d Hd).
Defined.

(** ** The variation of a block and the overrides *)

Lemma latin1_ascii_plain : ascii_plain latin1.
Proof.
  intros s Hs. split; [|reflexivity]. cbn [nfkd latin1].
  induction s as [|c s IH]; [reflexivity|]. cbn [forallb] in Hs.
  apply andb_true_iff in Hs. destruct Hs as [Hc Hs]. cbn [flat_map].
  rewrite (IH Hs). unfold latin1_decomposition.
  unfold is_ascii in Hc. apply N.ltb_lt in Hc.
  assert (H : (c <? 160)%N = true) by (apply N.ltb_lt; lia). now rewrite H.
Qed.

Lemma forallb_filter {A} (p q : A -> bool) (l : list A) :
  forallb p l = true -> forallb p (filter q l) = true.
Proof.
  rewrite !forallb_forall. intros H x Hx. apply filter_In in Hx. now apply H.
Qed.

(** The normal form of an ASCII text has only lowered characters of the
    text. *)
Lemma normalize_ascii_in (U : UnicodeData) (v : list N) (x : N) :
  ascii_plain U -> forallb is_ascii v = true ->
  In x (normalize_token U (VStr v)) -> exists c, In c v /\ tolower U c = x.
Proof.
  intros HU Hv. cbn [normalize_token]. unfold keep_az09, remove_spaces, strip_accents.
  rewrite (proj1 (HU v Hv)).
  rewrite (proj2 (HU (filter (fun c => N.eqb (combining U c) 0) v)
                    (forallb_filter _ _ _ Hv))).
  intros H. apply filter_In in H. destruct H as [H _].
  apply filter_In in H. destruct H as [H _].
  apply in_map_iff in H. destruct H as (c & <- & H).
  apply filter_In in H. destruct H as [H _]. now exists c.
Qed.

Lemma variation_no_encosto (U : UnicodeData) (text : pyval) :
  ascii_plain U ->
  forallb is_ascii (snd (extract_sku_and_var_from_text U text)) = true ->
  str_in (lit "encosto")
    (normalize_token U (VStr (snd (extract_sku_and_var_from_text U text)))) = false.
Proof.
  intros HU Hv.
  destruct (str_in _ _) eqn:E; [|reflexivity].
  assert (Hall : forallb (fun c => negb (N.eqb c 110))
                   (normalize_token U (VStr (snd (extract_sku_and_var_from_text U text))))
                 = true).
  { apply forallb_forall. intros x Hx.
    destruct (normalize_ascii_in U _ x HU Hv Hx) as (c & Hc & <-).
    apply negb_true_iff, N.eqb_neq.
    now destruct (variation_without_n U text c Hc). }
  pose proof (str_in_all _ _ _ E Hall) as H. discriminate H.
Qed.

(** X14. The variation read from a block stops before the first [n],
    [N], semicolon or backslash: the class of [VAR_IN_PRODUCT_INFO] leaves
    these out.  So the normal form of an ASCII variation never contains
    "encosto", [compute_category_from_variation] returns the category it
    is given, and in the run the category of such a block is the one
    whose aliases list its SKU. *)
Theorem variation_never_overrides (U : UnicodeData) (HU : ascii_plain U) (text : pyval) :
  (forall c, In c (snd (extract_sku_and_var_from_text U text)) ->
     tolower U c <> 110%N /\ tolower U c <> 59%N /\ tolower U c <> 92%N) /\
  (forallb is_ascii (snd (extract_sku_and_var_from_text U text)) = true ->
   override_applies U (snd (extract_sku_and_var_from_text U text)) = false /\
   (forall initial capa base,
      compute_category_from_variation U initial
        (snd (extract_sku_and_var_from_text U text)) capa base = initial) /\
   (forall cfg blk,
      text = VStr blk ->
      category (snd (block_item U cfg blk))
      = initial_category (sku_norm (snd (block_item U cfg blk))) (categories cfg))).
Proof.
  split; [intros c; apply variation_without_n|].
  intros Hv. pose proof (variation_no_encosto U text HU Hv) as He.
  split; [|split].
  - unfold override_applies. now rewrite He.
  - intros initial capa base. unfold compute_category_from_variation. now rewrite He.
  - intros cfg blk ->. unfold block_item, compute_outputs_single_item.
    cbn [snd category sku_norm]. unfold compute_category_from_variation. now rewrite He.
Qed.

(** The block of an "Encosto + Capa Extra" item: its variation is read
    as "E", and the item stays in the category of its SKU. *)
Lemma variation_never_overrides_witness :
  variation_seen (snd (block_item latin1 cfg_capa
    (lit "[1] SKU Reference No. : R70A; Variation Name : Encosto + Capa Extra; Quantity: 2")))
  = lit "E" /\
  category (snd (block_item latin1 cfg_capa
    (lit "[1] SKU Reference No. : R70A; Variation Name : Encosto + Capa Extra; Quantity: 2")))
  = initial_category
      (sku_norm (snd (block_item latin1 cfg_capa
         (lit "[1] SKU Reference No. : R70A; Variation Name : Encosto + Capa Extra; Quantity: 2"))))
      (categories cfg_capa).
Proof.
  split; [reflexivity|].
  apply (proj2 (variation_never_overrides latin1 latin1_ascii_plain
                  (VStr (lit "[1] SKU Reference No. : R70A; Variation Name : Encosto + Capa Extra; Quantity: 2")))).
  - reflexivity.
  - reflexivity.
Defined.

(** ** Texts without an open marker *)

Lemma marker_runs_open (U : UnicodeData) (s : list N) :
  marker_runs U s <> [] -> has_open_marker U s.
Proof.
  intros Hne. destruct (marker_runs U s) as [|r l] eqn:E; [now elim Hne|].
  destruct (marker_runs_where U s r) as (before & t & -> & Ht); [rewrite E; now left|].
  destruct (marker_run_shape U t r Ht) as (ds & body & later & -> & -> & Hds & Hd & Hb & Hnb & _).
  destruct body as [|c body]; [now elim Hb|].
  exists before, ds, c, (body ++ later). split; [|split; [exact Hds|split; [exact Hd|]]].
  - f_equal. cbn [List.app]. f_equal. rewrite <- app_assoc. reflexivity.
  - cbn [forallb] in Hnb. apply andb_true_iff in Hnb. destruct Hnb as [Hc _].
    unfold not_lbracket in Hc. now apply negb_true_iff, N.eqb_neq in Hc.
Qed.

(** X15. A text with no marker "[N]" followed by a character other
    than "[" is one block, the whole text, be it empty: the loop over
    the blocks runs once, on the text. *)
Theorem text_without_marker_is_one_block (U : UnicodeData) (HU : brackets_plain U)
    (s : list N) :
  ~ has_open_marker U s ->
  split_blocks U (VStr s) = [s] /\
  forall cfg order a,
    fold_left (process_block U cfg order) (split_blocks U (VStr s)) a
    = process_block U cfg order a s.
Proof.
  intros Hno.
  assert (H : split_blocks U (VStr s) = [s]).
  { unfold split_blocks. rewrite (findall_BLOCK_RE U HU).
    destruct (marker_runs U s) as [|r l] eqn:E; [reflexivity|].
    elim Hno. apply marker_runs_open. rewrite E. discriminate. }
  split; [exact H|]. intros cfg order a. now rewrite H.
Qed.

(** A cell with brackets but no marker of the form "[N]". *)
Lemma text_without_marker_is_one_block_witness :
  split_blocks latin1 (VStr (lit "SKU Reference No. : A1 [x]; Quantity: 2 [1]"))
  = [lit "SKU Reference No. : A1 [x]; Quantity: 2 [1]"].
Proof.
  apply (text_without_marker_is_one_block latin1 latin1_brackets_plain).
  intros H. apply (open_marker_run latin1 _ latin1_brackets_plain) in H.
  now apply H.
Defined.

(** ** The TOTAL row, the summary rows and the rows without order number *)

Lemma zsum_filter_split {A} (w : A -> Z) (p : A -> bool) (l : list A) :
  zsum (map w l)
  = (zsum (map w (filter (fun x => negb (p x)) l)) + zsum (map w (filter p l)))%Z.
Proof.
  induction l as [|x l IH]; [reflexivity|].
  cbn [map filter]. unfold zsum in *. destruct (p x); cbn [negb map fold_right]; lia.
Qed.

Lemma zsum_map_nonneg {A} (w : A -> Z) (l : list A) :
  (forall x, In x l -> (0 <= w x)%Z) -> (0 <= zsum (map w l))%Z.
Proof.
  intros H. apply zsum_nonneg. intros z Hz. apply in_map_iff in Hz.
  destruct Hz as (x & <- & Hx). now apply H.
Qed.

Lemma zsum_filter_le {A} (w : A -> Z) (p : A -> bool) (l : list A) :
  (forall x, In x l -> (0 <= w x)%Z) ->
  (0 <= zsum (map w (filter p l)) <= zsum (map w l))%Z.
Proof.
  intros H. rewrite (zsum_filter_split w p l).
  assert (0 <= zsum (map w (filter p l)))%Z.
  { apply zsum_map_nonneg. intros x Hx. apply filter_In in Hx. now apply H. }
  assert (0 <= zsum (map w (filter (fun x => negb (p x)) l)))%Z.
  { apply zsum_map_nonneg. intros x Hx. apply filter_In in Hx. now apply H. }
  lia.
Qed.

Lemma zsum_map_le {A} (w v : A -> Z) (l : list A) :
  (forall x, In x l -> (w x <= v x)%Z) -> (zsum (map w l) <= zsum (map v l))%Z.
Proof.
  induction l as [|x l IH]; intros H; [cbn; lia|].
  cbn [map]. unfold zsum in *. cbn [fold_right].
  pose proof (H x (or_introl eq_refl)).
  assert (fold_right Z.add 0 (map w l) <= fold_right Z.add 0 (map v l))%Z;
    [apply IH; intros y Hy; apply H; now right|lia].
Qed.

Lemma zsum_member_le {A} (w : A -> Z) (l : list A) (x : A) :
  (forall y, In y l -> (0 <= w y)%Z) -> In x l -> (w x <= zsum (map w l))%Z.
Proof.
  induction l as [|y l IH]; intros H Hx; [destruct Hx|].
  cbn [map]. unfold zsum in *. cbn [fold_right].
  assert (0 <= fold_right Z.add 0 (map w l))%Z.
  { apply (zsum_map_nonneg w l). intros z Hz. apply H. now right. }
  pose proof (H y (or_introl eq_refl)).
  destruct Hx as [->|Hx]; [lia|].
  assert (w x <= fold_right Z.add 0 (map w l))%Z;
    [apply IH; [intros z Hz; apply H; now right|exact Hx]|lia].
Qed.

Lemma key_eqb_na (k k' : pyval) : isna k = true -> key_eqb k k' = false.
Proof.
  destruct k; try discriminate; reflexivity.
Qed.

(** The rows that some group holds are the rows with an order number. *)
Lemma grouped_rows (df : list (dict pyval)) :
  filter (fun row => existsb (key_eqb (cell row (lit "order_sn"))) (group_keys df)) df
  = filter (fun row => negb (isna (cell row (lit "order_sn")))) df.
Proof.
  apply filter_ext_in. intros row Hrow.
  destruct (isna (cell row (lit "order_sn"))) eqn:E; cbn [negb].
  - apply not_true_is_false. intros H. apply existsb_exists in H.
    destruct H as (k & _ & H). now rewrite (key_eqb_na _ k E) in H.
  - now apply group_keys_cover.
Qed.

Lemma small_cell_value (U : UnicodeData) (HU : ascii_digits U) (x : pyval) :
  small_cell x -> exact_range (cell_value U x).
Proof.
  intros [|z Hz|z Hz].
  - cbv. split; [discriminate|reflexivity].
  - now rewrite (cell_value_number U HU z Hz).
  - now rewrite (cell_value_marker U HU z Hz).
Qed.

Lemma plain_cell_value (U : UnicodeData) (HU : ascii_digits U) (x : pyval) :
  small_cell x -> plain_cell x ->
  zsum (match to_numeric U x with Some z => [z] | None => [] end) = cell_value U x.
Proof.
  intros Hs [->|(z & ->)]; [reflexivity|].
  inversion Hs as [|z' Hz E|z' Hz E]; subst.
  rewrite (cell_value_number U HU z Hz). cbn. lia.
Qed.

Lemma leading_cell_value (U : UnicodeData) (x : pyval) :
  zsum (match leading_int U x with Some n => [n] | None => [] end) = cell_value U x.
Proof.
  unfold cell_value. destruct (leading_int U x); cbn; lia.
Qed.

(** On a table whose cells in column [c] are blanks, numbers or marker
    texts in the exact range, blanks or numbers unless the column is
    [ENC_CAPA], and add up to less than 2^53. *)
Lemma total_splits (U : UnicodeData) (HU : ascii_digits U)
    (df : list (dict pyval)) (c : list N) :
  (forall row, In row df -> small_cell (cell row c)) ->
  (pystr_eqb c (lit "ENC_CAPA") = false -> forall row, In row df -> plain_cell (cell row c)) ->
  (zsum (map (fun row => cell_value U (cell row c)) df) < 2 ^ 53)%Z ->
  (forall k, exists v, resumo_cell U df k c = Some v /\ plain_cell v) /\
  cell_value U (total_cell U df c) = (summary_sum U df c + unkeyed_sum U df c)%Z.
Proof.
  intros Hcells Hplain Hbound.
  set (w := fun row => cell_value U (cell row c)) in *.
  assert (Hw : forall row, In row df -> (0 <= w row)%Z).
  { intros row Hrow. apply (small_cell_value U HU). now apply Hcells. }
  assert (Hall : exact_range (zsum (map w df))).
  { split; [now apply zsum_map_nonneg|exact Hbound]. }
  assert (Hgrp : forall k, exact_range (zsum (map w (group df k)))).
  { intros k. unfold group. destruct (zsum_filter_le w
      (fun row => key_eqb (cell row (lit "order_sn")) k) df Hw).
    unfold exact_range in *. lia. }
  assert (Hgroup : forall k, Forall small_cell (column (group df k) c)).
  { intros k. apply Forall_forall. intros x Hx. unfold column in Hx.
    apply in_map_iff in Hx. destruct Hx as (row & <- & Hrow).
    apply Hcells. now apply (group_rows df k). }
  assert (Hnums : forall L, zsum (total_nums U (column L c)) = zsum (map w L)).
  { intros L. unfold total_nums. rewrite zsum_column. f_equal. apply map_ext.
    intros row. apply leading_cell_value. }
  assert (Hnumb : pystr_eqb c (lit "ENC_CAPA") = false ->
                  forall L, (forall row, In row L -> In row df) ->
                            zsum (numbers U (column L c)) = zsum (map w L)).
  { intros Hne L HL. unfold numbers. rewrite zsum_column. f_equal.
    apply map_ext_in. intros row Hrow. apply (plain_cell_value U HU).
    - apply Hcells. now apply HL.
    - apply (Hplain Hne). now apply HL. }
  assert (Hsum : forall k, exists v,
             resumo_cell U df k c = Some v /\ plain_cell v /\
             cell_value U v = zsum (map w (group df k))).
  { intros k. unfold resumo_cell, agg.
    destruct (pystr_eqb c (lit "ENC_CAPA")) eqn:Ec.
    - rewrite (enc_capa_agg_total U HU _ (Hgroup k)). cbn [option_map].
      eexists. split; [reflexivity|]. split; [right; eexists; reflexivity|].
      rewrite Hnums. apply (cell_value_number U HU). apply Hgrp.
    - eexists. split; [reflexivity|]. split.
      + unfold sum_or_blank. destruct (is_nil _); [now left|right; eexists; reflexivity].
      + rewrite <- (Hnumb eq_refl (group df k) (group_rows df k)).
        apply (cell_value_sum_or_blank U HU).
        rewrite (Hnumb eq_refl (group df k) (group_rows df k)). apply Hgrp. }
  split.
  - intros k. destruct (Hsum k) as (v & Hv & Hp & _). now exists v.
  - assert (Htot : cell_value U (total_cell U df c) = zsum (map w df)).
    { unfold total_cell. destruct (pystr_eqb c (lit "ENC_CAPA")) eqn:Ec.
      - pose proof (Hnums df) as Hn.
        destruct (total_nums U (column df c)) as [|z l]; [now rewrite <- Hn|].
        cbn [is_nil]. rewrite <- Hn. apply (cell_value_marker U HU).
        rewrite Hn. exact Hall.
      - rewrite <- (Hnumb eq_refl df (fun row H => H)).
        apply (cell_value_sum_or_blank U HU).
        rewrite (Hnumb eq_refl df (fun row H => H)). exact Hall. }
    rewrite Htot. unfold summary_sum, unkeyed_sum.
    rewrite (map_ext _ (fun k => zsum (map w (group df k)))).
    2:{ intros k. destruct (Hsum k) as (v & -> & _ & Hv). exact Hv. }
    rewrite (sum_over_groups _ df _ (group_keys_apart df)), grouped_rows.
    apply zsum_filter_split.
Qed.

(** A category column other than [ENC_CAPA] never holds a marker text. *)
Lemma detail_row_plain (U : UnicodeData) (cfg : config)
    (r : order_row) (a : accumulators) (c : list N) :
  In c (out_cols U cfg) -> pystr_eqb c (lit "ENC_CAPA") = false ->
  plain_cell (cell (detail_row U cfg r a) c).
Proof.
  intros Hc Hne. unfold detail_row, cell.
  set (base1 := [(lit "order_sn", order_sn r); _; _; _]).
  set (base2 := fold_left (fun b c => dict_set b c (VStr [])) (out_cols U cfg) base1).
  assert (H2 : exists v, dict_get base2 c = Some v /\ plain_cell v).
  { apply (fold_set_hits plain_cell (fun c => c) (fun _ => VStr []));
      [intros; now left|now exists c]. }
  set (base3 := fold_left (fun b cv => dict_set b (fst cv) (VInt (snd cv)))
                  (accum_numeric a) base2).
  assert (H3 : exists v, dict_get base3 c = Some v /\ plain_cell v).
  { apply (fold_set_holds plain_cell (fun cv : list N * Z => fst cv) (fun cv => VInt (snd cv)));
      [intros; right; eexists; reflexivity|exact H2]. }
  destruct (accum_enc_capa a >? 0)%Z.
  - rewrite dict_get_set, Hne. destruct H3 as (v & -> & Hv). exact Hv.
  - destruct H3 as (v & -> & Hv). exact Hv.
Qed.

(** *** Every number of the tables is a sum of units and kits of blocks *)

Lemma block_item_outputs (U : UnicodeData) (cfg : config) (blk : list N) :
  fst (block_item U cfg blk) = [] \/
  (exists cat,
     fst (block_item U cfg blk)
     = [(cat, {| o_type := enc_capa;
                 o_value := kits_purchased (snd (block_item U cfg blk)) |})]) \/
  (exists cat,
     fst (block_item U cfg blk)
     = [(cat, {| o_type := numeric; o_value := unidades (snd (block_item U cfg blk)) |})]).
Proof.
  unfold block_item, compute_outputs_single_item. cbn [fst snd kits_purchased unidades].
  destruct (truthy (VStr _)); [|now left].
  destruct (_ && _); right; [left|right]; eexists; reflexivity.
Qed.

Lemma block_outputs_bound (U : UnicodeData) (HD : digits_plain U) (cfg : config)
    (blk c : list N) :
  (0 <= zsum (units_of c (fst (block_item U cfg blk))) <= block_units U cfg blk)%Z /\
  (0 <= zsum (counted_of (fst (block_item U cfg blk))) <= block_units U cfg blk)%Z.
Proof.
  destruct (block_item_counts U cfg blk HD) as (Hk & Hp & Hu & _).
  assert (Hun : (0 <= unidades (snd (block_item U cfg blk)))%Z) by (rewrite Hu; nia).
  unfold block_units.
  destruct (block_item_outputs U cfg blk) as [->|[(cat & ->)|(cat & ->)]];
    unfold units_of, counted_of; cbn [flat_map fst snd o_type o_value List.app zsum fold_right].
  - lia.
  - lia.
  - destruct (pystr_eqb cat c); cbn [zsum fold_right List.app]; lia.
Qed.

Lemma row_outputs_bound (U : UnicodeData) (HD : digits_plain U) (cfg : config)
    (c : list N) (blocks : list (list N)) :
  (0 <= zsum (units_in U cfg c blocks) <= zsum (map (block_units U cfg) blocks))%Z /\
  (0 <= counted_in U cfg blocks <= zsum (map (block_units U cfg) blocks))%Z.
Proof.
  unfold units_in, counted_in.
  induction blocks as [|blk blocks IH]; [cbn; lia|].
  cbn [flat_map map]. rewrite !zsum_app.
  destruct (block_outputs_bound U HD cfg blk c) as [H1 H2].
  unfold zsum at 5 10. cbn [fold_right]. fold (zsum (map (block_units U cfg) blocks)).
  lia.
Qed.

Lemma row_units_nonneg (U : UnicodeData) (HD : digits_plain U) (cfg : config)
    (r : order_row) : (0 <= row_units U cfg r)%Z.
Proof.
  unfold row_units.
  destruct (row_outputs_bound U HD cfg [] (split_blocks U (product_info r))) as [_ H]. lia.
Qed.

(** The cell that the blocks of a row determine is in the exact range
    when the units and kits of the row are, and worth no more than
    they. *)
Lemma expected_cell_small (U : UnicodeData) (HU : ascii_digits U) (HD : digits_plain U)
    (cfg : config) (c : list N) (r : order_row) :
  (row_units U cfg r < 2 ^ 53)%Z ->
  small_cell (expected_cell U cfg c (split_blocks U (product_info r))) /\
  (cell_value U (expected_cell U cfg c (split_blocks U (product_info r)))
   <= row_units U cfg r)%Z.
Proof.
  intros Hr. unfold row_units in *.
  destruct (row_outputs_bound U HD cfg c (split_blocks U (product_info r))) as [H1 H2].
  assert (Hs : small_cell (expected_cell U cfg c (split_blocks U (product_info r))) /\
               (expected_cell U cfg c (split_blocks U (product_info r)) = VStr [] \/
                exists z, (z <= zsum (map (block_units U cfg)
                                        (split_blocks U (product_info r))))%Z /\
                          exact_range z /\
                          (expected_cell U cfg c (split_blocks U (product_info r)) = VInt z \/
                           expected_cell U cfg c (split_blocks U (product_info r))
                           = VStr (str_of_int z ++ lit " + C")))).
  { unfold expected_cell. destruct (_ && _).
    - split; [constructor; unfold exact_range; lia|]. right. eexists.
      split; [|split; [|right; reflexivity]]; unfold exact_range; lia.
    - destruct (is_nil _).
      + split; [constructor|now left].
      + split; [constructor; unfold exact_range; lia|]. right. eexists.
        split; [|split; [|left; reflexivity]]; unfold exact_range; lia. }
  destruct Hs as [Hs Hv]. split; [exact Hs|].
  destruct Hv as [->|(z & Hz & Hx & [->| ->])].
  - change (cell_value U (VStr [])) with 0%Z. lia.
  - now rewrite (cell_value_number U HU z Hx).
  - now rewrite (cell_value_marker U HU z Hx).
Qed.

(** The cells of a category column of the detail table, for a sheet
    whose units and kits add up to less than 2^53. *)
Lemma detail_column_small (U : UnicodeData) (HU : ascii_digits U) (HD : digits_plain U)
    (cfg : config) (rows : list order_row) (c : list N) :
  In c (out_cols U cfg) -> (sheet_units U cfg rows < 2 ^ 53)%Z ->
  (forall row, In row (detail_rows U cfg rows) -> small_cell (cell row c)) /\
  (zsum (map (fun row => cell_value U (cell row c)) (detail_rows U cfg rows)) < 2 ^ 53)%Z.
Proof.
  intros Hc Hsheet. pose proof (detail_column_expected U cfg rows c Hc) as Hcol.
  assert (Hrow : forall r, In r rows -> (row_units U cfg r < 2 ^ 53)%Z).
  { intros r Hr. unfold sheet_units in Hsheet.
    pose proof (zsum_member_le (row_units U cfg) rows r
                  (fun y _ => row_units_nonneg U HD cfg y) Hr). lia. }
  split.
  - intros row Hin.
    assert (Hx : In (cell row c) (column (detail_rows U cfg rows) c))
      by (unfold column; now apply (in_map (fun row0 => cell row0 c))).
    rewrite Hcol in Hx. apply in_map_iff in Hx. destruct Hx as (r & <- & Hr).
    apply (expected_cell_small U HU HD cfg c r). now apply Hrow.
  - change (map (fun row => cell_value U (cell row c)) (detail_rows U cfg rows))
      with (map (fun row => cell_value U ((fun row => cell row c) row)) (detail_rows U cfg rows)).
    rewrite <- (map_map (fun row => cell row c) (cell_value U)).
    fold (column (detail_rows U cfg rows) c). rewrite Hcol, map_map.
    eapply Z.le_lt_trans; [|exact Hsheet]. unfold sheet_units.
    apply zsum_map_le. intros r Hr.
    apply (expected_cell_small U HU HD cfg c r). now apply Hrow.
Qed.

(** X16. For a sheet whose units and kits add up to less than 2^53,
    where the sums of pandas are exact: in every category column no
    summary cell raises and each is a blank or a number; and the TOTAL
    row is worth the sum of the summary rows plus what the rows without
    order number hold, which are in no summary row. *)
Theorem total_is_orders_plus_unkeyed (U : UnicodeData)
    (HU : ascii_digits U) (HD : digits_plain U)
    (cfg : config) (rows : list order_row) (c : list N) :
  In c (out_cols U cfg) ->
  (sheet_units U cfg rows < 2 ^ 53)%Z ->
  (forall k, exists v,
     resumo_cell U (detail_rows U cfg rows) k c = Some v /\ plain_cell v) /\
  cell_value U (total_cell U (detail_rows U cfg rows) c)
  = (summary_sum U (detail_rows U cfg rows) c
     + unkeyed_sum U (detail_rows U cfg rows) c)%Z.
Proof.
  intros Hc Hsheet.
  destruct (detail_column_small U HU HD cfg rows c Hc Hsheet) as [Hsmall Hsum].
  apply (total_splits U HU); [exact Hsmall| |exact Hsum].
  intros Hne row Hrow.
  destruct (process_rows_rows U cfg rows [] row Hrow) as (r & a & Hr & ->).
  now apply detail_row_plain.
Qed.

(** Orders A and B and a row without order number: the TOTAL of [R70]
    is 11, of which the summary rows hold 8. *)
Lemma total_is_orders_plus_unkeyed_witness :
  sheet_units latin1 cfg_capa [row_a; row_b; row_blank] = 22%Z /\
  total_cell latin1 (detail_rows latin1 cfg_capa [row_a; row_b; row_blank]) (lit "R70")
  = VInt 11 /\
  summary_sum latin1 (detail_rows latin1 cfg_capa [row_a; row_b; row_blank]) (lit "R70")
  = 8%Z /\
  cell_value latin1
    (total_cell latin1 (detail_rows latin1 cfg_capa [row_a; row_b; row_blank]) (lit "R70"))
  = (summary_sum latin1 (detail_rows latin1 cfg_capa [row_a; row_b; row_blank]) (lit "R70")
     + unkeyed_sum latin1 (detail_rows latin1 cfg_capa [row_a; row_b; row_blank]) (lit "R70"))%Z.
Proof.
  split; [reflexivity|]. split; [reflexivity|]. split; [reflexivity|].
  apply (total_is_orders_plus_unkeyed latin1 latin1_ascii_digits latin1_digits_plain cfg_capa
           [row_a; row_b; row_blank] (lit "R70")).
  - vm_compute. now left.
  - reflexivity.
Defined.

Lemma filter_none {A} (p : A -> bool) (l : list A) :
  (forall x, In x l -> p x = false) -> filter p l = [].
Proof.
  induction l as [|x l IH]; intros H; [reflexivity|].
  cbn [filter]. rewrite (H x (or_introl eq_refl)). apply IH.
  intros y Hy. apply H. now right.
Qed.

(** When every row of the sheet has its order number, and the units and
    kits of the sheet add up to less than 2^53, the TOTAL row of each
    category column is worth the sum of the summary rows, a marker text
    counting for its leading integer and a blank for nothing; and no
    summary cell raises. *)
Theorem total_is_sum_of_orders (U : UnicodeData)
    (HU : ascii_digits U) (HD : digits_plain U)
    (cfg : config) (rows : list order_row) (c : list N) :
  (forall r, In r rows -> isna (order_sn r) = false) ->
  In c (out_cols U cfg) ->
  (sheet_units U cfg rows < 2 ^ 53)%Z ->
  (forall k, resumo_cell U (detail_rows U cfg rows) k c <> None) /\
  cell_value U (total_cell U (detail_rows U cfg rows) c)
  = summary_sum U (detail_rows U cfg rows) c.
Proof.
  intros Hna Hc Hsheet.
  destruct (detail_column_small U HU HD cfg rows c Hc Hsheet) as [Hsmall Hsum].
  destruct (total_splits U HU (detail_rows U cfg rows) c Hsmall) as [H1 H2];
    [|exact Hsum|].
  { intros Hne row Hrow.
    destruct (process_rows_rows U cfg rows [] row Hrow) as (r & a & Hr & ->).
    now apply detail_row_plain. }
  split.
  - intros k. destruct (H1 k) as (v & -> & _). discriminate.
  - rewrite H2. unfold unkeyed_sum.
    rewrite filter_none; [cbn; lia|].
    intros row Hrow.
    destruct (process_rows_rows U cfg rows [] row Hrow) as (r & a & Hr & ->).
    apply detail_row_key. now apply Hna.
Qed.

(** Orders A and B: the TOTAL of [R70] is 8, of [ENC_CAPA] "2 + C". *)
Lemma total_is_sum_of_orders_witness :
  cell_value latin1 (total_cell latin1 (detail_rows latin1 cfg_capa [row_a; row_b]) (lit "R70"))
  = summary_sum latin1 (detail_rows latin1 cfg_capa [row_a; row_b]) (lit "R70") /\
  total_cell latin1 (detail_rows latin1 cfg_capa [row_a; row_b]) (lit "R70") = VInt 8 /\
  cell_value latin1
    (total_cell latin1 (detail_rows latin1 cfg_capa [row_a; row_b]) (lit "ENC_CAPA"))
  = summary_sum latin1 (detail_rows latin1 cfg_capa [row_a; row_b]) (lit "ENC_CAPA").
Proof.
  assert (Hna : forall r, In r [row_a; row_b] -> isna (order_sn r) = false).
  { intros r [<-|[<-|[]]]; reflexivity. }
  split; [|split].
  - apply (total_is_sum_of_orders latin1 latin1_ascii_digits latin1_digits_plain cfg_capa
             [row_a; row_b] (lit "R70") Hna); [|reflexivity].
    vm_compute. now left.
  - reflexivity.
  - apply (total_is_sum_of_orders latin1 latin1_ascii_digits latin1_digits_plain cfg_capa
             [row_a; row_b] (lit "ENC_CAPA") Hna); [|reflexivity].
    vm_compute. right. now left.
Defined.

(** ** Markers and numbers under the two aggregations *)

Lemma to_numeric_marker (U : UnicodeData) (z : Z) :
  to_numeric U (VStr (str_of_int z ++ lit " + C")) = None.
Proof.
  cbn [to_numeric]. rewrite forallb_app.
  replace (forallb (fun c => in_range 48 57 c || N.eqb c 45) (lit " + C")) with false
    by reflexivity.
  now rewrite andb_false_r.
Qed.

Lemma zsum_cons (z : Z) (l : list Z) : zsum (z :: l) = (z + zsum l)%Z.
Proof.
  reflexivity.
Qed.

Lemma numbers_below_values (U : UnicodeData) (HU : ascii_digits U) (series : list pyval) :
  Forall small_cell series ->
  (0 <= zsum (flat_map (fun x => match x with VInt z => [z] | _ => [] end) series)
   <= zsum (map (cell_value U) series))%Z.
Proof.
  induction 1 as [|x series Hx _ IH]; [cbn; lia|].
  cbn [flat_map map]. rewrite zsum_app, zsum_cons.
  pose proof (small_cell_value U HU x Hx) as Hv. unfold exact_range in Hv.
  destruct Hx as [|z Hz|z Hz].
  - change (zsum []) with 0%Z. lia.
  - rewrite (cell_value_number U HU z Hz) in *. rewrite zsum_cons.
    change (zsum []) with 0%Z. lia.
  - change (zsum []) with 0%Z. lia.
Qed.

(** X17. What the two aggregations make of a column of blanks, numbers
    and marker texts whose numbers and counts are not negative and add
    up to less than 2^53, where the sums of pandas are exact.  The
    lambda of the column [ENC_CAPA] does not raise and adds up the
    numbers and the counts of the markers alike, which is also what the
    TOTAL row of that column adds up; [sum_or_blank], which every other
    column gets, adds up the numbers only: a marker text counts for
    nothing there. *)
Theorem markers_and_numbers (U : UnicodeData) (HU : ascii_digits U) (series : list pyval) :
  Forall small_cell series ->
  (zsum (map (cell_value U) series) < 2 ^ 53)%Z ->
  enc_capa_agg U series = Some (zsum (map (cell_value U) series)) /\
  zsum (total_nums U series) = zsum (map (cell_value U) series) /\
  numbers U series
  = flat_map (fun x => match x with VInt z => [z] | _ => [] end) series /\
  cell_value U (sum_or_blank U series)
  = zsum (flat_map (fun x => match x with VInt z => [z] | _ => [] end) series).
Proof.
  intros Hs Hbound.
  assert (Ht : zsum (total_nums U series) = zsum (map (cell_value U) series)).
  { unfold total_nums. rewrite zsum_flat_map. f_equal. apply map_ext.
    intros x. apply leading_cell_value. }
  assert (Hn : numbers U series
               = flat_map (fun x => match x with VInt z => [z] | _ => [] end) series).
  { clear Ht Hbound. unfold numbers. induction Hs as [|x series Hx _ IH]; [reflexivity|].
    cbn [flat_map]. rewrite IH. f_equal.
    destruct Hx as [|z _|z _]; [reflexivity|reflexivity|].
    now rewrite to_numeric_marker. }
  split; [|split; [exact Ht|split; [exact Hn|]]].
  - rewrite (enc_capa_agg_total U HU series Hs). now rewrite Ht.
  - rewrite <- Hn. apply (cell_value_sum_or_blank U HU). rewrite Hn.
    pose proof (numbers_below_values U HU series Hs). unfold exact_range. lia.
Qed.

(** Three units, two kits counted with a cover and a blank. *)
Lemma markers_and_numbers_witness :
  enc_capa_agg latin1 [VInt 3; VStr (lit "2 + C"); VStr []] = Some 5%Z /\
  sum_or_blank latin1 [VInt 3; VStr (lit "2 + C"); VStr []] = VInt 3.
Proof.
  split; [|reflexivity].
  rewrite (proj1 (markers_and_numbers latin1 latin1_ascii_digits
                    [VInt 3; VStr (lit "2 + C"); VStr []]
                    (Forall_cons _ (small_number 3 ltac:(split; [discriminate|reflexivity]))
                       (Forall_cons _ (small_marker 2 ltac:(split; [discriminate|reflexivity]))
                          (Forall_cons _ small_blank (Forall_nil _))))
                    eq_refl)).
  reflexivity.
Defined.

(** ** The quantity of the kit *)

Lemma last_read_cons (c : N) (g : list N) (pv : option N) :
  last_read (c :: g) pv = last_read g (Some c).
Proof.
  unfold last_read. cbn [List.rev].
  destruct (List.rev g) as [|x r]; reflexivity.
Qed.

(** The first cursor of a greedy repetition over a run of the class that
    ends the text or stands before a character outside the class. *)
Lemma greedy_first (p : N -> bool) (g t : list N) :
  forallb p g = true -> is_some p (hd_error t) = false ->
  forall pv, exists tail, greedy p pv (g ++ t) = (last_read g pv, t) :: tail.
Proof.
  intros Hg Ht. induction g as [|c g IH]; intros pv.
  - cbn [List.app]. destruct t as [|x t]; cbn [greedy]; [now exists []|].
    cbn in Ht. rewrite Ht. now exists [].
  - cbn [forallb] in Hg. apply andb_true_iff in Hg. destruct Hg as [Hc Hg].
    cbn [List.app greedy]. rewrite Hc.
    destruct (IH Hg (Some c)) as (tail & ->).
    rewrite last_read_cons. now eexists.
Qed.









Lemma run_cons (n : node) (pat : list node) (st : mstate) :
  run (n :: pat) st = flat_map (run pat) (run_node n st).
Proof.
  reflexivity.
Qed.





Lemma lstrip_in (s : list N) (c : N) : In c s -> isspace c = false -> In c (lstrip s).
Proof.
  induction s as [|x s IH]; [easy|]. intros Hin Hc. cbn [lstrip].
  destruct (isspace x) eqn:E; [|exact Hin].
  destruct Hin as [->|Hin]; [congruence|now apply IH].
Qed.

Lemma strip_nonempty (s : list N) (c : N) :
  In c s -> isspace c = false -> is_nil (strip s) = false.
Proof.
  intros Hin Hc. unfold strip, rstrip.
  assert (H : lstrip (List.rev (lstrip s)) <> []).
  { apply lstrip_keeps. exists c. split; [|exact Hc].
    apply -> in_rev. now apply lstrip_in. }
  destruct (lstrip (List.rev (lstrip s))) as [|x l]; [now elim H|].
  cbn [List.rev]. destruct (List.rev l); reflexivity.
Qed.


Lemma search_from_eq (pat : list node) (pv : option N) (s : list N) :
  search_from pat pv s
  = match match_at pat pv s with
    | Some m => Some m
    | None => match s with
              | c :: s' => search_from pat (Some c) s'
              | [] => None
              end
    end.
Proof.
  destruct s; reflexivity.
Qed.



(** ** Selecting a category and saving its aliases *)

Lemma split_on_word (sep : N) (a rest cur : list N) :
  forallb (fun c => negb (N.eqb c sep)) a = true ->
  split_on sep cur (a ++ rest) = split_on sep (List.rev a ++ cur) rest.
Proof.
  revert cur. induction a as [|c a IH]; intros cur Ha; [reflexivity|].
  cbn [forallb] in Ha. apply andb_true_iff in Ha. destruct Ha as [Hc Ha].
  apply negb_true_iff in Hc. cbn [List.app split_on]. rewrite Hc, (IH _ Ha).
  cbn [List.rev]. now rewrite <- app_assoc.
Qed.

Lemma az09_no_comma (a : list N) :
  forallb is_az09 a = true -> forallb (fun c => negb (N.eqb c 44)) a = true.
Proof.
  apply forallb_imp. intros c Hc. apply negb_true_iff, N.eqb_neq. intros ->. discriminate.
Qed.

(** The pieces of [", ".join(l)] between its commas. *)
Lemma split_on_join (l : list (list N)) :
  forall cur a,
    Forall (fun x => forallb is_az09 x = true) (a :: l) ->
    split_on 44 cur (join (lit ", ") (a :: l)) = (List.rev cur ++ a) :: map (cons 32%N) l.
Proof.
  induction l as [|b l IH]; intros cur a Hal.
  - cbn [join map]. rewrite <- (app_nil_r a) at 1.
    rewrite split_on_word; [|apply az09_no_comma; now inversion Hal].
    cbn [split_on]. now rewrite rev_app_distr, rev_involutive.
  - change (join (lit ", ") (a :: b :: l))
      with (a ++ 44%N :: 32%N :: join (lit ", ") (b :: l)).
    rewrite split_on_word; [|apply az09_no_comma; now inversion Hal].
    cbn [split_on N.eqb Pos.eqb]. rewrite rev_app_distr, rev_involutive. f_equal.
    rewrite IH; [reflexivity|now inversion Hal].
Qed.

Lemma strip_pad (s pad : list N) :
  forallb isspace pad = true ->
  s = [] \/ (is_some isspace (hd_error s) = false /\
             is_some isspace (hd_error (List.rev s)) = false) ->
  strip (s ++ pad) = s.
Proof.
  intros Hpad Hs.
  assert (Hl : forall p t, forallb isspace p = true -> lstrip (p ++ t) = lstrip t).
  { induction p as [|c p IH]; intros t Hp; [reflexivity|].
    cbn [forallb] in Hp. apply andb_true_iff in Hp. destruct Hp as [Hc Hp].
    cbn [List.app lstrip]. rewrite Hc. now apply IH. }
  assert (Hh : forall t, is_some isspace (hd_error t) = false -> lstrip t = t).
  { intros [|c t] H; [reflexivity|]. cbn in H. cbn [lstrip]. now rewrite H. }
  assert (He : strip ([] ++ pad) = []).
  { unfold strip, rstrip. cbn [List.app].
    rewrite <- (app_nil_r pad), (Hl pad [] Hpad). reflexivity. }
  destruct s as [|c s]; [exact He|].
  destruct Hs as [Hs|[H1 H2]]; [discriminate|].
  unfold strip, rstrip. rewrite (Hh ((c :: s) ++ pad) H1).
  rewrite rev_app_distr, Hl, (Hh _ H2); [apply rev_involutive|].
  rewrite forallb_forall in *. intros x Hx. apply Hpad. now apply in_rev.
Qed.

Lemma join_hd (sep a : list N) (l : list (list N)) :
  a <> [] -> hd_error (join sep (a :: l)) = hd_error a.
Proof.
  intros Ha. destruct a as [|c a]; [now elim Ha|]. destruct l; reflexivity.
Qed.

Lemma last_default (l : list (list N)) (c a b : list N) :
  last (c :: l) a = last (c :: l) b.
Proof.
  revert c. induction l as [|d l IH]; intros c; [reflexivity|].
  change (last (c :: d :: l) a) with (last (d :: l) a).
  change (last (c :: d :: l) b) with (last (d :: l) b). apply IH.
Qed.

Lemma last_in (l : list (list N)) (c a : list N) : In (last (c :: l) a) (c :: l).
Proof.
  revert c. induction l as [|d l IH]; intros c; [now left|].
  right. change (last (c :: d :: l) a) with (last (d :: l) a). apply IH.
Qed.

Lemma join_last (sep : list N) (l : list (list N)) :
  forall a, last l a <> [] ->
    hd_error (List.rev (join sep (a :: l))) = hd_error (List.rev (last l a)).
Proof.
  induction l as [|b l IH]; intros a Hl; [reflexivity|].
  change (join sep (a :: b :: l)) with (a ++ sep ++ join sep (b :: l)).
  rewrite !rev_app_distr.
  assert (Hb : last (b :: l) a = last l b).
  { destruct l as [|c l]; [reflexivity|].
    change (last (b :: c :: l) a) with (last (c :: l) a). apply last_default. }
  rewrite Hb in *. rewrite <- (IH b Hl).
  assert (Hne : List.rev (join sep (b :: l)) <> []).
  { intros E. specialize (IH b Hl). rewrite E in IH. cbn in IH.
    destruct (List.rev (last l b)) eqn:E'; [|discriminate].
    apply (f_equal (@List.rev N)) in E'. rewrite rev_involutive in E'. now elim Hl. }
  destruct (List.rev (join sep (b :: l))); [now elim Hne|reflexivity].
Qed.

Lemma az09_hd (a : list N) :
  forallb is_az09 a = true -> is_some isspace (hd_error a) = false.
Proof.
  destruct a as [|c a]; [reflexivity|]. cbn [forallb hd_error is_some].
  intros H. apply andb_true_iff in H. destruct H as [Hc _].
  now apply negb_true_iff, az09_not_space.
Qed.

Lemma forallb_rev {A} (p : A -> bool) (l : list A) :
  forallb p l = true -> forallb p (List.rev l) = true.
Proof.
  rewrite !forallb_forall. intros H x Hx. apply H. now apply in_rev.
Qed.

(** The text of the box, once stripped, is the joined aliases. *)
Lemma strip_box (l : list (list N)) (pad : list N) :
  Forall (fun x => forallb is_az09 x = true) l -> ~ In [] l ->
  forallb isspace pad = true ->
  strip (join (lit ", ") l ++ pad) = join (lit ", ") l.
Proof.
  intros Hl Hne Hpad. apply strip_pad; [exact Hpad|].
  destruct l as [|a l]; [now left|right]. split.
  - rewrite join_hd; [|intros ->; apply Hne; now left].
    apply az09_hd. now inversion Hl.
  - assert (Hin : In (last l a) (a :: l)).
    { destruct l as [|b l]; [now left|]. right. apply last_in. }
    rewrite join_last; [|intros E; apply Hne; now rewrite <- E].
    apply az09_hd, forallb_rev. rewrite Forall_forall in Hl. now apply Hl.
Qed.

(** A normal form after a space, as it stands between two commas of the
    box. *)
Lemma normalize_after_space (U : UnicodeData) (a : list N) :
  az09_stable U -> ascii_plain U -> tolower U 32%N = 32%N ->
  forallb is_az09 a = true -> normalize_token U (VStr (32%N :: a)) = a.
Proof.
  intros HU HA H32 Ha.
  assert (Hasc : forallb is_ascii (32%N :: a) = true).
  { cbn [forallb]. apply andb_true_iff. split; [reflexivity|].
    revert Ha. apply forallb_imp. intros c Hc. unfold is_az09, in_range in Hc.
    unfold is_ascii. apply N.ltb_lt.
    rewrite orb_true_iff, !andb_true_iff, !N.leb_le in Hc. lia. }
  destruct HU as (Hn & Hc & Hl).
  cbn [normalize_token]. unfold strip_accents. rewrite (proj1 (HA _ Hasc)).
  assert (Hf : filter (fun c => N.eqb (combining U c) 0) a = a).
  { apply filter_id. revert Ha. apply forallb_imp. intros c Hcz. now rewrite (Hc c Hcz). }
  assert (Hk : keep_az09 (remove_spaces a) = a).
  { unfold keep_az09, remove_spaces.
    rewrite (filter_id (fun c => negb (isspace c)) a); [now apply filter_id|].
    revert Ha. apply forallb_imp. apply az09_not_space. }
  cbn [filter]. rewrite Hf. destruct (N.eqb (combining U 32) 0).
  - assert (Hlow : lower U (32%N :: a) = 32%N :: a).
    { rewrite (proj2 (HA _ Hasc)). cbn [map]. rewrite H32. f_equal.
      assert (Ha' : forallb is_ascii a = true)
        by (cbn [forallb] in Hasc; now apply andb_true_iff in Hasc).
      rewrite <- (Hl a Ha) at 2. symmetry. exact (proj2 (HA a Ha')). }
    rewrite Hlow. exact Hk.
  - rewrite (Hl a Ha). exact Hk.
Qed.

Lemma dict_set_same {V} (d : dict V) (k : list N) (v : V) :
  dict_get d k = Some v -> dict_set d k v = d.
Proof.
  induction d as [|[k' v'] d IH]; cbn [dict_get dict_set]; [discriminate|].
  destruct (pystr_eqb k k'); [intros H; now inversion H|].
  intros H. now rewrite (IH H).
Qed.

(** The aliases read back from the box. *)
Lemma parse_box (U : UnicodeData) (l : list (list N)) (pad : list N) :
  az09_stable U -> ascii_plain U -> tolower U 32%N = 32%N ->
  ascending l -> Forall (fun x => forallb is_az09 x = true) l -> ~ In [] l ->
  forallb isspace pad = true ->
  parse_aliases U (strip (join (lit ", ") l ++ pad)) = l.
Proof.
  intros HU HA H32 Hasc Hl Hne Hpad. rewrite (strip_box l pad Hl Hne Hpad).
  unfold parse_aliases. destruct l as [|a l]; [reflexivity|].
  unfold split_comma. rewrite (split_on_join l [] a Hl). cbn [List.rev List.app].
  assert (Hkeep : forall x, In x (a :: map (cons 32%N) l) -> negb (is_nil (strip x)) = true).
  { intros x [<-|Hx].
    - destruct a as [|c a]; [elim Hne; now left|].
      apply negb_true_iff, (strip_nonempty _ c); [now left|].
      inversion Hl as [|? ? Ha _]. cbn in Ha. apply andb_true_iff in Ha.
      destruct Ha as [Ha _]. now apply negb_true_iff, az09_not_space.
    - apply in_map_iff in Hx. destruct Hx as (b & <- & Hb).
      destruct b as [|c b]; [elim Hne; now right|].
      apply negb_true_iff, (strip_nonempty _ c); [right; now left|].
      inversion Hl as [|? ? _ Hl']. rewrite Forall_forall in Hl'.
      specialize (Hl' _ Hb). cbn in Hl'. apply andb_true_iff in Hl'.
      destruct Hl' as [Hc _]. now apply negb_true_iff, az09_not_space. }
  rewrite (filter_id _ _ (proj2 (forallb_forall _ _) Hkeep)).
  cbn [map]. rewrite map_map.
  rewrite (normalize_token_fixed U a HU); [|now inversion Hl].
  rewrite (map_ext_in _ (fun x => x)).
  - rewrite map_id. now apply sorted_set_fixed.
  - intros b Hb. apply normalize_after_space; try assumption.
    inversion Hl as [|? ? _ Hl']. rewrite Forall_forall in Hl'. now apply Hl'.
Qed.

(** X19. Selecting a category and saving its aliases as the box shows
    them leaves the map as it was: the text that [on_select_category]
    puts in the box, with the white space the widget adds, is read back
    by [save_aliases] as the same list.  This holds for the alias lists
    of a normal map that do not hold the empty alias; an empty alias
    does not come back from the box. *)
Theorem select_then_save_unchanged (U : UnicodeData) (dir_ok : bool) (cfg : config)
    (cat : list N) (meta : category_meta) (pad : list N) :
  az09_stable U -> ascii_plain U -> tolower U 32%N = 32%N ->
  normal_map cfg ->
  dict_get (categories cfg) cat = Some meta -> ~ In [] (aliases meta) ->
  forallb isspace pad = true ->
  save_aliases U dir_ok cfg (Some cat) (on_select_category cfg (Some cat) ++ pad) = cfg.
Proof.
  intros HU HA H32 Hn Hget Hne Hpad.
  destruct (Hn cat meta (dict_get_in _ _ _ Hget)) as [Hasc Haz].
  unfold save_aliases, on_select_category. rewrite Hget.
  rewrite (parse_box U (aliases meta) pad HU HA H32 Hasc Haz Hne Hpad).
  unfold dict_has. rewrite Hget, Hget.
  replace {| aliases := aliases meta; output_format := output_format meta |} with meta
    by now destruct meta.
  rewrite (dict_set_same _ _ _ Hget).
  replace {| priorities := priorities cfg; categories := categories cfg;
             enc_capa_category := enc_capa_category cfg;
             enc_base_category := enc_base_category cfg |} with cfg
    by now destruct cfg.
  now apply save_normal_fixed.
Qed.

(** The category [R70] of [cfg_capa], and the category [PR] of the map
    loaded from [raw_promo], which holds the empty alias. *)
Lemma select_then_save_unchanged_witness :
  save_aliases latin1 true cfg_capa (Some (lit "R70"))
    (on_select_category cfg_capa (Some (lit "R70")) ++ [10%N]) = cfg_capa /\
  categories
    (save_aliases latin1 true (load_map_file latin1 (Some raw_promo)) (Some (lit "PR"))
       (on_select_category (load_map_file latin1 (Some raw_promo)) (Some (lit "PR"))
        ++ [10%N]))
  = [(lit "PR", meta_of [lit "2promo"; lit "4promo"])].
Proof.
  split; [|reflexivity].
  apply (select_then_save_unchanged latin1 true cfg_capa (lit "R70") (meta_of [lit "r70a"])
           [10%N] latin1_az09_stable latin1_ascii_plain eq_refl).
  - intros c m [E|[E|[]]]; inversion E; subst; cbn [aliases meta_of];
      (split; [split; [intros y []|exact I]|repeat constructor]).
  - reflexivity.
  - cbn. intros [H|[]]. discriminate H.
  - reflexivity.
Defined.

(** ** The normal form of an ASCII text *)

Lemma filter_filter_imp {A} (p q : A -> bool) (l : list A) :
  (forall x, p x = true -> q x = true) -> filter p (filter q l) = filter p l.
Proof.
  intros H. induction l as [|x l IH]; [reflexivity|]. cbn [filter].
  destruct (q x) eqn:Eq; cbn [filter].
  - now rewrite IH.
  - destruct (p x) eqn:Ep; [|exact IH]. rewrite (H x Ep) in Eq. discriminate.
Qed.

Lemma latin1_ascii_tables : ascii_tables latin1.
Proof.
  intros c Hc. unfold is_ascii in Hc. apply N.ltb_lt in Hc.
  cbn [tolower combining latin1]. unfold latin1_tolower, ascii_lower, latin1_combining.
  assert (H1 : in_range 192 222 c = false).
  { unfold in_range. apply andb_false_iff. left. apply N.leb_gt. lia. }
  assert (H2 : N.eqb c 807 = false) by (apply N.eqb_neq; lia).
  assert (H3 : in_range 768 772 c = false).
  { unfold in_range. apply andb_false_iff. left. apply N.leb_gt. lia. }
  assert (H4 : N.eqb c 776 = false) by (apply N.eqb_neq; lia).
  assert (H5 : N.eqb c 778 = false) by (apply N.eqb_neq; lia).
  rewrite H1, H2, H3, H4, H5. split; [|reflexivity].
  destruct (in_range 65 90 c); reflexivity.
Qed.

(** X20. On an ASCII text [normalize_token] keeps the letters and the
    digits, in their order, the capitals lowered, and drops every other
    character; so the normal form of two texts put together is their
    normal forms put together, and texts that differ in case, spaces and
    punctuation only have the same normal form. *)
Theorem normalize_token_ascii (U : UnicodeData) (HA : ascii_plain U) (HT : ascii_tables U)
    (s : list N) :
  forallb is_ascii s = true ->
  normalize_token U (VStr s) = filter is_az09 (map ascii_lower s) /\
  forall t, forallb is_ascii t = true ->
    normalize_token U (VStr (s ++ t))
    = normalize_token U (VStr s) ++ normalize_token U (VStr t).
Proof.
  assert (H : forall x, forallb is_ascii x = true ->
                normalize_token U (VStr x) = filter is_az09 (map ascii_lower x)).
  { intros x Hx. cbn [normalize_token]. unfold keep_az09, remove_spaces, strip_accents.
    rewrite (proj1 (HA x Hx)).
    rewrite (filter_id (fun c => N.eqb (combining U c) 0) x).
    - rewrite (proj2 (HA x Hx)).
      rewrite (filter_filter_imp is_az09 (fun c => negb (isspace c)));
        [|apply az09_not_space].
      f_equal. apply map_ext_in. intros c Hc.
      rewrite forallb_forall in Hx. now destruct (HT c (Hx c Hc)).
    - rewrite forallb_forall in *. intros c Hc.
      destruct (HT c (Hx c Hc)) as [_ ->]. reflexivity. }
  intros Hs. split; [now apply H|].
  intros t Ht. rewrite !H; try assumption.
  - now rewrite map_app, filter_app.
  - rewrite forallb_app. now rewrite Hs, Ht.
Qed.

Lemma normalize_token_ascii_witness :
  normalize_token latin1 (VStr (lit "R70-A x.2")) = lit "r70ax2" /\
  normalize_token latin1 (VStr (lit "R70-A x.2"))
  = normalize_token latin1 (VStr (lit "r70 a_X2")).
Proof.
  destruct (normalize_token_ascii latin1 latin1_ascii_plain latin1_ascii_tables
              (lit "R70-A x.2") eq_refl) as [H _].
  split; [rewrite H; reflexivity|reflexivity].
Defined.

(** ** The SKU of a block *)

(** X21. The SKU read from a text holds only characters of the class
    of [SKU_IN_PRODUCT_INFO] as IGNORECASE reads it: letters, digits,
    "_", "-", "." and spaces; it ends before the first other character,
    such as a semicolon, a colon or a slash.  A value that is no text, and a text
    of white space, have no SKU. *)
Theorem sku_within_class (U : UnicodeData) (text : pyval) (c : N) :
  In c (fst (extract_sku_and_var_from_text U text)) ->
  sku_class U c = true /\ exists s, text = VStr s /\ strip s <> [].
Proof.
  unfold extract_sku_and_var_from_text.
  destruct text as [| | | |s]; try easy.
  destruct (is_nil (strip s)) eqn:En; [easy|]. cbn [fst].
  intros Hc. split; [|exists s; split; [reflexivity|intros E; now rewrite E in En]].
  destruct (search (SKU_IN_PRODUCT_INFO U) s) as [m|] eqn:Em; [|easy].
  destruct (search_from_match _ _ _ _ Em) as (pv & s' & Hm).
  destruct (match_at_state _ _ _ _ Hm) as (st & Hin & Hg).
  unfold SKU_IN_PRODUCT_INFO in Hin.
  rewrite run_app in Hin. apply in_flat_map in Hin. destruct Hin as (st0 & _ & Hin).
  change [Star isspace; Chr (N.eqb 58); Star isspace; Open; Plus (sku_class U); Close]
    with ([Star isspace; Chr (N.eqb 58); Star isspace]
          ++ Open :: Plus (sku_class U) :: Close :: []) in Hin.
  rewrite run_app in Hin. apply in_flat_map in Hin. destruct Hin as (st1 & _ & Hin).
  destruct (group_of_plus (sku_class U) [] st1 st eq_refl Hin) as (g & Hgrp & _ & Hall).
  rewrite Hg, Hgrp in Hc. apply strip_incl in Hc.
  rewrite forallb_forall in Hall. now apply Hall.
Qed.

(** The SKU of "ABC-1/2" is "ABC-1". *)
Lemma sku_within_class_witness :
  fst (extract_sku_and_var_from_text latin1
         (VStr (lit "[1] SKU Reference No. : ABC-1/2; Quantity: 2"))) = lit "ABC-1" /\
  sku_class latin1 45%N = true.
Proof.
  split; [reflexivity|].
  apply (sku_within_class latin1
           (VStr (lit "[1] SKU Reference No. : ABC-1/2; Quantity: 2")) 45%N).
  vm_compute. right. right. right. now left.
Defined.

(** ** The fields of a block in the layout of the patterns *)

Lemma leads_nil (st : mstate) : leads [] st st.
Proof.
  now exists [].
Qed.

Lemma leads_cons (n : node) (pat : list node) (st st1 st' : mstate) (l : list mstate) :
  run_node n st = st1 :: l -> leads pat st1 st' -> leads (n :: pat) st st'.
Proof.
  intros Hn (others & Hr). unfold leads. rewrite (run_cons n pat st).
  rewrite Hn. cbn [flat_map]. rewrite Hr. now eexists.
Qed.

Lemma leads_app (a b : list node) (st st1 st' : mstate) :
  leads a st st1 -> leads b st1 st' -> leads (a ++ b) st st'.
Proof.
  intros (l1 & H1) (l2 & H2). unfold leads. rewrite run_app, H1. cbn [flat_map].
  rewrite H2. now eexists.
Qed.

Lemma leads_match (pat : list node) (pv : option N) (s : list N) (st' : mstate) :
  leads pat {| prev := pv; rest := s; mark := None; grp := None |} st' ->
  exists m, match_at pat pv s = Some m /\ group1 m = grp st'.
Proof.
  intros (others & H). unfold match_at. rewrite H. eexists. split; reflexivity.
Qed.

Lemma ichr_refl (U : UnicodeData) (c : N) : ichr U c c = true.
Proof.
  unfold ichr. now rewrite N.eqb_refl.
Qed.

(** A literal piece matches itself. *)
Lemma leads_literal (U : UnicodeData) (w t : list N) (mk gp : option (list N)) :
  w <> [] ->
  forall pv,
    leads (map (literal_node U) w)
      {| prev := pv; rest := w ++ t; mark := mk; grp := gp |}
      {| prev := last_read w pv; rest := t; mark := mk; grp := gp |}.
Proof.
  induction w as [|c w IH]; intros Hne pv; [now elim Hne|].
  cbn [map List.app]. rewrite last_read_cons.
  apply (leads_cons _ _ _ {| prev := Some c; rest := w ++ t; mark := mk; grp := gp |} _ []).
  - unfold literal_node. destruct (is_ascii_letter c); cbn [run_node rest].
    + now rewrite ichr_refl.
    + now rewrite N.eqb_refl.
  - destruct w as [|c' w]; [apply leads_nil|]. apply IH. discriminate.
Qed.

Lemma ilits_literal (U : UnicodeData) (s : string) :
  ilits U s = map (literal_node U) (lit s).
Proof.
  reflexivity.
Qed.

Lemma head_Star (p : N -> bool) (ws t : list N) (st : mstate) :
  rest st = ws ++ t -> forallb p ws = true -> is_some p (hd_error t) = false ->
  exists l, run_node (Star p) st = move st (last_read ws (prev st)) t :: l.
Proof.
  intros Hr Hws Ht. cbn [run_node]. rewrite Hr.
  destruct (greedy_first p ws t Hws Ht (prev st)) as (tail & ->).
  cbn [map fst snd]. now eexists.
Qed.

Lemma head_Plus (p : N -> bool) (g t : list N) (st : mstate) :
  rest st = g ++ t -> g <> [] -> forallb p g = true -> is_some p (hd_error t) = false ->
  exists l, run_node (Plus p) st = move st (last_read g (prev st)) t :: l.
Proof.
  intros Hr Hne Hg Ht. destruct g as [|c g]; [now elim Hne|].
  cbn [forallb] in Hg. apply andb_true_iff in Hg. destruct Hg as [Hc Hg].
  cbn [run_node]. rewrite Hr. cbn [List.app]. rewrite Hc.
  destruct (greedy_first p g t Hg Ht (Some c)) as (tail & ->).
  cbn [map fst snd]. rewrite last_read_cons. now eexists.
Qed.

(** The group of [(c+)] at the end of a pattern, on a run of the class
    that a character outside the class, or the end of the text, follows. *)
Lemma leads_group (p : N -> bool) (g t : list N) (pv : option N)
    (mk gp : option (list N)) :
  g <> [] -> forallb p g = true -> is_some p (hd_error t) = false ->
  exists st', leads [Open; Plus p; Close]
                {| prev := pv; rest := g ++ t; mark := mk; grp := gp |} st' /\
              grp st' = Some g.
Proof.
  intros Hne Hg Ht.
  destruct (head_Plus p g t {| prev := pv; rest := g ++ t; mark := Some (g ++ t); grp := gp |}
              eq_refl Hne Hg Ht) as (l & Hl).
  eexists. split.
  - eapply leads_cons; [reflexivity|]. cbn [prev rest grp].
    eapply leads_cons; [exact Hl|].
    eapply leads_cons; [reflexivity|]. apply leads_nil.
  - cbn [grp mark move rest]. f_equal. apply firstn_consumed.
Qed.

(** No match starts where the first node refuses the character. *)
Lemma search_skip_refused (p : N -> bool) (pat : list node) (pre t : list N) :
  forallb (fun c => negb (p c)) pre = true ->
  forall pv, search_from (Chr p :: pat) pv (pre ++ t)
             = search_from (Chr p :: pat) (last_read pre pv) t.
Proof.
  induction pre as [|c pre IH]; intros Hp pv; [reflexivity|].
  cbn [forallb] in Hp. apply andb_true_iff in Hp. destruct Hp as [Hc Hp].
  apply negb_true_iff in Hc.
  cbn [List.app]. rewrite search_from_eq.
  assert (Hm : match_at (Chr p :: pat) pv (c :: pre ++ t) = None).
  { unfold match_at. rewrite run_Chr. cbn [rest]. now rewrite Hc. }
  rewrite Hm, (IH Hp). now rewrite last_read_cons.
Qed.

Lemma search_leads (pat : list node) (pv : option N) (s : list N) (st' : mstate) :
  leads pat {| prev := pv; rest := s; mark := None; grp := None |} st' ->
  exists m, search_from pat pv s = Some m /\ group1 m = grp st'.
Proof.
  intros H. destruct (leads_match pat pv s st' H) as (m & Hm & Hg).
  exists m. split; [|exact Hg]. now rewrite search_from_eq, Hm.
Qed.

(** A field written as label, colon and value, with white space around
    the colon: the search finds the value. *)
Lemma search_labelled (U : UnicodeData) (c0 : N) (w : list N) (cls : N -> bool)
    (pre ws1 ws2 g post : list N) :
  is_ascii_letter c0 = true ->
  forallb (fun x => negb (ichr U c0 x)) pre = true ->
  forallb isspace ws1 = true -> forallb isspace ws2 = true ->
  g <> [] -> forallb cls g = true ->
  is_some isspace (hd_error g) = false ->
  is_some cls (hd_error post) = false ->
  exists m,
    search (map (literal_node U) (c0 :: w)
            ++ [Star isspace; Chr (N.eqb 58); Star isspace; Open; Plus cls; Close])
      (pre ++ (c0 :: w) ++ ws1 ++ 58%N :: ws2 ++ g ++ post) = Some m /\
    group1 m = Some g.
Proof.
  intros Hc0 Hpre Hws1 Hws2 Hne Hg Hhd Hpost. unfold search.
  assert (Hpat : map (literal_node U) (c0 :: w) = Chr (ichr U c0) :: map (literal_node U) w).
  { cbn [map]. unfold literal_node at 1. now rewrite Hc0. }
  rewrite Hpat. rewrite <- app_comm_cons.
  rewrite (search_skip_refused (ichr U c0) _ pre _ Hpre).
  rewrite app_comm_cons, <- Hpat.
  destruct (leads_group cls g post (last_read ws2 (Some 58%N)) None None Hne Hg Hpost)
    as (st' & Hl & Hgrp).
  rewrite <- Hgrp. apply search_leads.
  eapply leads_app; [apply leads_literal; discriminate|].
  destruct (head_Star isspace ws1 (58%N :: ws2 ++ g ++ post)
              {| prev := last_read (c0 :: w) (last_read pre None);
                 rest := ws1 ++ 58%N :: ws2 ++ g ++ post; mark := None; grp := None |}
              eq_refl Hws1 eq_refl) as (l1 & H1).
  eapply leads_cons; [exact H1|]. cbn [move prev rest mark grp].
  eapply leads_cons; [reflexivity|]. cbn [move prev rest mark grp].
  destruct (head_Star isspace ws2 (g ++ post)
              {| prev := Some 58%N; rest := ws2 ++ g ++ post; mark := None; grp := None |}
              eq_refl Hws2) as (l2 & H2).
  { destruct g as [|x g]; [now elim Hne|exact Hhd]. }
  eapply leads_cons; [exact H2|]. cbn [move prev rest mark grp]. exact Hl.
Qed.

(** X22. The two fields of a block in the layout of the patterns: the
    label, white space, a colon, white space, the value.  When no [s] or
    [S] stands before the label "SKU Reference No.", the SKU is the run
    of characters of the class after the colon, up to the first
    character outside the class, stripped; when no [v] or [V] stands
    before the label "Variation Name", the variation is the run of
    characters other than [n], [N], ";" and "\" after the colon,
    stripped. *)
Theorem fields_read_from_layout (U : UnicodeData) :
  (forall pre ws1 ws2 g post,
     forallb (fun x => negb (ichr U 83 x)) pre = true ->
     forallb isspace ws1 = true -> forallb isspace ws2 = true ->
     g <> [] -> forallb (sku_class U) g = true ->
     is_some isspace (hd_error g) = false ->
     is_some (sku_class U) (hd_error post) = false ->
     fst (extract_sku_and_var_from_text U
            (VStr (pre ++ lit "SKU Reference No." ++ ws1 ++ 58%N :: ws2 ++ g ++ post)))
     = strip g) /\
  (forall pre ws1 ws2 g post,
     forallb (fun x => negb (ichr U 86 x)) pre = true ->
     forallb isspace ws1 = true -> forallb isspace ws2 = true ->
     g <> [] -> forallb (var_class U) g = true ->
     is_some isspace (hd_error g) = false ->
     is_some (var_class U) (hd_error post) = false ->
     snd (extract_sku_and_var_from_text U
            (VStr (pre ++ lit "Variation Name" ++ ws1 ++ 58%N :: ws2 ++ g ++ post)))
     = strip g).
Proof.
  split.
  - intros pre ws1 ws2 g post Hpre Hws1 Hws2 Hne Hg Hhd Hpost.
    unfold extract_sku_and_var_from_text.
    rewrite (strip_nonempty _ 83%N);
      [|apply in_or_app; right; now left|reflexivity].
    cbn [fst].
    destruct (search_labelled U 83 (lit "KU Reference No.") (sku_class U)
                pre ws1 ws2 g post eq_refl Hpre Hws1 Hws2 Hne Hg Hhd Hpost)
      as (m & Hm & Hgrp).
    change (search (SKU_IN_PRODUCT_INFO U)
              (pre ++ lit "SKU Reference No." ++ ws1 ++ 58%N :: ws2 ++ g ++ post) = Some m)
      in Hm.
    now rewrite Hm, Hgrp.
  - intros pre ws1 ws2 g post Hpre Hws1 Hws2 Hne Hg Hhd Hpost.
    unfold extract_sku_and_var_from_text.
    rewrite (strip_nonempty _ 86%N);
      [|apply in_or_app; right; now left|reflexivity].
    cbn [snd].
    destruct (search_labelled U 86 (lit "ariation Name") (var_class U)
                pre ws1 ws2 g post eq_refl Hpre Hws1 Hws2 Hne Hg Hhd Hpost)
      as (m & Hm & Hgrp).
    change (search (VAR_IN_PRODUCT_INFO U)
              (pre ++ lit "Variation Name" ++ ws1 ++ 58%N :: ws2 ++ g ++ post) = Some m)
      in Hm.
    now rewrite Hm, Hgrp.
Qed.

(** A block of the sheet: its SKU is "R70-A", its variation "2 u". *)
Lemma fields_read_from_layout_witness :
  extract_sku_and_var_from_text latin1
    (VStr (lit "[1] SKU Reference No. : R70-A ; Variation Name : 2 u; Quantity: 4"))
  = (lit "R70-A", lit "2 u").
Proof.
  destruct (fields_read_from_layout latin1) as [Hs Hv].
  specialize (Hs (lit "[1] ") (lit " ") (lit " ") (lit "R70-A ")
                (lit "; Variation Name : 2 u; Quantity: 4")
                eq_refl eq_refl eq_refl ltac:(discriminate) eq_refl eq_refl eq_refl).
  specialize (Hv (lit "[1] SKU Reference No. : R70-A ; ") (lit " ") (lit " ") (lit "2 u")
                (lit "; Quantity: 4")
                eq_refl eq_refl eq_refl ltac:(discriminate) eq_refl eq_refl eq_refl).
  apply injective_projections; [exact Hs|exact Hv].
Defined.

(** The field "Quantity:" with its number. *)
Lemma search_counted (U : UnicodeData) (c0 : N) (w : list N)
    (pre ws ds post : list N) :
  is_ascii_letter c0 = true ->
  forallb (fun x => negb (ichr U c0 x)) pre = true ->
  forallb isspace ws = true ->
  ds <> [] -> forallb (isdigit U) ds = true ->
  is_some isspace (hd_error ds) = false ->
  is_some (isdigit U) (hd_error post) = false ->
  exists m,
    search (map (literal_node U) (c0 :: w) ++ [Star isspace; Open; Plus (isdigit U); Close])
      (pre ++ (c0 :: w) ++ ws ++ ds ++ post) = Some m /\
    group1 m = Some ds.
Proof.
  intros Hc0 Hpre Hws Hne Hds Hhd Hpost. unfold search.
  assert (Hpat : map (literal_node U) (c0 :: w) = Chr (ichr U c0) :: map (literal_node U) w).
  { cbn [map]. unfold literal_node at 1. now rewrite Hc0. }
  rewrite Hpat. rewrite <- app_comm_cons.
  rewrite (search_skip_refused (ichr U c0) _ pre _ Hpre).
  rewrite app_comm_cons, <- Hpat.
  destruct (leads_group (isdigit U) ds post (last_read ws (last_read (c0 :: w) (last_read pre None)))
              None None Hne Hds Hpost) as (st' & Hl & Hgrp).
  rewrite <- Hgrp. apply search_leads.
  eapply leads_app; [apply leads_literal; discriminate|].
  destruct (head_Star isspace ws (ds ++ post)
              {| prev := last_read (c0 :: w) (last_read pre None);
                 rest := ws ++ ds ++ post; mark := None; grp := None |}
              eq_refl Hws) as (l1 & H1).
  { destruct ds as [|x ds]; [now elim Hne|exact Hhd]. }
  eapply leads_cons; [exact H1|]. cbn [move prev rest mark grp]. exact Hl.
Qed.

(** X23. The quantity of a block in the layout of the first pattern:
    when no [q] or [Q] stands before "Quantity:", the quantity is the
    number that follows it, after any white space, read up to the first
    character that is no digit, whatever the other patterns would find
    and whatever the fallback, as long as the number is within the
    interpreter's limit on the length of a numeral.  For a longer number
    [int] raises, and the quantity is what the four other patterns find,
    or the fallback. *)
Theorem quantity_read_from_layout (U : UnicodeData) (HU : digits_plain U)
    (pre ws ds post : list N) (fallback : option Z) :
  forallb (fun x => negb (ichr U 81 x)) pre = true ->
  forallb isspace ws = true ->
  ds <> [] -> forallb (isdigit U) ds = true ->
  is_some (isdigit U) (hd_error post) = false ->
  ((length ds <= int_max_str_digits)%nat ->
   py_int U ds
   = Some (extract_quantity_from_text U
             (VStr (pre ++ lit "Quantity:" ++ ws ++ ds ++ post)) fallback)) /\
  ((int_max_str_digits < length ds)%nat ->
   extract_quantity_from_text U
     (VStr (pre ++ lit "Quantity:" ++ ws ++ ds ++ post)) fallback
   = match first_quantity U (tl (QTD_PATTERNS U))
             (pre ++ lit "Quantity:" ++ ws ++ ds ++ post) with
     | Some n => n
     | None => match fallback with None => 1%Z | Some f => f end
     end).
Proof.
  intros Hpre Hws Hne Hds Hpost.
  assert (Hhd : is_some isspace (hd_error ds) = false).
  { destruct ds as [|d ds]; [reflexivity|]. cbn [forallb] in Hds.
    apply andb_true_iff in Hds. destruct Hds as [Hd _]. cbn.
    now destruct (HU d Hd). }
  destruct (search_counted U 81 (lit "uantity:") pre ws ds post
              eq_refl Hpre Hws Hne Hds Hhd Hpost) as (m & Hm & Hgrp).
  change (81%N :: lit "uantity:") with (lit "Quantity:") in Hm.
  assert (Hfirst : first_quantity U (QTD_PATTERNS U)
                     (pre ++ lit "Quantity:" ++ ws ++ ds ++ post)
                   = match py_int U ds with
                     | Some n => Some n
                     | None => first_quantity U (tl (QTD_PATTERNS U))
                                 (pre ++ lit "Quantity:" ++ ws ++ ds ++ post)
                     end).
  { change (QTD_PATTERNS U)
      with ((map (literal_node U) (lit "Quantity:")
             ++ [Star isspace; Open; Plus (isdigit U); Close]) :: tl (QTD_PATTERNS U)) at 1.
    cbn [first_quantity]. rewrite Hm. unfold int_of_group. now rewrite Hgrp. }
  unfold extract_quantity_from_text. rewrite Hfirst. split; intros Hlen.
  - destruct (py_int_digits U ds HU Hne Hds Hlen) as (n & ->). reflexivity.
  - now rewrite (py_int_oversized U ds Hds Hlen).
Qed.

(** A block whose marker is [3] and whose quantity is 12; and a block
    whose quantity has 4301 digits, which gives its marker, 3. *)
Lemma quantity_read_from_layout_witness :
  extract_quantity_from_text latin1
    (VStr (lit "[3] SKU Reference No. : R70A; Quantity:  12 un")) (Some 1%Z) = 12%Z /\
  extract_quantity_from_text latin1
    (VStr (lit "[3] SKU Reference No. : R70A; "
           ++ lit "Quantity:" ++ lit " " ++ repeat 49%N (S int_max_str_digits) ++ []))
    (Some 1%Z) = 3%Z.
Proof.
  split.
  - destruct (quantity_read_from_layout latin1 latin1_digits_plain
                (lit "[3] SKU Reference No. : R70A; ") (lit "  ") (lit "12") (lit " un")
                (Some 1%Z) eq_refl eq_refl ltac:(discriminate) eq_refl eq_refl) as [H _].
    specialize (H ltac:(apply Nat.leb_le; reflexivity)).
    vm_compute in H. now inversion H.
  - destruct (quantity_read_from_layout latin1 latin1_digits_plain
                (lit "[3] SKU Reference No. : R70A; ") (lit " ")
                (repeat 49%N (S int_max_str_digits)) []
                (Some 1%Z) eq_refl eq_refl ltac:(discriminate)
                ltac:(vm_compute; reflexivity) eq_refl) as [_ H].
    rewrite H; [vm_compute; reflexivity|].
    apply Nat.ltb_lt. vm_compute. reflexivity.
Defined.
